(** * UniFi Protect Viewer: the DOM-adaptation script (src/js/preload.js)

    A shallow embedding of the renderer-side script: the polling primitive
    [waitUntil] over an explicit timer queue, the DOM mutation helpers, the
    version detector, the login driver, the three layout drivers and the
    orchestrator [run] with its session watchdog.

    Time is logical: a timer fires exactly when it is due and a callback
    takes no time.  All times are milliseconds in [Z]. *)

From Stdlib Require Import ZArith Ascii String List Lia Bool.
From stdpp Require Import gmap strings list.

Local Open Scope string_scope.
Local Open Scope list_scope.
Local Open Scope Z_scope.

(** ** JavaScript values and exceptions *)

(** The result of calling a JavaScript function: a value or a thrown error. *)
Inductive outcome (A : Type) : Type :=
  | Returns (a : A)
  | Throws (e : string).
Arguments Returns {A} a.
Arguments Throws {A} e.

(** [String.prototype.includes]. *)
Fixpoint includes (needle hay : string) : bool :=
  if String.prefix needle hay then true
  else match hay with
       | EmptyString => false
       | String _ rest => includes needle rest
       end.

(** Truthiness of a string value: the empty string is falsy. *)
Definition truthy_string (s : string) : bool :=
  match s with EmptyString => false | _ => true end.

(** Truthiness of a possibly missing ([null] / [undefined]) string. *)
Definition truthy (o : option string) : bool :=
  match o with Some s => truthy_string s | None => false end.

(** ** CONFIG *)

(** The double-quote character, for selectors that quote a value. *)
Definition dq : string := String "034"%char EmptyString.

Module CONFIG.
Module TIMEOUTS.
Definition DEFAULT_WAIT : Z := 60000.
Definition LOADING_TIMEOUT : Z := 10000.
Definition UI_ADJUSTMENT : Z := 4000.
Definition INTERVAL : Z := 100.
Definition MIN_DELAY : Z := 20.
End TIMEOUTS.
Module SELECTORS.
Definition LOADING_SCREEN :=
  ("[data-testid=" ++ dq ++ "loader-screen" ++ dq ++ "]")%string.
Definition LOGIN_BUTTON := "button".
Definition USERNAME_INPUT :=
  ("input[name=" ++ dq ++ "username" ++ dq ++ "]")%string.
Definition PASSWORD_INPUT :=
  ("input[name=" ++ dq ++ "password" ++ dq ++ "]")%string.
Definition HEADER := "header".
Definition NAV := "nav".
Definition MODAL_PORTAL := ".ReactModalPortal".
Definition MODAL_CLOSE_BUTTON := "svg".
Definition VERSION_TEXT := "[class^=Version__Item] > span".
Module V2.
Definition VIEWPORT_WRAPPER := "[class^=liveview__ViewportsWrapper]".
End V2.
Module V3.
Definition LIVE_VIEW_WRAPPER := "[class^=dashboard__LiveViewWrapper]".
Definition WIDGETS := "[class^=dashboard__Widgets]".
Definition HEADER := "[class^=liveView__Header]".
Definition EXPAND_BUTTON := "button[class^=dashboard__ExpandButton]".
Definition CONTENT := "[class^=dashboard__Content]".
Definition SCROLLABLE := "[class^=dashboard__Scrollable]".
Definition VIEWPORT_WRAPPER := "[class^=liveview__ViewportsWrapper]".
Definition CAMERA_NAME_WRAPPER :=
  "[class^=LiveViewGridSlot__CameraNameWrapper] button".
End V3.
Module V4_V5.
Definition FULLSCREEN_WRAPPER := "[class^=liveView__FullscreenWrapper]".
Definition LIVE_VIEW_WRAPPER := "[class^=liveView__LiveViewWrapper]".
Definition WIDGETS := "[class^=dashboard__Widgets]".
Definition EXPAND_BUTTON := "button[class^=dashboard__ExpandButton]".
Definition CONTENT := "[class^=dashboard__Content]".
Definition WIDGET := "[class^=common__Widget]".
Definition SCROLLABLE := "[class^=dashboard__Scrollable]".
Definition VIEWPORT_WRAPPER := "[class^=liveview__ViewportsWrapper]".
Definition OPTION_BUTTON :=
  ("[data-testid=" ++ dq ++ "option" ++ dq ++ "]")%string.
Definition PLAYER_OPTIONS :=
  "[class^=LiveViewGridSlot__PlayerOptions] [class^=LiveViewGridSlot__StyledGoToButton]".
Definition ERROR_WRAPPER := "[class^=ViewportError__Wrapper]".
End V4_V5.
End SELECTORS.
End CONFIG.

(** ** Logger *)

(** A piece of a logged message: literal text, an interpolated number or an
    interpolated (or trailing) value. *)
Inductive part : Type :=
  | Lit (s : string)
  | Num (z : Z)
  | Val (s : string).

Inductive level : Type := LOG | ERROR | DEBUG.

Record entry : Type := Entry { entry_level : level; entry_text : list part }.

Module Logger.
Definition log (message : list part) (console : list entry) : list entry :=
  console ++ [Entry LOG message].
Definition error (message : list part) (console : list entry) : list entry :=
  console ++ [Entry ERROR message].
(** [development] is [process.env.NODE_ENV === 'development']. *)
Definition debug (development : bool) (message : list part)
    (console : list entry) : list entry :=
  if development then console ++ [Entry DEBUG message] else console.
End Logger.

(** ** Timers and waitUntil *)

(** The three closures [waitUntil] hands to the timer functions. *)
Inductive callback : Type :=
  | OnTimeout                  (* () => { Logger.debug(..); complete(false) } *)
  | OnInterval                 (* () => { try { if (condition()) .. } catch .. } *)
  | OnSettle (result : bool).  (* () => resolve(result) *)

Record timer : Type := Timer {
  timer_id : nat;
  due : Z;
  period : option Z;   (* [Some p] for setInterval, [None] for setTimeout *)
  action : callback
}.

Inductive promise : Type :=
  | Pending
  | Resolved (value : bool).

(** The event loop as far as one [waitUntil] call sees it, together with
    the variables the promise executor closes over.  The script awaits each
    wait before it goes on and [complete] clears both timers, so the timers
    of one wait are alone in the queue. *)
Record loop : Type := Loop {
  clock : Z;
  queue : list timer;          (* live timers, in order of registration *)
  next_id : nat;
  timeoutId : option nat;      (* [None] is [undefined] *)
  intervalId : option nat;
  state : promise;
  console : list entry;
  uncaught : list string       (* errors that escaped a timer callback *)
}.

Definition with_queue (q : list timer) (l : loop) : loop :=
  Loop (clock l) q (next_id l) (timeoutId l) (intervalId l) (state l)
       (console l) (uncaught l).
Definition with_console (c : list entry) (l : loop) : loop :=
  Loop (clock l) (queue l) (next_id l) (timeoutId l) (intervalId l) (state l)
       c (uncaught l).
Definition with_state (p : promise) (l : loop) : loop :=
  Loop (clock l) (queue l) (next_id l) (timeoutId l) (intervalId l) p
       (console l) (uncaught l).
Definition with_uncaught (u : list string) (l : loop) : loop :=
  Loop (clock l) (queue l) (next_id l) (timeoutId l) (intervalId l) (state l)
       (console l) u.

(** A timer reads its delay as a signed 32-bit integer.  [setTimeout] and
    [setInterval] below take the delay as it is given, which is what a
    timer does with a delay in this range; the delays the script itself
    passes (20, 100, 500, 10000 and 60000 ms) all are.  A statement about
    the instant a timer fires at, for a delay that the caller chooses,
    assumes the delay to be in this range. *)
Definition int32 (delay : Z) : Prop := - 2 ^ 31 <= delay < 2 ^ 31.

(** [setTimeout(cb, delay)]: a negative delay counts as zero. *)
Definition setTimeout (cb : callback) (delay : Z) (l : loop) : nat * loop :=
  (next_id l,
   Loop (clock l)
        (queue l ++ [Timer (next_id l) (clock l + Z.max 0 delay) None cb])
        (S (next_id l)) (timeoutId l) (intervalId l) (state l) (console l)
        (uncaught l)).

(** [setInterval(cb, delay)]. *)
Definition setInterval (cb : callback) (delay : Z) (l : loop) : nat * loop :=
  (next_id l,
   Loop (clock l)
        (queue l ++ [Timer (next_id l) (clock l + Z.max 0 delay)
                           (Some (Z.max 0 delay)) cb])
        (S (next_id l)) (timeoutId l) (intervalId l) (state l) (console l)
        (uncaught l)).

(** [clearTimeout(id)] and [clearInterval(id)] share one table of timers. *)
Definition clearTimer (id : nat) (l : loop) : loop :=
  with_queue (List.filter (fun t => negb (Nat.eqb (timer_id t) id)) (queue l)) l.

(** [if (id) clearTimeout(id)]: [undefined] and [0] are falsy. *)
Definition clear_if_set (id : option nat) (l : loop) : loop :=
  match id with
  | Some (S n) => clearTimer (S n) l
  | _ => l
  end.

(** The timer that fires next: the least due time, the earliest registered
    among equals. *)
Fixpoint earliest (q : list timer) : option timer :=
  match q with
  | [] => None
  | t :: q' =>
      match earliest q' with
      | Some u => if due u <? due t then Some u else Some t
      | None => Some t
      end
  end.

(** [try { body } catch (error) { handler(error) }]. *)
Definition try_catch {A : Type} (body : outcome A) (handler : string -> outcome A)
    : outcome A :=
  match body with
  | Returns a => Returns a
  | Throws e => handler e
  end.

Section WaitUntil.
Variable development : bool.
(** [condition()] called at a given time; [Returns b] carries the
    truthiness of the returned value. *)
Variable condition : Z -> outcome bool.
Variables timeout interval : Z.

(** [complete(result)]. *)
Definition complete (result : bool) (l : loop) : loop :=
  let l := clear_if_set (timeoutId l) l in
  let l := clear_if_set (intervalId l) l in
  snd (setTimeout (OnSettle result) CONFIG.TIMEOUTS.MIN_DELAY l).

(** The body of each callback; [Throws] when an error leaves it. *)
Definition call (cb : callback) (l : loop) : outcome loop :=
  match cb with
  | OnTimeout =>
      let l := with_console
                 (Logger.debug development
                    [Lit "Condition timed out after "; Num timeout; Lit "ms"]
                    (console l)) l in
      Returns (complete false l)
  | OnInterval =>
      try_catch
        match condition (clock l) with
        | Returns true =>
            let l := with_console
                       (Logger.debug development [Lit "Condition met"]
                          (console l)) l in
            Returns (complete true l)
        | Returns false => Returns l
        | Throws e => Throws e
        end
        (fun error =>
           (* Don't complete on error, keep waiting *)
           Returns (with_console
                      (Logger.error
                         [Lit "Error in waitUntil condition:"; Val error]
                         (console l)) l))
  | OnSettle result =>
      match state l with
      | Pending => Returns (with_state (Resolved result) l)
      | Resolved _ => Returns l
      end
  end.

(** Run the timer [t]: advance the clock, drop or re-arm the timer, call
    its callback; an error the callback lets through is reported as
    uncaught. *)
Definition fire (t : timer) (l : loop) : loop :=
  let rest := List.filter (fun u => negb (Nat.eqb (timer_id u) (timer_id t)))
                (queue l) in
  let q := match period t with
           | Some p => rest ++ [Timer (timer_id t) (due t + p) (Some p) (action t)]
           | None => rest
           end in
  let l := Loop (Z.max (clock l) (due t)) q (next_id l) (timeoutId l)
                (intervalId l) (state l) (console l) (uncaught l) in
  match call (action t) l with
  | Returns l' => l'
  | Throws e => with_uncaught (uncaught l ++ [e]) l
  end.

(** One turn of the event loop; [None] when no timer is left. *)
Definition step (l : loop) : option loop :=
  match earliest (queue l) with
  | Some t => Some (fire t l)
  | None => None
  end.

(** At most [fuel] turns, stopping once the promise is settled. *)
Fixpoint drain (fuel : nat) (l : loop) : loop :=
  match fuel with
  | O => l
  | S n =>
      match state l with
      | Resolved _ => l
      | Pending =>
          match step l with
          | Some l' => drain n l'
          | None => l
          end
      end
  end.

(** The promise executor of [waitUntil], entered at time [t0]. *)
Definition executor (t0 : Z) : loop :=
  let l := Loop t0 [] 1 None None Pending [] [] in
  let l := if timeout =? -1 then l
           else let '(id, l) := setTimeout OnTimeout timeout l in
                Loop (clock l) (queue l) (next_id l) (Some id)
                     (intervalId l) (state l) (console l) (uncaught l) in
  let '(id, l) := setInterval OnInterval interval l in
  Loop (clock l) (queue l) (next_id l) (timeoutId l) (Some id)
       (state l) (console l) (uncaught l).

(** Awaiting the promise made at [t0], given [fuel] turns of the event
    loop: the resolved value, the time of resolution and what was logged
    meanwhile, or [None] while the promise is still pending. *)
Definition settle (fuel : nat) (t0 : Z) : option (bool * Z * list entry) :=
  let l := drain fuel (executor t0) in
  match state l with
  | Resolved b => Some (b, clock l, console l)
  | Pending => None
  end.

(** *** Vocabulary for the behaviour of one wait *)

(** The time of the [j]-th poll. *)
Definition tick (t0 : Z) (j : nat) : Z := t0 + Z.of_nat j * interval.

(** The poll at tick [j] returns a truthy value. *)
Definition fires_at (t0 : Z) (j : nat) : Prop :=
  condition (tick t0 j) = Returns true.

(** Tick [k] is the first poll that returns a truthy value. *)
Definition first_fires_at (t0 : Z) (k : nat) : Prop :=
  (1 <= k)%nat /\ fires_at t0 k /\
  forall j, (1 <= j < k)%nat -> ~ fires_at t0 j.

(** The loop between polls: [j] polls done, none truthy, the promise
    pending, the timeout timer (if any) and the interval timer live. *)
Definition Polling (t0 : Z) (j : nat) (l : loop) : Prop :=
  state l = Pending /\ clock l = tick t0 j /\
  if timeout =? -1
  then timeoutId l = None /\ intervalId l = Some 1%nat /\
       queue l = [Timer 1 (tick t0 (S j)) (Some interval) OnInterval]
  else timeoutId l = Some 1%nat /\ intervalId l = Some 2%nat /\
       queue l = [Timer 1 (t0 + Z.max 0 timeout) None OnTimeout;
                  Timer 2 (tick t0 (S j)) (Some interval) OnInterval] /\
       tick t0 j <= t0 + Z.max 0 timeout.

(** The loop after [complete(b)] at time [t]: only the settle timer is
    left. *)
Definition Settling (b : bool) (t : Z) (l : loop) : Prop :=
  state l = Pending /\ clock l = t /\
  exists id, queue l = [Timer id (t + CONFIG.TIMEOUTS.MIN_DELAY) None (OnSettle b)].

(** The number of polls that come strictly before the timeout fires. *)
Definition polls_before_timeout : nat :=
  Z.to_nat ((Z.max 0 timeout - 1) / interval).

(** Tick [i] comes strictly before the timeout fires (always, when there
    is no timeout). *)
Definition in_time (t0 : Z) (i : nat) : Prop :=
  timeout = -1 \/ tick t0 i < t0 + Z.max 0 timeout.

(** The loop is polling, settling [b] or resolved [b]. *)
Definition heading_for (b : bool) (t0 : Z) (l : loop) : Prop :=
  (exists j, Polling t0 j l) \/ (exists t, Settling b t l) \/
  state l = Resolved b.
End WaitUntil.


(** [await waitUntil(condition, timeout, interval)]; an omitted argument
    ([None]) takes its default. *)
Definition waitUntil (development : bool) (condition : Z -> outcome bool)
    (timeout interval : option Z) (fuel : nat) (t0 : Z)
    : option (bool * Z * list entry) :=
  settle development condition
    (default CONFIG.TIMEOUTS.DEFAULT_WAIT timeout)
    (default CONFIG.TIMEOUTS.INTERVAL interval) fuel t0.

(** ** The host page *)

(** A DOM node is known by its identity. *)
Definition element : Type := nat.

(** What the script can read of the page at one instant. *)
Record page : Type := Page {
  URL : string;                                      (* document.URL *)
  querySelectorAll : string -> list element;         (* in document order *)
  querySelectorAll_in : element -> string -> list element;
  children_length : element -> nat;                  (* el.children.length *)
  innerText : element -> option string;              (* [None]: undefined *)
  innerHTML : element -> string;
  click_defined : element -> bool;                   (* el.click is defined *)
  valueTracker : element -> bool;                    (* el._valueTracker is set *)
  defaultValue : element -> string;                  (* el.value as the page set it *)
  localStorage_getItem : string -> option string
}.

(** [querySelector] is the first match of [querySelectorAll]. *)
Definition querySelector (pg : page) (selector : string) : option element :=
  head (querySelectorAll pg selector).
Definition querySelector_in (pg : page) (el : element) (selector : string)
    : option element :=
  head (querySelectorAll_in pg el selector).

(** The stored configuration; a missing field is [None]. *)
Record config : Type := Config {
  url : option string;
  username : option string;
  password : option string
}.

(** [config && config.username && config.password] as a condition. *)
Definition credentials_present (c : option config) : bool :=
  match c with
  | Some c => truthy (username c) && truthy (password c)
  | None => false
  end.

(** A missing value used as a string argument reads [undefined]. *)
Definition js_string (o : option string) : string := default "undefined" o.

(** Everything outside the script.  The page is a trace over time: what the
    host page does, also in reaction to the script's events, shows at the
    time it happens.  [ToNumber s] is the numeric value of unary plus on the
    string [s], rounded down to an integer; [None] stands for NaN. *)
Record host : Type := Host {
  NODE_ENV_development : bool;
  page_at : Z -> page;
  configLoad_reply : Z -> outcome (option config);   (* ipc 'configLoad' *)
  configLoad_latency : Z -> Z;
  ToNumber : string -> option Z
}.

(** ** The script's effects *)

Inductive event : Type :=
  | Click (target : element)             (* target.click() *)
  | MouseEvent_click (target : element)  (* a synthesized bubbling, cancelable click *)
  | Tracker_setValue (target : element) (lastValue : string)
  | Input_simulated (target : element).  (* bubbling "input", simulated = true *)

Inductive navigation : Type :=
  | Assign_href (target : string)        (* window.location.href = target *)
  | Reload.                              (* location.reload() *)

Record world : Type := World {
  now : Z;
  style : gmap (element * string) string;   (* inline style properties set *)
  value : gmap element string;              (* input values assigned *)
  dispatched : list event;                  (* oldest first *)
  out : list entry;                         (* the console *)
  navigated : list navigation
}.

Definition set_now (t : Z) (w : world) : world :=
  World t (style w) (value w) (dispatched w) (out w) (navigated w).
Definition set_style (m : gmap (element * string) string) (w : world) : world :=
  World (now w) m (value w) (dispatched w) (out w) (navigated w).
Definition set_value (m : gmap element string) (w : world) : world :=
  World (now w) (style w) m (dispatched w) (out w) (navigated w).
Definition set_dispatched (l : list event) (w : world) : world :=
  World (now w) (style w) (value w) l (out w) (navigated w).
Definition set_out (l : list entry) (w : world) : world :=
  World (now w) (style w) (value w) (dispatched w) l (navigated w).
Definition set_navigated (l : list navigation) (w : world) : world :=
  World (now w) (style w) (value w) (dispatched w) (out w) l.

(** The result of running a piece of the script: a value, a thrown error,
    or an awaited promise that has not settled. *)
Inductive result (A : Type) : Type :=
  | Ok (a : A)
  | Err (e : string)
  | Hang.
Arguments Ok {A} a.
Arguments Err {A} e.
Arguments Hang {A}.

Definition M (A : Type) : Type := world -> result A * world.

Definition ret {A : Type} (a : A) : M A := fun w => (Ok a, w).

Definition bind {A B : Type} (m : M A) (k : A -> M B) : M B :=
  fun w =>
    match m w with
    | (Ok a, w') => k a w'
    | (Err e, w') => (Err e, w')
    | (Hang, w') => (Hang, w')
    end.

Declare Scope script_scope.
Delimit Scope script_scope with script.
Notation "'let!' x ':=' m 'in' k" := (bind m (fun x => k))
  (at level 10, x name, m at level 100, k at level 200) : script_scope.
Notation "m1 '>>' m2" := (bind m1 (fun _ => m2))
  (at level 100, m2 at level 200, right associativity) : script_scope.
Local Open Scope script_scope.

Definition throw {A : Type} (e : string) : M A := fun w => (Err e, w).

(** [try { body } catch (error) { handler(error) }] around script code. *)
Definition try_catchM {A : Type} (body : M A) (handler : string -> M A) : M A :=
  fun w =>
    match body w with
    | (Err e, w') => handler e w'
    | r => r
    end.

Fixpoint forEach {A : Type} (l : list A) (f : A -> M unit) : M unit :=
  match l with
  | [] => ret tt
  | a :: l' => bind (f a) (fun _ => forEach l' f)
  end.

Definition Logger_log (message : list part) : M unit :=
  fun w => (Ok tt, set_out (Logger.log message (out w)) w).
Definition Logger_error (message : list part) : M unit :=
  fun w => (Ok tt, set_out (Logger.error message (out w)) w).

(** [wait(ms)]: a promise resolved by a timer. *)
Definition wait (ms : Z) : M unit :=
  fun w => (Ok tt, set_now (now w + Z.max 0 ms) w).

(** [elementExists(elements, index = 0)]. *)
Definition elementExists (elements : list element) (index : nat) : bool :=
  match elements with
  | [] => false
  | _ => match nth_error elements index with Some _ => true | None => false end
  end.

(** [hasElements(elements)]. *)
Definition hasElements (elements : list element) : bool :=
  match elements with [] => false | _ => true end.

(** [checkUrl(urlPart)]. *)
Definition checkUrl (pg : page) (urlPart : string) : bool :=
  includes urlPart (URL pg).

(** [getProtectVersion() || 'Protect 3.x']. *)
Definition version_or_default (detected : option string) : string :=
  if truthy detected then js_string detected else "Protect 3.x".

(** The layout driver the dashboard branch of [run] picks for a version
    string: the tests of its if / else-if chain, in their order. *)
Inductive generation : Type := Gen3 | Gen45 | Unsupported.

Definition classify (version : string) : generation :=
  if includes "3." version then Gen3
  else if includes "4." version || includes "5." version then Gen45
  else Unsupported.

Section Script.
Variable h : host.
(** The number of event-loop turns one [await] may take. *)
Variable fuel : nat.

(** The page as it is now. *)
Definition document : M page := fun w => (Ok (page_at h (now w)), w).

(** [await waitUntil(() => condition, timeout, interval)] where the
    condition reads the clock and the page. *)
Definition await_waitUntil (condition : Z -> page -> bool)
    (timeout interval : option Z) : M bool :=
  fun w =>
    match waitUntil (NODE_ENV_development h)
            (fun t => Returns (condition t (page_at h t)))
            timeout interval fuel (now w) with
    | Some (b, t, logged) => (Ok b, set_out (out w ++ logged) (set_now t w))
    | None => (Hang, w)
    end.

(** [electronAPI.configLoad()]. *)
Definition configLoad : M (option config) :=
  Logger_log [Lit "Loading configuration"] >>
  (fun w =>
     let w' := set_now (now w + Z.max 0 (configLoad_latency h (now w))) w in
     match configLoad_reply h (now w) with
     | Returns c => (Ok c, w')
     | Throws e => (Err e, w')
     end).

(** [setNativeValue(element, value)]. *)
Definition setNativeValue (el : option element) (v : string) : M unit :=
  match el with
  | None => Logger_error [Lit "setNativeValue: Element is null"]
  | Some el =>
      try_catchM
        (let! pg := document in
         fun w =>
           let lastValue := default (defaultValue pg el) (value w !! el) in
           let w := set_value (<[el := v]> (value w)) w in
           let w := if valueTracker pg el
                    then set_dispatched
                           (dispatched w ++ [Tracker_setValue el lastValue]) w
                    else w in
           (Ok tt, set_dispatched (dispatched w ++ [Input_simulated el]) w))
        (fun error => Logger_error [Lit "Error setting native value:"; Val error])
  end.

(** [clickElement(element)]. *)
Definition clickElement (el : option element) : M unit :=
  match el with
  | None => Logger_error [Lit "clickElement: Element is null"]
  | Some el =>
      try_catchM
        (let! pg := document in
         fun w =>
           if click_defined pg el
           then (Ok tt, set_dispatched (dispatched w ++ [Click el]) w)
           else (Ok tt, set_dispatched (dispatched w ++ [MouseEvent_click el]) w))
        (fun error => Logger_error [Lit "Error clicking element:"; Val error])
  end.

(** [setStyle(element, style, value)]. *)
Definition setStyle (el : option element) (property v : string) : M unit :=
  match el with
  | None =>
      Logger_error [Lit "setStyle: Element is null for style="; Val property;
                    Lit ", value="; Val v]
  | Some el =>
      try_catchM
        (fun w => (Ok tt, set_style (<[(el, property) := v]> (style w)) w))
        (fun error =>
           Logger_error [Lit "Error setting style "; Val property; Lit "=";
                         Val v; Lit ":"; Val error])
  end.

(** [getProtectVersion()]. *)
Definition getProtectVersion : M (option string) :=
  try_catchM
    (let! pg := document in
     let versionElements := querySelectorAll pg CONFIG.SELECTORS.VERSION_TEXT in
     if (length versionElements =? 0)%nat then ret None
     else
       let versionEl :=
         List.find (fun el => match innerText pg el with
                              | Some text => truthy_string text &&
                                             includes "Protect" text
                              | None => false
                              end) versionElements in
       ret (match versionEl with
             | Some el => Some (innerHTML pg el)
             | None => None
             end))
    (fun error =>
       Logger_error [Lit "Error getting Protect version:"; Val error] >>
       ret None).

(** [closeAllModals()]. *)
Definition closeAllModals : M bool :=
  try_catchM
    (let! pg := document in
     (if hasElements (querySelectorAll pg CONFIG.SELECTORS.MODAL_PORTAL)
      then forEach (querySelectorAll pg CONFIG.SELECTORS.MODAL_PORTAL)
             (fun modalPortal =>
                let buttons := querySelectorAll_in pg modalPortal
                                 CONFIG.SELECTORS.MODAL_CLOSE_BUTTON in
                if elementExists buttons 0
                then clickElement (nth_error buttons 0)
                else ret tt)
      else ret tt) >>
     (* Wait until all modals are closed *)
     await_waitUntil
       (fun _ pg =>
          forallb (fun e => (children_length pg e =? 0)%nat)
            (querySelectorAll pg CONFIG.SELECTORS.MODAL_PORTAL))
       None None)
    (fun error =>
       Logger_error [Lit "Error closing modals:"; Val error] >> ret false).

(** [handleLogin()]. *)
Definition handleLogin : M bool :=
  try_catchM
    (Logger_log [Lit "Handling login process"] >>
     (* Wait until login button is present *)
     let! loginButtonPresent :=
       await_waitUntil
         (fun _ pg => hasElements
                        (querySelectorAll pg CONFIG.SELECTORS.LOGIN_BUTTON))
         None None in
     if negb loginButtonPresent
     then Logger_error [Lit "Login button not found"] >> ret false
     else
       let! config := configLoad in
       if negb (credentials_present config)
       then Logger_error [Lit "Login credentials not found in config"] >>
            ret false
       else
         let! pg := document in
         (* Fill in username and password *)
         setNativeValue (querySelector pg CONFIG.SELECTORS.USERNAME_INPUT)
           (js_string (config ≫= username)) >>
         setNativeValue (querySelector pg CONFIG.SELECTORS.PASSWORD_INPUT)
           (js_string (config ≫= password)) >>
         (* Click the login button *)
         clickElement (querySelector pg CONFIG.SELECTORS.LOGIN_BUTTON) >>
         (* Wait for redirect after login *)
         let! redirected :=
           await_waitUntil (fun _ pg => negb (checkUrl pg "login"))
             None None in
         ret redirected)
    (fun error => Logger_error [Lit "Error in handleLogin:"; Val error] >>
                  ret false).

(** [handleLiveviewV2()]. *)
Definition handleLiveviewV2 : M bool :=
  try_catchM
    (Logger_log [Lit "Handling liveview for Protect 2.x"] >>
     (* Wait until liveview is present *)
     let! liveviewPresent :=
       await_waitUntil
         (fun _ pg => hasElements
                        (querySelectorAll pg CONFIG.SELECTORS.V2.VIEWPORT_WRAPPER))
         None None in
     if negb liveviewPresent
     then Logger_error [Lit "Liveview not found for Protect 2.x"] >> ret false
     else
       (* Close all modals if needed *)
       closeAllModals >>
       (* Apply custom styling *)
       let! pg := document in
       setStyle (querySelector pg CONFIG.SELECTORS.HEADER) "display" "none" >>
       setStyle (querySelector pg CONFIG.SELECTORS.NAV) "display" "none" >>
       setStyle (querySelector pg CONFIG.SELECTORS.V2.VIEWPORT_WRAPPER)
         "maxWidth" "100vw" >>
       setStyle (querySelector pg CONFIG.SELECTORS.V2.VIEWPORT_WRAPPER)
         "maxHeight" "100vh" >>
       Logger_log [Lit "Successfully applied Protect 2.x liveview customizations"] >>
       ret true)
    (fun error => Logger_error [Lit "Error in handleLiveviewV2:"; Val error] >>
                  ret false).

(** [document.querySelector(outer).querySelector(inner)]: a TypeError when
    the outer element is missing. *)
Definition querySelector_within (pg : page) (outer inner : string)
    : M (option element) :=
  match querySelector pg outer with
  | Some el => ret (querySelector_in pg el inner)
  | None => throw "TypeError: Cannot read properties of null (reading 'querySelector')"
  end.

(** [handleLiveviewV3()]. *)
Definition handleLiveviewV3 : M bool :=
  try_catchM
    (Logger_log [Lit "Handling liveview for Protect 3.x"] >>
     (* Wait until liveview is present *)
     let! liveviewPresent :=
       await_waitUntil
         (fun _ pg => hasElements
                        (querySelectorAll pg CONFIG.SELECTORS.V3.LIVE_VIEW_WRAPPER))
         None None in
     if negb liveviewPresent
     then Logger_error [Lit "Liveview not found for Protect 3.x"] >> ret false
     else
       (* Close all modals if needed *)
       closeAllModals >>
       (* Apply base styles *)
       let! pg := document in
       setStyle (querySelector pg "body") "background" "black" >>
       setStyle (querySelector pg CONFIG.SELECTORS.HEADER) "display" "none" >>
       setStyle (querySelector pg CONFIG.SELECTORS.NAV) "display" "none" >>
       (* Wait until widgets are present *)
       let! widgetsPresent :=
         await_waitUntil
           (fun _ pg =>
              hasElements (querySelectorAll pg CONFIG.SELECTORS.V3.WIDGETS) &&
              hasElements (querySelectorAll pg CONFIG.SELECTORS.V3.HEADER) &&
              hasElements (querySelectorAll pg CONFIG.SELECTORS.V3.EXPAND_BUTTON))
           None None in
       if negb widgetsPresent
       then Logger_error [Lit "Widgets not found for Protect 3.x"] >> ret false
       else
         (* Apply custom styling for dashboard elements *)
         let! pg := document in
         setStyle (querySelector pg CONFIG.SELECTORS.V3.WIDGETS) "display" "none" >>
         setStyle (querySelector pg CONFIG.SELECTORS.V3.HEADER) "display" "none" >>
         setStyle (querySelector pg CONFIG.SELECTORS.V3.EXPAND_BUTTON)
           "display" "none" >>
         setStyle (querySelector pg CONFIG.SELECTORS.V3.CONTENT) "display" "block" >>
         setStyle (querySelector pg CONFIG.SELECTORS.V3.CONTENT) "padding" "0" >>
         (* Apply styling to scrollable area *)
         let! scrollable :=
           querySelector_within pg CONFIG.SELECTORS.V3.LIVE_VIEW_WRAPPER
             CONFIG.SELECTORS.V3.SCROLLABLE in
         (match scrollable with
          | Some _ => setStyle scrollable "paddingBottom" "0"
          | None => ret tt
          end) >>
         (* Apply styling to viewport wrapper *)
         let! viewportWrapper :=
           querySelector_within pg CONFIG.SELECTORS.V3.LIVE_VIEW_WRAPPER
             CONFIG.SELECTORS.V3.VIEWPORT_WRAPPER in
         (match viewportWrapper with
          | Some _ => setStyle viewportWrapper "maxWidth" "calc(177.778vh - 50px)"
          | None => ret tt
          end) >>
         (* Wait until camera names are present *)
         let! cameraNamesPresent :=
           await_waitUntil
             (fun _ pg => hasElements
                            (querySelectorAll pg
                               CONFIG.SELECTORS.V3.CAMERA_NAME_WRAPPER))
             None None in
         (if cameraNamesPresent
          then
            (* Make camera name buttons non-clickable *)
            let! pg := document in
            forEach (querySelectorAll pg CONFIG.SELECTORS.V3.CAMERA_NAME_WRAPPER)
              (fun button =>
                 setStyle (Some button) "color" "white" >>
                 setStyle (Some button) "cursor" "initial" >>
                 setStyle (Some button) "pointerEvents" "none")
          else ret tt) >>
         Logger_log [Lit "Successfully applied Protect 3.x liveview customizations"] >>
         ret true)
    (fun error => Logger_error [Lit "Error in handleLiveviewV3:"; Val error] >>
                  ret false).

(** [handleLiveviewV4andV5()]. *)
Definition handleLiveviewV4andV5 : M bool :=
  try_catchM
    (Logger_log [Lit "Handling liveview for Protect 4.x/5.x"] >>
     (* Wait until liveview is present *)
     let! liveviewPresent :=
       await_waitUntil
         (fun _ pg => hasElements
                        (querySelectorAll pg
                           CONFIG.SELECTORS.V4_V5.FULLSCREEN_WRAPPER))
         None None in
     if negb liveviewPresent
     then Logger_error [Lit "Liveview not found for Protect 4.x/5.x"] >> ret false
     else
       (* Close all modals if needed *)
       closeAllModals >>
       (* Apply base styles *)
       let! pg := document in
       setStyle (querySelector pg "body") "background" "black" >>
       setStyle (querySelector pg CONFIG.SELECTORS.HEADER) "display" "none" >>
       setStyle (querySelector pg CONFIG.SELECTORS.NAV) "display" "none" >>
       (* Apply styling to dashboard elements *)
       (if hasElements (querySelectorAll pg CONFIG.SELECTORS.V4_V5.WIDGETS)
        then setStyle (querySelector pg CONFIG.SELECTORS.V4_V5.WIDGETS)
               "display" "none"
        else ret tt) >>
       (if hasElements (querySelectorAll pg CONFIG.SELECTORS.V4_V5.EXPAND_BUTTON)
        then setStyle (querySelector pg CONFIG.SELECTORS.V4_V5.EXPAND_BUTTON)
               "display" "none"
        else ret tt) >>
       (if hasElements (querySelectorAll pg CONFIG.SELECTORS.V4_V5.CONTENT)
        then setStyle (querySelector pg CONFIG.SELECTORS.V4_V5.CONTENT)
               "display" "block" >>
             setStyle (querySelector pg CONFIG.SELECTORS.V4_V5.CONTENT)
               "padding" "0"
        else ret tt) >>
       (* Set fullscreen wrapper background to black *)
       setStyle (querySelector pg CONFIG.SELECTORS.V4_V5.FULLSCREEN_WRAPPER)
         "background-color" "black" >>
       (* Apply styling to widget *)
       (match querySelector pg CONFIG.SELECTORS.V4_V5.LIVE_VIEW_WRAPPER with
        | Some liveViewWrapper =>
            let widget := querySelector_in pg liveViewWrapper
                            CONFIG.SELECTORS.V4_V5.WIDGET in
            (match widget with
             | Some _ => setStyle widget "border" "0"
             | None => ret tt
             end) >>
            let scrollable := querySelector_in pg liveViewWrapper
                                CONFIG.SELECTORS.V4_V5.SCROLLABLE in
            (match scrollable with
             | Some _ => setStyle scrollable "paddingBottom" "0"
             | None => ret tt
             end) >>
            let viewportWrapper := querySelector_in pg liveViewWrapper
                                     CONFIG.SELECTORS.V4_V5.VIEWPORT_WRAPPER in
            (match viewportWrapper with
             | Some _ => setStyle viewportWrapper "maxWidth"
                           "calc((100vh) * 1.7777777777777777)"
             | None => ret tt
             end)
        | None => ret tt
        end) >>
       (* Wait until option buttons are visible and hide them *)
       let! optionsVisible :=
         await_waitUntil
           (fun _ pg => hasElements
                          (querySelectorAll pg CONFIG.SELECTORS.V4_V5.OPTION_BUTTON))
           (Some CONFIG.TIMEOUTS.DEFAULT_WAIT) (Some 500) in
       (if optionsVisible
        then let! pg := document in
             forEach (querySelectorAll pg CONFIG.SELECTORS.V4_V5.OPTION_BUTTON)
               (fun button => setStyle (Some button) "display" "none")
        else ret tt) >>
       (* Wait until player options are visible and hide "Go to Timeline" *)
       let! playerOptionsVisible :=
         await_waitUntil
           (fun _ pg => hasElements
                          (querySelectorAll pg CONFIG.SELECTORS.V4_V5.PLAYER_OPTIONS))
           (Some CONFIG.TIMEOUTS.DEFAULT_WAIT) (Some 500) in
       (if playerOptionsVisible
        then let! pg := document in
             forEach (querySelectorAll pg CONFIG.SELECTORS.V4_V5.PLAYER_OPTIONS)
               (fun button => setStyle (Some button) "display" "none")
        else ret tt) >>
       (* Make all missing or error cameras black *)
       let! pg := document in
       forEach (querySelectorAll pg CONFIG.SELECTORS.V4_V5.ERROR_WRAPPER)
         (fun el => setStyle (Some el) "background-color" "black") >>
       Logger_log [Lit "Successfully applied Protect 4.x/5.x liveview customizations"] >>
       ret true)
    (fun error => Logger_error [Lit "Error in handleLiveviewV4andV5:"; Val error] >>
                  ret false).
(** The dashboard branch of [run]: the driver for the version, applied
    again after [UI_ADJUSTMENT]. *)
Definition dashboard_dispatch (version : string) : M unit :=
  match classify version with
  | Gen3 =>
      (* Handle version 3.x *)
      handleLiveviewV3 >>
      wait CONFIG.TIMEOUTS.UI_ADJUSTMENT >>
      handleLiveviewV3 >> ret tt
  | Gen45 =>
      (* Handle version 4.x or 5.x *)
      handleLiveviewV4andV5 >>
      wait CONFIG.TIMEOUTS.UI_ADJUSTMENT >>
      handleLiveviewV4andV5 >> ret tt
  | Unsupported => Logger_error [Lit "Unsupported version: "; Val version]
  end.

(** The condition the session watchdog polls. *)
Definition session_condition (config : config) (loginExpiresAt : option Z)
    (offset : Z) (t : Z) (pg : page) : bool :=
  negb (checkUrl pg (js_string (url config))) ||
  match loginExpiresAt with
  | Some expires => t >? expires - offset
  | None => false
  end.

(** The last block of [run]: session expiration and auto-reload. *)
Definition session_watchdog (config : config) : M unit :=
  let! pg := document in
  match localStorage_getItem pg "portal:localSessionsExpiresAt" with
  | Some marker =>
      if truthy_string marker
      then
        Logger_log [Lit "Session expiration information found, setting up auto-reload"] >>
        let loginExpiresAt := ToNumber h marker in
        let offset := 10 * 60 * 1000 in
        (* Check every minute, no timeout *)
        await_waitUntil (session_condition config loginExpiresAt offset)
          (Some (-1)) (Some 60000) >>
        Logger_log [Lit "Session expiring soon or URL changed, reloading page"] >>
        (fun w => (Ok tt, set_navigated (navigated w ++ [Reload]) w))
      else ret tt
  | None => ret tt
  end.

(** [run()]. *)
Definition run : M unit :=
  try_catchM
    (Logger_log [Lit "Starting UniFi Protect Viewer"] >>
     let! loaded := configLoad in
     match loaded with
     | None => Logger_error [Lit "No configuration found"]
     | Some config =>
         let! pg := document in
         (* Check for config page *)
         if checkUrl pg "index.html" || checkUrl pg "config.html"
         then Logger_log [Lit "On configuration page, no customization needed"]
         else if negb (checkUrl pg (js_string (url config)))
         then
           (* Redirect to configured URL if needed *)
           Logger_log [Lit "Redirecting to configured URL: ";
                       Val (js_string (url config))] >>
           (fun w => (Ok tt, set_navigated
                               (navigated w ++ [Assign_href (js_string (url config))])
                               w))
         else
           (* Wait for loading screen to appear and then disappear *)
           let! loadingScreenVisible :=
             await_waitUntil
               (fun _ pg => hasElements
                              (querySelectorAll pg CONFIG.SELECTORS.LOADING_SCREEN))
               (Some CONFIG.TIMEOUTS.LOADING_TIMEOUT) None in
           (if loadingScreenVisible
            then
              Logger_log [Lit "Loading screen visible, waiting for it to disappear"] >>
              await_waitUntil
                (fun _ pg => negb (hasElements
                                     (querySelectorAll pg
                                        CONFIG.SELECTORS.LOADING_SCREEN)))
                None None >> ret tt
            else ret tt) >>
           (* Handle login if on login page *)
           let! pg := document in
           let! proceed :=
             (if checkUrl pg "login"
              then
                Logger_log [Lit "On login page, handling authentication"] >>
                let! loginSuccess := handleLogin in
                if loginSuccess
                then
                  Logger_log [Lit "Login successful, waiting for redirect"] >>
                  await_waitUntil (fun _ pg => negb (checkUrl pg "login"))
                    None None >>
                  ret true
                else Logger_error [Lit "Login failed"] >> ret false
              else ret true) in
           if negb proceed then ret tt
           else
             let! pg := document in
             (* Handle UniFi Protect version 2.x *)
             if checkUrl pg "protect/liveview"
             then Logger_log [Lit "Detected Protect 2.x liveview"] >>
                  handleLiveviewV2 >> ret tt
             else
               (* Wait for version info to be visible for v3, v4, v5 *)
               let! versionVisible :=
                 await_waitUntil
                   (fun _ pg => hasElements
                                  (querySelectorAll pg
                                     CONFIG.SELECTORS.VERSION_TEXT))
                   (Some CONFIG.TIMEOUTS.LOADING_TIMEOUT) None in
               (* Determine UniFi Protect version; default to 3.x *)
               let! detected := getProtectVersion in
               let version := version_or_default detected in
               Logger_log [Lit "Detected UniFi Protect version: "; Val version] >>
               (* Handle appropriate version for dashboard view *)
               let! pg := document in
               (if checkUrl pg "protect/dashboard"
                then dashboard_dispatch version
                else ret tt) >>
               (* Handle session expiration for versions 3+ and auto-reload *)
               session_watchdog config
     end)
    (fun error => Logger_error [Lit "Error in run function:"; Val error]).
End Script.


(** ** Vocabulary for the behaviour of the script *)

(** The outcome [w'] differs from [w] by one logged error and nothing
    else: no style, value, event, navigation or time. *)
Definition only_logs_error (w w' : world) : Prop :=
  now w' = now w /\ style w' = style w /\ value w' = value w /\
  dispatched w' = dispatched w /\ navigated w' = navigated w /\
  exists message, out w' = out w ++ [Entry ERROR message].

(** The page does not change: the same snapshot at every time. *)
Definition static (h : host) (pg : page) : Prop := forall t, page_at h t = pg.

(** A sequence of style assignments, oldest first, and its effect. *)
Definition writes : Type := list (element * string * string).

Definition apply_writes (ws : writes) (m : gmap (element * string) string)
    : gmap (element * string) string :=
  foldl (fun m '(el, property, v) => <[(el, property) := v]> m) m ws.

(** The value the last assignment of [ws] to [key] gives, if any. *)
Definition last_write (ws : writes) (key : element * string) : option string :=
  foldl (fun acc '(el, property, v) =>
           if decide ((el, property) = key) then Some v else acc) None ws.

(** A piece of script whose result and style assignments are the same from
    every starting point, and which does not hang. *)
Definition Uniform {A : Type} (m : M A) : Prop :=
  exists (r : result A) (ws : writes),
    r <> Hang /\
    forall w, exists w', m w = (r, w') /\ style w' = apply_writes ws (style w).

(** A piece of script that assigns no style. *)
Definition StylePreserving {A : Type} (m : M A) : Prop :=
  forall w, style (snd (m w)) = style w.

(** [setStyle] on the result of a [querySelector]: an assignment when the
    element exists. *)
Definition style_if (el : option element) (property v : string)
    (m : gmap (element * string) string) : gmap (element * string) string :=
  match el with
  | Some el => <[(el, property) := v]> m
  | None => m
  end.


(** ** Concrete pages *)

(** A page without any element. *)
Definition blank_page (address : string) : page :=
  Page address (fun _ => []) (fun _ _ => []) (fun _ => 0%nat) (fun _ => None)
       (fun _ => EmptyString) (fun _ => true) (fun _ => false) (fun _ => EmptyString)
       (fun _ => None).

(** A dashboard page whose only element, 1, is the version label. *)
Definition dashboard_page (label : string) : page :=
  Page "https://h/protect/dashboard/X"
       (fun selector =>
          if String.eqb selector CONFIG.SELECTORS.VERSION_TEXT then [1%nat] else [])
       (fun _ _ => []) (fun _ => 0%nat) (fun _ => Some label) (fun _ => label)
       (fun _ => true) (fun _ => false) (fun _ => EmptyString) (fun _ => None).

(** A Gen-2 live view: viewport wrapper 1 and an open modal container 2
    with one child, whose close control is the svg element 3. *)
Definition liveview_page_with_modal : page :=
  Page "https://h/protect/liveview/X"
       (fun selector =>
          if String.eqb selector CONFIG.SELECTORS.V2.VIEWPORT_WRAPPER then [1%nat]
          else if String.eqb selector CONFIG.SELECTORS.MODAL_PORTAL then [2%nat]
          else [])
       (fun el selector =>
          if Nat.eqb el 2 && String.eqb selector CONFIG.SELECTORS.MODAL_CLOSE_BUTTON
          then [3%nat] else [])
       (fun el => if Nat.eqb el 2 then 1%nat else 0%nat)
       (fun _ => None) (fun _ => EmptyString)
       (fun el => negb (Nat.eqb el 3)) (fun _ => false) (fun _ => EmptyString)
       (fun _ => None).

(** Unary plus on a string of decimal digits (the empty string gives 0);
    the concrete hosts store nothing else, other strings read as NaN. *)
Fixpoint digits_value (acc : Z) (s : string) : option Z :=
  match s with
  | EmptyString => Some acc
  | String c rest =>
      let n := Z.of_nat (Ascii.nat_of_ascii c) - 48 in
      if (0 <=? n) && (n <=? 9) then digits_value (10 * acc + n) rest else None
  end.

(** A host showing one unchanging page, with the given stored config. *)
Definition static_host (pg : page) (stored : option config) : host :=
  Host false (fun _ => pg) (fun _ => Returns stored) (fun _ => 0)
       (digits_value 0).

(** The login form: username field 1, password field 2, login button 3. *)
Definition login_page : page :=
  Page "https://h/login"
       (fun selector =>
          if String.eqb selector CONFIG.SELECTORS.USERNAME_INPUT then [1%nat]
          else if String.eqb selector CONFIG.SELECTORS.PASSWORD_INPUT then [2%nat]
          else if String.eqb selector CONFIG.SELECTORS.LOGIN_BUTTON then [3%nat]
          else [])
       (fun _ _ => []) (fun _ => 0%nat) (fun _ => None) (fun _ => EmptyString)
       (fun _ => true) (fun _ => true) (fun _ => EmptyString) (fun _ => None).

Definition stored_config : config :=
  Config (Some "https://h/protect/dashboard") (Some "u") (Some "p").

(** A host that shows the login form for one second and the dashboard from
    then on; loading the configuration takes 5 ms. *)
Definition login_host : host :=
  Host false
       (fun t => if t <? 1000 then login_page else dashboard_page "Protect 4.1.0")
       (fun _ => Returns (Some stored_config)) (fun _ => 5)
       (digits_value 0).

(** A dashboard whose client storage holds the session expiry [marker]. *)
Definition session_page (marker : string) : page :=
  Page "https://h/protect/dashboard/X" (fun _ => []) (fun _ _ => [])
       (fun _ => 0%nat) (fun _ => None) (fun _ => EmptyString) (fun _ => true)
       (fun _ => false) (fun _ => EmptyString)
       (fun key => if String.eqb key "portal:localSessionsExpiresAt"
                   then Some marker else None).

(** A configuration for the site https://h. *)
Definition site_config : config :=
  Config (Some "https://h") (Some "u") (Some "p").

(** The script's state when [run] starts at time [t]. *)
Definition initial_world (t : Z) : world := World t ∅ ∅ [] [] [].

(** ** Vocabulary for the whole life of one wait *)

(** The three stages a wait goes through: polling, settling after
    [complete], resolved with every timer gone. *)
Definition loop_shape (timeout interval t0 : Z) (l : loop) : Prop :=
  (exists j, Polling timeout interval t0 j l) \/
  (exists b t, Settling b t l) \/
  (exists b, state l = Resolved b /\ queue l = []).

(** ** Vocabulary for the further properties *)

(** The click [clickElement] sends to an element: the native one where the
    element has a [click] method, else a synthesized mouse event. *)
Definition click_of (pg : page) (el : element) : event :=
  if click_defined pg el then Click el else MouseEvent_click el.

(** The clicks [closeAllModals] sends on a page: one for each modal
    container that holds a close control, to the first such control, in
    document order. *)
Definition modal_clicks (pg : page) : list event :=
  flat_map
    (fun modalPortal =>
       match querySelectorAll_in pg modalPortal CONFIG.SELECTORS.MODAL_CLOSE_BUTTON with
       | button :: _ => [click_of pg button]
       | [] => []
       end)
    (querySelectorAll pg CONFIG.SELECTORS.MODAL_PORTAL).

(** A piece of script every run of which takes the world to one related to
    it by [R]. *)
Definition Respects {A : Type} (R : world -> world -> Prop) (m : M A) : Prop :=
  forall w, R w (snd (m w)).

Definition is_click (e : event) : bool :=
  match e with
  | Click _ | MouseEvent_click _ => true
  | _ => false
  end.

(** What a layout driver may do to the world besides styles, the clock and
    the console: send clicks. *)
Definition layout_effects (w w' : world) : Prop :=
  value w' = value w /\ navigated w' = navigated w /\
  exists clicks, dispatched w' = dispatched w ++ clicks /\
                 forallb is_click clicks = true.

(** What [handleLogin] leaves alone. *)
Definition login_effects (w w' : world) : Prop :=
  style w' = style w /\ navigated w' = navigated w.

(** No navigation. *)
Definition stays (w w' : world) : Prop := navigated w' = navigated w.

(** At most one navigation, a redirect or a reload. *)
Definition navigates_once (w w' : world) : Prop :=
  navigated w' = navigated w \/
  (exists target, navigated w' = navigated w ++ [Assign_href target]) \/
  navigated w' = navigated w ++ [Reload].

(** A piece of script that always returns, with a value satisfying [P], in
    a world related by [R] to the one it started in. *)
Definition Ends {A : Type} (R : world -> world -> Prop) (m : M A)
    (P : A -> Prop) : Prop :=
  forall w, exists a w', m w = (Ok a, w') /\ P a /\ R w w'.

(** ** Vocabulary for the login form *)

(** The values the elements hold once [el], if there is one, has been
    given [v]. *)
Definition filled (el : option element) (v : string)
    (held : gmap element string) : gmap element string :=
  match el with
  | Some el => <[el := v]> held
  | None => held
  end.

(** What reaches the page when [el], if there is one, is given a value
    while the elements hold [held]: the value it held before for its value
    tracker, where it has one, then one simulated input event. *)
Definition input_events (pg : page) (el : option element)
    (held : gmap element string) : list event :=
  match el with
  | Some el =>
      (if valueTracker pg el
       then [Tracker_setValue el (default (defaultValue pg el) (held !! el))]
       else [])
      ++ [Input_simulated el]
  | None => []
  end.

(** The click that reaches [el], if there is one. *)
Definition click_events (pg : page) (el : option element) : list event :=
  match el with
  | Some el => [click_of pg el]
  | None => []
  end.

(** * The main process (main.js) *)

(** The main process owns the persistent store the script's [configLoad]
    reads from, and decides what the window shows. *)
Module Main.

Module WINDOW_CONFIG.
Definition defaultWidth : Z := 1270.
Definition defaultHeight : Z := 750.
Definition minWidth : Z := 800.
Definition minHeight : Z := 600.
End WINDOW_CONFIG.

Module PORTABLE_CONFIG.
Definition enabled : bool := false.
End PORTABLE_CONFIG.

(** What [mainWindow.getBounds()] returns. *)
Record bounds : Type := Bounds { x : Z; y : Z; width : Z; height : Z }.

(** A value kept in the store: a configuration object, a bounds object, or
    any other JSON value, which has none of the properties the code reads
    and is truthy or not. *)
Inductive value : Type :=
  | VConfig (c : config)
  | VBounds (b : bounds)
  | VOther (is_truthy : bool).

(** [!!v] for a value read from the store ([None] is [undefined]). *)
Definition truthy_value (v : option value) : bool :=
  match v with
  | Some (VConfig _) | Some (VBounds _) => true
  | Some (VOther b) => b
  | None => false
  end.

(** [v.url], [v.username], [v.password] on a truthy value. *)
Definition string_property (f : config -> option string) (v : option value)
    : option string :=
  match v with Some (VConfig c) => f c | _ => None end.

(** [(v || {}).width] and the like. *)
Definition number_property (f : bounds -> Z) (v : option value) : option Z :=
  match v with Some (VBounds b) => Some (f b) | _ => None end.

(** [n || d] for a possibly missing number. *)
Definition or_default (n : option Z) (d : Z) : Z :=
  match n with
  | Some z => if z =? 0 then d else z
  | None => d
  end.

Inductive script : Type :=
  | FallbackConfigForm
  | SetErrorText (errorMessage : string)
  | FallbackErrorPage (errorMessage : string).

(** What is done to the application window, in order. *)
Inductive action : Type :=
  | NewBrowserWindow (width height : Z) (x y : option Z)
  | SetTitle (title : string)
  | OpenDevTools
  | LoadFile (path : string)
  | LoadURL (url : string)
  | ExecuteJavaScript (code : script).

Inductive app_call : Type := Relaunch | Quit.

(** The process: the module variable [store] ([None] is [null], its value
    until [initializeStore] succeeds), the console, the calls on [app], the
    titles of the error boxes shown and the window's history. *)
Record state : Type := State {
  store : option (gmap string value);
  console : list entry;
  app : list app_call;
  errorBoxes : list string;
  window : list action
}.

Definition set_store (s : option (gmap string value)) (st : state) : state :=
  State s (console st) (app st) (errorBoxes st) (window st).
Definition console_log (message : list part) (st : state) : state :=
  State (store st) (console st ++ [Entry LOG message]) (app st)
    (errorBoxes st) (window st).
Definition console_error (message : list part) (st : state) : state :=
  State (store st) (console st ++ [Entry ERROR message]) (app st)
    (errorBoxes st) (window st).
Definition app_do (c : app_call) (st : state) : state :=
  State (store st) (console st) (app st ++ [c]) (errorBoxes st) (window st).
Definition showErrorBox (title : string) (st : state) : state :=
  State (store st) (console st) (app st) (errorBoxes st ++ [title]) (window st).
Definition window_do (a : action) (st : state) : state :=
  State (store st) (console st) (app st) (errorBoxes st) (window st ++ [a]).

(** Everything outside the process: the environment variable, what
    [new Store(..)] gives (the persisted contents, or an exception) and
    whether loading a file or a URL fails ([Some e]: the promise rejects
    with [e]). *)
Record env : Type := Env {
  development : bool;
  new_Store : outcome (gmap string value);
  loadFile_error : string -> option string;
  loadURL_error : string -> option string
}.

(** The process before [app.whenReady()]. *)
Definition start : state := State None [] [] [] [].

(** ** The store's methods, called on the module variable *)

Definition null_store (method : string) : string :=
  "TypeError: Cannot read properties of null (reading '" ++ method ++ "')".

Definition store_has (s : option (gmap string value)) (key : string)
    : outcome bool :=
  match s with
  | Some m => Returns (bool_decide (is_Some (m !! key)))
  | None => Throws (null_store "has")
  end.

Definition store_get (s : option (gmap string value)) (key : string)
    : outcome (option value) :=
  match s with
  | Some m => Returns (m !! key)
  | None => Throws (null_store "get")
  end.

Definition store_set (s : option (gmap string value)) (key : string)
    (v : value) : outcome (gmap string value) :=
  match s with
  | Some m => Returns (<[key := v]> m)
  | None => Throws (null_store "set")
  end.

Definition store_clear (s : option (gmap string value))
    : outcome (gmap string value) :=
  match s with
  | Some _ => Returns ∅
  | None => Throws (null_store "clear")
  end.

(** ** initializeStore and the IPC handlers *)

Definition initializeStore (e : env) (st : state) : state :=
  match new_Store e with
  | Returns m =>
      console_log [Lit "Store initialized successfully"] (set_store (Some m) st)
  | Throws error =>
      showErrorBox "Configuration Error"
        (console_error [Lit "Failed to initialize store:"; Val error] st)
  end.

Definition handleReset (st : state) : state :=
  match store_clear (store st) with
  | Returns m =>
      console_log [Lit "Store cleared successfully"] (set_store (Some m) st)
  | Throws error => console_error [Lit "Failed to clear store:"; Val error] st
  end.

Definition handleRestart (st : state) : state :=
  app_do Quit (app_do Relaunch st).

(** The reply is [None] both for [undefined] (no such key) and for the
    [null] returned after an exception. *)
Definition handleConfigLoad (st : state) : option value * state :=
  match store_get (store st) "config" with
  | Returns v => (v, st)
  | Throws error =>
      (None, console_error [Lit "Failed to load config:"; Val error] st)
  end.

Definition handleConfigSave (config : config) (st : state) : state :=
  match store_set (store st) "config" (VConfig config) with
  | Returns m =>
      console_log [Lit "Config saved successfully"] (set_store (Some m) st)
  | Throws error => console_error [Lit "Failed to save config:"; Val error] st
  end.

(** The handler of [showResetConfirmation]; [response] is the index of the
    button chosen in the message box (buttons [Cancel], [Reset]). *)
Definition showResetConfirmation (response : Z) : bool := response =? 1.

(** ** Screens *)

Definition config_html : string := "src/html/config.html".
Definition error_html : string := "src/html/error.html".

Definition showConfigScreen (e : env) (st : state) : state :=
  let st := console_log [Lit "Loading configuration screen"] st in
  let st := window_do (LoadFile config_html) st in
  match loadFile_error e config_html with
  | None => st
  | Some error =>
      window_do (ExecuteJavaScript FallbackConfigForm)
        (console_error
           [Lit "Failed to load configuration screen:"; Val error] st)
  end.

Definition showErrorScreen (e : env) (errorMessage : string) (st : state)
    : state :=
  let st := console_log [Lit "Loading error screen"] st in
  let st := window_do (LoadFile error_html) st in
  match loadFile_error e error_html with
  | None =>
      if truthy_string errorMessage
      then window_do (ExecuteJavaScript (SetErrorText errorMessage)) st
      else st
  | Some error =>
      window_do (ExecuteJavaScript (FallbackErrorPage errorMessage))
        (console_error [Lit "Failed to load error screen:"; Val error] st)
  end.

(** [!config || !config.url || !config.username || !config.password]. *)
Definition config_invalid (config : option value) : bool :=
  negb (truthy_value config)
  || negb (truthy (string_property url config))
  || negb (truthy (string_property username config))
  || negb (truthy (string_property password config)).

(** The [catch] of [handleWindow]'s outer [try]. *)
Definition handleWindow_catch (e : env) (error : string) (st : state) : state :=
  showErrorScreen e
    "An unexpected error occurred. Please restart the application."
    (console_error [Lit "Error in handleWindow:"; Val error] st).

Definition handleWindow (e : env) (st : state) : state :=
  let st := if development e then window_do OpenDevTools st else st in
  match store_has (store st) "config" with
  | Throws error => handleWindow_catch e error st
  | Returns false =>
      showConfigScreen e
        (console_log [Lit "No configuration found, showing config screen"] st)
  | Returns true =>
      match store_get (store st) "config" with
      | Throws error => handleWindow_catch e error st
      | Returns config =>
          if config_invalid config then
            showConfigScreen e
              (console_log
                 [Lit "Invalid configuration found, showing config screen"] st)
          else
            let url := js_string (string_property url config) in
            let st := console_log [Lit "Loading configured URL:"; Val url] st in
            let st := window_do (LoadURL url) st in
            match loadURL_error e url with
            | None => st
            | Some urlError =>
                showErrorScreen e
                  "Failed to connect to UniFi Protect. Please check your network connection and configuration."
                  (console_error [Lit "Failed to load URL:"; Val urlError] st)
            end
      end
  end.

(** [createWindow] rejects when reading the stored bounds throws; nothing
    has been done to the process by then. *)
Definition createWindow (e : env) (st : state) : outcome state :=
  match store_get (store st) "bounds" with
  | Throws error => Throws error
  | Returns storedBounds =>
      let st :=
        window_do
          (NewBrowserWindow
             (or_default (number_property width storedBounds)
                WINDOW_CONFIG.defaultWidth)
             (or_default (number_property height storedBounds)
                WINDOW_CONFIG.defaultHeight)
             (number_property x storedBounds)
             (number_property y storedBounds)) st in
      let st := window_do (SetTitle "UniFi Protect Viewer") st in
      Returns (handleWindow e st)
  end.

(** The [close] listener of the window; [bounds] and [minimized] are what
    [getBounds()] and [isMinimized()] return at that moment. *)
Definition on_close (bounds : bounds) (minimized : bool) (st : state) : state :=
  match store_has (store st) "init" with
  | Throws error =>
      console_error [Lit "Failed to save window bounds:"; Val error] st
  | Returns has_init =>
      if has_init && negb PORTABLE_CONFIG.enabled then
        if negb minimized then
          match store_set (store st) "bounds" (VBounds bounds) with
          | Returns m => set_store (Some m) st
          | Throws error =>
              console_error [Lit "Failed to save window bounds:"; Val error] st
          end
        else st
      else st
  end.

(** [app.whenReady().then(..)]: the store, the handlers, the window. *)
Definition whenReady (e : env) (st : state) : state :=
  let st := initializeStore e st in
  match createWindow e st with
  | Returns st' => st'
  | Throws error =>
      showErrorBox "Application Error"
        (console_error [Lit "Failed to initialize application:"; Val error] st)
  end.

(** What reaches the registered handlers afterwards. *)
Inductive event : Type :=
  | Reset
  | Restart
  | ConfigSave (config : config)
  | ConfigLoad
  | ShowResetConfirmation (response : Z)
  | Close (bounds : bounds) (minimized : bool).

Definition handle (ev : event) (st : state) : state :=
  match ev with
  | Reset => handleReset st
  | Restart => handleRestart st
  | ConfigSave config => handleConfigSave config st
  | ConfigLoad => snd (handleConfigLoad st)
  | ShowResetConfirmation _ => st
  | Close bounds minimized => on_close bounds minimized st
  end.

Definition handle_all (evs : list event) (st : state) : state :=
  fold_left (fun st ev => handle ev st) evs st.

(** The files and URLs the window was told to load. *)
Definition is_load (a : action) : bool :=
  match a with LoadFile _ | LoadURL _ => true | _ => false end.

Definition loads (st : state) : list action := List.filter is_load (window st).

(** Events that neither clear the store nor save a configuration. *)
Definition keeps_config (ev : event) : bool :=
  match ev with Reset | ConfigSave _ => false | _ => true end.

End Main.

(** ** The keyboard shortcuts of the script *)

(** The [keydown] listener.  [response] is the button chosen in the
    confirmation box, should the listener ask for it.  Returns the console
    and what it sends to the main process, in order. *)
Definition keydown (key : string) (response : Z) (console : list entry)
    : list entry * list Main.event :=
  let '(console, sent) :=
    if String.eqb key "F9"
    then (Logger.log [Lit "F9 pressed: Restarting application"] console,
          [Main.Restart])
    else (console, []) in
  if String.eqb key "F10" then
    let console :=
      Logger.log [Lit "F10 pressed: Showing reset confirmation"] console in
    let confirmed := Main.showResetConfirmation response in
    let sent := sent ++ [Main.ShowResetConfirmation response] in
    if confirmed then
      (Logger.log [Lit "Reset confirmed, clearing config and restarting"] console,
       sent ++ [Main.Reset; Main.Restart])
    else (Logger.log [Lit "Reset cancelled by user"] console, sent)
  else (console, sent).

(** Concrete processes. *)
Definition plain_env (disk : outcome (gmap string Main.value)) : Main.env :=
  Main.Env false disk (fun _ => None) (fun _ => None).

Definition configured_store : gmap string Main.value :=
  <["config" := Main.VConfig site_config]> ∅.

Definition ready (m : gmap string Main.value) : Main.state :=
  Main.State (Some m) [] [] [] [].

(* ================================================================== *)
(** * Theorems *)

(** ** The timer queue of one wait *)

Section WaitUntilFacts.
Variable development : bool.
Variable condition : Z -> outcome bool.
Variables timeout interval : Z.
Hypothesis interval_pos : 0 < interval.
Variable t0 : Z.

Local Abbreviation polling := (Polling timeout interval t0).
Local Abbreviation settling := Settling.
Local Abbreviation tk := (tick interval t0).
Local Abbreviation fires := (fires_at condition interval t0).
Local Abbreviation stp := (step development condition timeout).
Local Abbreviation drn := (drain development condition timeout).
Local Abbreviation exe := (executor timeout interval t0).
Local Abbreviation in_time := (in_time timeout interval t0).
Local Abbreviation heading_for := (fun b => heading_for timeout interval b t0).

Lemma tick_succ j : tk (S j) = tk j + interval.
Proof. unfold tick. lia. Qed.

Lemma tick_mono i j : (i <= j)%nat -> tk i <= tk j.
Proof. unfold tick. nia. Qed.

Lemma executor_polling : polling 0%nat exe.
Proof.
  unfold Polling, executor, tick.
  destruct (timeout =? -1) eqn:E; cbn -[Z.mul Z.add Z.max Z.of_nat];
    rewrite (Z.max_r 0 interval) by lia;
    repeat split; try (repeat f_equal; lia); lia.
Qed.

(** A loop between polls has the shape the invariant fixes. *)
Lemma polling_shape j l :
  polling j l ->
  exists nid con unc,
    l = Loop (tk j)
          (if timeout =? -1
           then [Timer 1 (tk (S j)) (Some interval) OnInterval]
           else [Timer 1 (t0 + Z.max 0 timeout) None OnTimeout;
                 Timer 2 (tk (S j)) (Some interval) OnInterval])
          nid
          (if timeout =? -1 then None else Some 1%nat)
          (if timeout =? -1 then Some 1%nat else Some 2%nat)
          Pending con unc.
Proof.
  unfold Polling. destruct l as [c q n ti ii st con unc]; simpl.
  intros (-> & -> & H). exists n, con, unc.
  destruct (timeout =? -1); [destruct H as (-> & -> & ->)
                            | destruct H as (-> & -> & -> & _)]; reflexivity.
Qed.

(** A poll that is not truthy (falsy or throwing) before the timeout
    leaves the loop polling. *)
Lemma polling_miss j l :
  polling j l ->
  timeout = -1 \/ tk (S j) < t0 + Z.max 0 timeout ->
  ~ fires (S j) ->
  exists l', stp l = Some l' /\ polling (S j) l'.
Proof.
  intros P Hb Hc. pose proof P as (_ & _ & Hle).
  destruct (polling_shape _ _ P) as (nid & con & unc & ->).
  unfold fires_at in Hc. unfold Polling, step, fire in *.
  pose proof (tick_succ j). pose proof (tick_succ (S j)).
  destruct (timeout =? -1) eqn:E; cbn -[Z.mul Z.add Z.max Z.of_nat tick] in *.
  - rewrite (Z.max_r (tk j)) by lia.
    destruct (condition (tk (S j))) as [[|]|e]; [congruence| |];
      eexists; (split; [reflexivity|]);
      cbn -[Z.mul Z.add Z.max Z.of_nat tick]; repeat split;
      repeat f_equal; lia.
  - apply Z.eqb_neq in E. destruct Hb as [|Hb]; [congruence|].
    destruct (Z.ltb_spec (tk (S j)) (t0 + Z.max 0 timeout)); [|lia].
    cbn -[Z.mul Z.add Z.max Z.of_nat tick].
    rewrite (Z.max_r (tk j)) by lia.
    destruct (condition (tk (S j))) as [[|]|e]; [congruence| |];
      eexists; (split; [reflexivity|]);
      cbn -[Z.mul Z.add Z.max Z.of_nat tick]; repeat split;
      try (repeat f_equal; lia); lia.
Qed.

(** A truthy poll before the timeout calls [complete(true)]. *)
Lemma polling_hit j l :
  polling j l ->
  timeout = -1 \/ tk (S j) < t0 + Z.max 0 timeout ->
  fires (S j) ->
  exists l', stp l = Some l' /\ settling true (tk (S j)) l' /\
             uncaught l' = uncaught l.
Proof.
  intros P Hb Hc. pose proof P as (_ & _ & Hle).
  destruct (polling_shape _ _ P) as (nid & con & unc & ->).
  unfold fires_at in Hc. unfold Settling, step, fire in *.
  pose proof (tick_succ j).
  destruct (timeout =? -1) eqn:E; cbn -[Z.mul Z.add Z.max Z.of_nat tick] in *.
  - rewrite (Z.max_r (tk j)) by lia. rewrite Hc.
    eexists; split; [reflexivity|].
    cbn -[Z.mul Z.add Z.max Z.of_nat tick]. repeat split. eexists. reflexivity.
  - apply Z.eqb_neq in E. destruct Hb as [|Hb]; [congruence|].
    destruct (Z.ltb_spec (tk (S j)) (t0 + Z.max 0 timeout)); [|lia].
    cbn -[Z.mul Z.add Z.max Z.of_nat tick].
    rewrite (Z.max_r (tk j)) by lia. rewrite Hc.
    eexists; split; [reflexivity|].
    cbn -[Z.mul Z.add Z.max Z.of_nat tick]. repeat split. eexists. reflexivity.
Qed.

(** When the timeout is due no later than the next poll, the timeout
    callback runs first and calls [complete(false)]. *)
Lemma polling_timeout j l :
  polling j l ->
  timeout <> -1 ->
  t0 + Z.max 0 timeout <= tk (S j) ->
  exists l', stp l = Some l' /\ settling false (t0 + Z.max 0 timeout) l' /\
             uncaught l' = uncaught l.
Proof.
  intros P Hn Hb. pose proof P as (_ & _ & Hle).
  destruct (polling_shape _ _ P) as (nid & con & unc & ->).
  unfold Settling, step, fire in *.
  apply Z.eqb_neq in Hn. rewrite Hn in *.
  cbn -[Z.mul Z.add Z.max Z.of_nat tick] in *.
  destruct Hle as (_ & _ & _ & Hle).
  destruct (Z.ltb_spec (tk (S j)) (t0 + Z.max 0 timeout)); [lia|].
  cbn -[Z.mul Z.add Z.max Z.of_nat tick].
  rewrite (Z.max_r (tk j)) by lia.
  eexists; split; [reflexivity|].
  cbn -[Z.mul Z.add Z.max Z.of_nat tick]. repeat split. eexists. reflexivity.
Qed.

(** The settle timer resolves the promise [MIN_DELAY] later. *)
Lemma settling_step b t l :
  settling b t l ->
  exists l', stp l = Some l' /\ state l' = Resolved b /\
             clock l' = t + CONFIG.TIMEOUTS.MIN_DELAY /\
             uncaught l' = uncaught l.
Proof.
  unfold Settling, step, fire.
  destruct l as [c q n ti ii st con unc]; simpl.
  intros (-> & -> & id & ->). simpl.
  eexists; split; [reflexivity|]. simpl. repeat split.
  unfold CONFIG.TIMEOUTS.MIN_DELAY. lia.
Qed.

Lemma clear_if_set_uncaught id l : uncaught (clear_if_set id l) = uncaught l.
Proof. destruct id as [[|n]|]; reflexivity. Qed.

Lemma complete_uncaught b l : uncaught (complete b l) = uncaught l.
Proof.
  unfold complete, setTimeout. simpl. now rewrite !clear_if_set_uncaught.
Qed.

(** No callback of [waitUntil] lets an error through. *)
Lemma call_returns cb l :
  exists l', call development condition timeout cb l = Returns l' /\
             uncaught l' = uncaught l.
Proof.
  destruct cb as [| |r]; simpl.
  - eexists; split; [reflexivity|now rewrite complete_uncaught].
  - destruct (condition (clock l)) as [[|]|e]; simpl;
      eexists; (split; [reflexivity|]);
      [now rewrite complete_uncaught|reflexivity|reflexivity].
  - destruct (state l); eexists; split; reflexivity.
Qed.

Lemma step_uncaught l l' : stp l = Some l' -> uncaught l' = uncaught l.
Proof.
  unfold step, fire. destruct (earliest (queue l)) as [t|]; [|discriminate].
  intros [= <-].
  match goal with |- context [call _ _ _ ?cb ?x] =>
    destruct (call_returns cb x) as (l1 & -> & H1) end.
  exact H1.
Qed.

Lemma drain_uncaught fuel l : uncaught (drn fuel l) = uncaught l.
Proof.
  revert l. induction fuel as [|n IH]; intros l; simpl; [reflexivity|].
  destruct (state l); [|reflexivity].
  destruct (stp l) as [l'|] eqn:E; [|reflexivity].
  rewrite IH. eauto using step_uncaught.
Qed.

Lemma drain_resolved fuel l b : state l = Resolved b -> drn fuel l = l.
Proof. intros H. destruct fuel; simpl; [|rewrite H]; reflexivity. Qed.

(** [n] polls in a row that are not truthy take [n] turns. *)
Lemma drain_misses n : forall j l,
  polling j l ->
  (forall i, (j < i <= j + n)%nat -> ~ fires i /\ in_time i) ->
  exists l', polling (j + n)%nat l' /\
             forall fuel, drn (n + fuel) l = drn fuel l'.
Proof.
  induction n as [|n IH]; intros j l P H.
  - exists l. rewrite Nat.add_0_r. split; [exact P|reflexivity].
  - destruct (H (S j)) as [Hc Hb]; [lia|].
    destruct (polling_miss j l P Hb Hc) as (l1 & E1 & P1).
    destruct (IH (S j) l1 P1) as (l2 & P2 & E2).
    { intros i Hi. apply H. lia. }
    exists l2. split.
    + replace (j + S n)%nat with (S j + n)%nat by lia. exact P2.
    + intros fuel. simpl. destruct P as (-> & _). rewrite E1. apply E2.
Qed.

(** After [complete(b)] two more facts hold: one turn settles the promise. *)
Lemma drain_settling b t l fuel :
  settling b t l ->
  state (drn (S fuel) l) = Resolved b /\
  clock (drn (S fuel) l) = t + CONFIG.TIMEOUTS.MIN_DELAY.
Proof.
  intros S0. pose proof S0 as (Hs & _).
  destruct (settling_step b t l S0) as (l1 & E1 & R1 & C1 & _).
  simpl. rewrite Hs, E1, (drain_resolved fuel l1 b R1). split; assumption.
Qed.

(** A first truthy poll at tick [k], in time, resolves [true]
    [MIN_DELAY] after that tick. *)
Lemma drain_fires k fuel :
  first_fires_at condition interval t0 k -> in_time k ->
  (k + 1 <= fuel)%nat ->
  state (drn fuel exe) = Resolved true /\
  clock (drn fuel exe) = tk k + CONFIG.TIMEOUTS.MIN_DELAY.
Proof.
  intros (Hk & Hf & Hfirst) Hin Hfuel.
  destruct (drain_misses (k - 1) 0%nat exe executor_polling) as (l1 & P1 & E1).
  { intros i Hi. split; [apply Hfirst; lia|].
    destruct Hin as [|Hin]; [left; assumption|right].
    pose proof (tick_mono i k). lia. }
  simpl in P1.
  replace fuel with ((k - 1) + (S (S (fuel - k - 1))))%nat by lia.
  rewrite E1.
  destruct (polling_hit (k - 1) l1 P1) as (l2 & E2 & S2 & _).
  { replace (S (k - 1)) with k by lia. exact Hin. }
  { replace (S (k - 1)) with k by lia. exact Hf. }
  replace (S (k - 1)) with k in S2 by lia.
  destruct P1 as (Hs1 & _).
  change (drn (S (S (fuel - k - 1))) l1)
    with (match state l1 with
          | Resolved _ => l1
          | Pending => match stp l1 with
                       | Some l' => drn (S (fuel - k - 1)) l'
                       | None => l1
                       end
          end).
  rewrite Hs1, E2. apply drain_settling. exact S2.
Qed.

Lemma polls_before_timeout_spec :
  let m := polls_before_timeout timeout interval in
  (forall i, (1 <= i <= m)%nat -> tk i < t0 + Z.max 0 timeout) /\
  t0 + Z.max 0 timeout <= tk (S m).
Proof.
  unfold polls_before_timeout, tick. cbv zeta.
  set (T := Z.max 0 timeout). assert (0 <= T) by lia.
  destruct (Z.eq_dec T 0) as [E0|N0].
  - rewrite E0. replace ((0 - 1) / interval) with (-1).
    + simpl. split; [intros; lia|lia].
    + apply Z.div_unique with (r := interval - 1); lia.
  - assert (Hq : 0 <= (T - 1) / interval) by (apply Z.div_pos; lia).
    pose proof (Z.mul_div_le (T - 1) interval interval_pos).
    pose proof (Z.mul_succ_div_gt (T - 1) interval interval_pos).
    split.
    + intros i Hi. assert (Z.of_nat i <= (T - 1) / interval) by lia. nia.
    + rewrite Nat2Z.inj_succ, Z2Nat.id by lia. nia.
Qed.

(** With a timeout and no truthy poll before it fires, the promise
    resolves [false] [MIN_DELAY] after the timeout. *)
Lemma drain_times_out fuel :
  timeout <> -1 ->
  (forall j, (1 <= j)%nat -> tk j < t0 + Z.max 0 timeout -> ~ fires j) ->
  (polls_before_timeout timeout interval + 2 <= fuel)%nat ->
  state (drn fuel exe) = Resolved false /\
  clock (drn fuel exe) = t0 + Z.max 0 timeout + CONFIG.TIMEOUTS.MIN_DELAY.
Proof.
  intros Hn Hmiss Hfuel.
  destruct polls_before_timeout_spec as (Hlt & Hge).
  set (m := polls_before_timeout timeout interval) in *.
  destruct (drain_misses m 0%nat exe executor_polling) as (l1 & P1 & E1).
  { intros i Hi. split; [apply Hmiss; [lia|apply Hlt; lia]|].
    right. apply Hlt. lia. }
  simpl in P1.
  replace fuel with (m + (S (S (fuel - m - 2))))%nat by lia.
  rewrite E1.
  destruct (polling_timeout m l1 P1 Hn Hge) as (l2 & E2 & S2 & _).
  destruct P1 as (Hs1 & _).
  change (drn (S (S (fuel - m - 2))) l1)
    with (match state l1 with
          | Resolved _ => l1
          | Pending => match stp l1 with
                       | Some l' => drn (S (fuel - m - 2)) l'
                       | None => l1
                       end
          end).
  rewrite Hs1, E2. apply drain_settling. exact S2.
Qed.

(** Without a timeout and without a truthy poll the loop polls for
    ever. *)
Lemma drain_forever fuel : forall j l,
  timeout = -1 ->
  polling j l ->
  (forall i, (j < i)%nat -> ~ fires i) ->
  exists j', polling j' (drn fuel l).
Proof.
  induction fuel as [|n IH]; intros j l Hn P Hmiss.
  - exists j. exact P.
  - destruct (polling_miss j l P (or_introl Hn)) as (l1 & E1 & P1).
    { apply Hmiss. lia. }
    simpl. destruct P as (-> & _). rewrite E1.
    apply (IH (S j) l1 Hn P1). intros i Hi. apply Hmiss. lia.
Qed.

(** Whether a poll is truthy is decided by running it. *)
Lemma fires_dec j : {fires j} + {~ fires j}.
Proof.
  unfold fires_at. destruct (condition (tk j)) as [[|]|e];
    [left; reflexivity|right; discriminate|right; discriminate].
Qed.

(** Without a timeout [complete(false)] is never called. *)
Lemma drain_never_false fuel : forall l,
  timeout = -1 -> heading_for true l -> heading_for true (drn fuel l).
Proof.
  induction fuel as [|n IH]; intros l Hn H; [exact H|].
  destruct H as [(j & P)|[(t & S0)|R]].
  - destruct (fires_dec (S j)) as [Hf|Hf].
    + destruct (polling_hit j l P (or_introl Hn) Hf) as (l1 & E1 & S1 & _).
      simpl. destruct P as (-> & _). rewrite E1.
      apply IH; [exact Hn|]. right; left. eauto.
    + destruct (polling_miss j l P (or_introl Hn) Hf) as (l1 & E1 & P1).
      simpl. destruct P as (-> & _). rewrite E1.
      apply IH; [exact Hn|]. left. eauto.
  - destruct (drain_settling true t l n S0) as (R & _).
    right; right. exact R.
  - rewrite (drain_resolved _ _ _ R). right; right. exact R.
Qed.

(** Without a truthy poll [complete(true)] is never called. *)
Lemma drain_never_true fuel : forall l,
  (forall j, ~ fires j) -> heading_for false l -> heading_for false (drn fuel l).
Proof.
  induction fuel as [|n IH]; intros l Hmiss H; [exact H|].
  destruct H as [(j & P)|[(t & S0)|R]].
  - destruct (Z.eq_dec timeout (-1)) as [Hn|Hn];
      [|destruct (Z_lt_le_dec (tk (S j)) (t0 + Z.max 0 timeout)) as [Hlt|Hge]].
    + destruct (polling_miss j l P (or_introl Hn) (Hmiss _)) as (l1 & E1 & P1).
      simpl. destruct P as (-> & _). rewrite E1.
      apply IH; [exact Hmiss|]. left. eauto.
    + destruct (polling_miss j l P (or_intror Hlt) (Hmiss _)) as (l1 & E1 & P1).
      simpl. destruct P as (-> & _). rewrite E1.
      apply IH; [exact Hmiss|]. left. eauto.
    + destruct (polling_timeout j l P Hn Hge) as (l1 & E1 & S1 & _).
      simpl. destruct P as (-> & _). rewrite E1.
      apply IH; [exact Hmiss|]. right; left. eauto.
  - destruct (drain_settling false t l n S0) as (R & _).
    right; right. exact R.
  - rewrite (drain_resolved _ _ _ R). right; right. exact R.
Qed.

Lemma heading_for_state b l :
  heading_for b l -> state l = Pending \/ state l = Resolved b.
Proof.
  intros [(j & P & _)|[(t & P & _)|R]]; [left|left|right]; assumption.
Qed.

(** Each tick up to [m] misses, or one of them is the first to fire. *)
Lemma first_fires_bounded m :
  (forall j, (1 <= j <= m)%nat -> ~ fires j) \/
  exists k, (k <= m)%nat /\ first_fires_at condition interval t0 k.
Proof.
  induction m as [|m [IH|(k & Hk & Hf)]].
  - left. intros j Hj. lia.
  - destruct (fires_dec (S m)) as [Hf|Hf].
    + right. exists (S m). split; [lia|]. split; [lia|]. split; [exact Hf|].
      intros j Hj. apply IH. lia.
    + left. intros j Hj. destruct (Nat.eq_dec j (S m)) as [->|]; [exact Hf|].
      apply IH. lia.
  - right. exists k. split; [lia|exact Hf].
Qed.
Local Abbreviation stl := (settle development condition timeout interval).

Lemma settle_of_drain fuel b t :
  state (drn fuel exe) = Resolved b -> clock (drn fuel exe) = t ->
  exists logged, stl fuel t0 = Some (b, t, logged).
Proof. unfold settle. intros -> ->. eauto. Qed.

Lemma settle_fires k fuel :
  first_fires_at condition interval t0 k -> in_time k -> (k + 1 <= fuel)%nat ->
  exists logged,
    stl fuel t0 = Some (true, tk k + CONFIG.TIMEOUTS.MIN_DELAY, logged).
Proof.
  intros Hf Hin Hfuel.
  destruct (drain_fires k fuel Hf Hin Hfuel) as (R & C).
  eauto using settle_of_drain.
Qed.

Lemma settle_times_out fuel :
  timeout <> -1 ->
  (forall j, (1 <= j)%nat -> tk j < t0 + Z.max 0 timeout -> ~ fires j) ->
  (polls_before_timeout timeout interval + 2 <= fuel)%nat ->
  exists logged,
    stl fuel t0 =
    Some (false, t0 + Z.max 0 timeout + CONFIG.TIMEOUTS.MIN_DELAY, logged).
Proof.
  intros Hn Hmiss Hfuel.
  destruct (drain_times_out fuel Hn Hmiss Hfuel) as (R & C).
  eauto using settle_of_drain.
Qed.

Lemma settle_forever fuel :
  timeout = -1 -> (forall j, (1 <= j)%nat -> ~ fires j) ->
  stl fuel t0 = None /\ exists j, polling j (drn fuel exe).
Proof.
  intros Hn Hmiss.
  destruct (drain_forever fuel 0%nat exe Hn executor_polling) as (j & P).
  { intros i Hi. apply Hmiss. lia. }
  split; [|eauto]. unfold settle. destruct P as (-> & _). reflexivity.
Qed.

Lemma settle_never_false fuel t logged :
  timeout = -1 -> stl fuel t0 <> Some (false, t, logged).
Proof.
  intros Hn. unfold settle.
  destruct (heading_for_state true _
              (drain_never_false fuel exe Hn
                 (or_introl (ex_intro _ 0%nat executor_polling)))) as [-> | ->];
    discriminate.
Qed.

Lemma settle_never_true fuel t logged :
  (forall j, ~ fires j) -> stl fuel t0 <> Some (true, t, logged).
Proof.
  intros Hmiss. unfold settle.
  destruct (heading_for_state false _
              (drain_never_true fuel exe Hmiss
                 (or_introl (ex_intro _ 0%nat executor_polling)))) as [-> | ->];
    discriminate.
Qed.

(** With a timeout the wait always settles, no later than [MIN_DELAY]
    after the timeout. *)
Lemma settle_total fuel :
  timeout <> -1 ->
  (polls_before_timeout timeout interval + 2 <= fuel)%nat ->
  exists b t logged,
    stl fuel t0 = Some (b, t, logged) /\
    t <= t0 + Z.max 0 timeout + CONFIG.TIMEOUTS.MIN_DELAY.
Proof.
  intros Hn Hfuel. destruct polls_before_timeout_spec as (Hlt & Hge).
  set (m := polls_before_timeout timeout interval) in *.
  destruct (first_fires_bounded m) as [Hmiss|(k & Hk & Hf)].
  - destruct (settle_times_out fuel Hn) as (logged & E); [|exact Hfuel|].
    + intros j Hj Hlt'. apply Hmiss. split; [exact Hj|].
      destruct (Nat.le_gt_cases j m) as [|Hgt]; [assumption|].
      pose proof (tick_mono (S m) j Hgt). lia.
    + exists false. eexists. exists logged. split; [exact E|lia].
  - pose proof Hf as (Hk1 & _).
    destruct (settle_fires k fuel Hf) as (logged & E);
      [right; apply Hlt; lia|lia|].
    exists true. eexists. exists logged. split; [exact E|].
    pose proof (Hlt k ltac:(lia)). lia.
Qed.

(** Without a timeout, a [true] resolution comes from the first truthy
    poll. *)
Lemma settle_true_inv fuel t logged :
  timeout = -1 -> stl fuel t0 = Some (true, t, logged) ->
  exists k, first_fires_at condition interval t0 k /\
            t = tk k + CONFIG.TIMEOUTS.MIN_DELAY.
Proof.
  intros Hn E.
  destruct (first_fires_bounded fuel) as [Hmiss|(k & Hk & Hf)].
  - exfalso.
    destruct (drain_misses fuel 0%nat exe executor_polling) as (l1 & P1 & E1).
    { intros i Hi. split; [apply Hmiss; lia|left; exact Hn]. }
    specialize (E1 0%nat). rewrite Nat.add_0_r in E1. simpl in E1.
    unfold settle in E. rewrite E1 in E. destruct P1 as (R & _).
    rewrite R in E. discriminate.
  - exists k. split; [exact Hf|].
    destruct (Nat.eq_dec fuel k) as [->|Hne].
    + exfalso. pose proof Hf as (Hk1 & Hfk & Hfirst).
      destruct (drain_misses (k - 1) 0%nat exe executor_polling)
        as (l1 & P1 & E1).
      { intros i Hi. split; [apply Hfirst; lia|left; exact Hn]. }
      simpl in P1.
      destruct (polling_hit (k - 1) l1 P1 (or_introl Hn)) as (l2 & E2 & S2 & _).
      { replace (S (k - 1)) with k by lia. exact Hfk. }
      specialize (E1 1%nat). replace (k - 1 + 1)%nat with k in E1 by lia.
      unfold settle in E. rewrite E1 in E. simpl in E.
      destruct P1 as (R1 & _). rewrite R1, E2 in E.
      destruct S2 as (R2 & _). rewrite R2 in E. discriminate.
    + destruct (settle_fires k fuel Hf (or_introl Hn)) as (logged' & E');
        [lia|]. congruence.
Qed.

(** A condition that holds from the start is seen at the first poll. *)
Lemma settle_const_true fuel :
  (forall t, condition t = Returns true) -> in_time 1%nat -> (2 <= fuel)%nat ->
  exists logged,
    stl fuel t0 = Some (true, t0 + interval + CONFIG.TIMEOUTS.MIN_DELAY, logged).
Proof.
  intros Hc Hin Hfuel.
  destruct (settle_fires 1 fuel) as (logged & E); [|exact Hin|lia|].
  - split; [lia|]. split; [apply Hc|]. intros j Hj. lia.
  - exists logged. rewrite E. unfold tick. repeat f_equal. lia.
Qed.

(** A condition that never holds runs into the timeout. *)
Lemma settle_const_false fuel :
  (forall t, condition t = Returns false) -> timeout <> -1 ->
  (polls_before_timeout timeout interval + 2 <= fuel)%nat ->
  exists logged,
    stl fuel t0 =
    Some (false, t0 + Z.max 0 timeout + CONFIG.TIMEOUTS.MIN_DELAY, logged).
Proof.
  intros Hc Hn Hfuel. apply settle_times_out; [exact Hn| |exact Hfuel].
  intros j _ _. unfold fires_at. rewrite Hc. discriminate.
Qed.
End WaitUntilFacts.

(** ** The condition waiter *)

(** C1.  For every predicate whose first truthy poll comes before the
    timeout fires, [waitUntil] resolves [true] ([MIN_DELAY] = 20 ms after
    that poll).  For every predicate with no truthy poll it resolves
    [false], at a time no earlier than [timeoutMs] and no later than
    [timeoutMs + intervalMs + 20] after the call.  An omitted interval is
    100 ms.  A poll that would be due at the very instant of the timeout is
    not run: the timeout timer is registered first and fires first.  Both
    delays are ones a timer reads as given ([int32]). *)
Theorem waitUntil_resolves (development : bool) (condition : Z -> outcome bool)
    (timeoutMs intervalMs t0 : Z) :
  int32 timeoutMs -> int32 intervalMs ->
  0 <= timeoutMs -> 0 < intervalMs ->
  (forall k,
     first_fires_at condition intervalMs t0 k ->
     tick intervalMs t0 k < t0 + timeoutMs ->
     forall fuel, (k + 1 <= fuel)%nat ->
     exists logged,
       waitUntil development condition (Some timeoutMs) (Some intervalMs) fuel t0
       = Some (true, tick intervalMs t0 k + 20, logged)) /\
  ((forall j, (1 <= j)%nat -> tick intervalMs t0 j < t0 + timeoutMs ->
              ~ fires_at condition intervalMs t0 j) ->
   forall fuel, (polls_before_timeout timeoutMs intervalMs + 2 <= fuel)%nat ->
   exists t logged,
     waitUntil development condition (Some timeoutMs) (Some intervalMs) fuel t0
     = Some (false, t, logged) /\
     t0 + timeoutMs <= t <= t0 + timeoutMs + intervalMs + 20) /\
  waitUntil development condition (Some timeoutMs) None
  = waitUntil development condition (Some timeoutMs) (Some 100) /\
  CONFIG.TIMEOUTS.MIN_DELAY = 20.
Proof.
  intros _ _ Ht Hi. assert (Hmax : Z.max 0 timeoutMs = timeoutMs) by lia.
  repeat split.
  - intros k Hf Hin fuel Hfuel. unfold waitUntil; simpl.
    apply (settle_fires development condition timeoutMs intervalMs Hi t0 k fuel Hf);
      [right; rewrite Hmax; exact Hin|exact Hfuel].
  - intros Hmiss fuel Hfuel. unfold waitUntil; simpl.
    destruct (settle_times_out development condition timeoutMs intervalMs Hi t0 fuel)
      as (logged & E); [lia| |exact Hfuel|].
    + intros j Hj Hlt. apply Hmiss; [exact Hj|lia].
    + eexists. exists logged. split; [exact E|].
      unfold CONFIG.TIMEOUTS.MIN_DELAY. lia.
Qed.

Lemma waitUntil_resolves_witness :
  (exists logged,
     waitUntil false (fun t => Returns (250 <=? t)) (Some 1000) (Some 100) 4 0
     = Some (true, 320, logged)) /\
  (exists t logged,
     waitUntil false (fun _ => Returns false) (Some 1000) (Some 100) 11 0
     = Some (false, t, logged) /\ 0 + 1000 <= t <= 0 + 1000 + 100 + 20).
Proof.
  pose proof (waitUntil_resolves false (fun t => Returns (250 <=? t)) 1000 100 0
                ltac:(unfold int32; lia) ltac:(unfold int32; lia)
                ltac:(lia) ltac:(lia)) as (H1 & _).
  pose proof (waitUntil_resolves false (fun _ => Returns false) 1000 100 0
                ltac:(unfold int32; lia) ltac:(unfold int32; lia)
                ltac:(lia) ltac:(lia)) as (_ & H2 & _).
  split.
  - apply (H1 3%nat).
    + split; [lia|]. split; [reflexivity|].
      intros j Hj. assert (j = 1 \/ j = 2)%nat as [-> | ->] by lia; discriminate.
    + reflexivity.
    + lia.
  - apply H2.
    + intros j _ _. discriminate.
    + vm_compute. lia.
Defined.

(** A poll due at the very instant of the timeout is not run: this
    predicate would be truthy at 300 ms, the timeout is 300 ms, and the wait
    resolves [false]. *)
Example waitUntil_poll_at_timeout_is_not_run :
  waitUntil false (fun t => Returns (300 <=? t)) (Some 300) (Some 100) 10 0
  = Some (false, 320, []).
Proof. vm_compute. reflexivity. Qed.

(** C5.  A poll whose predicate throws is swallowed: the callback returns
    normally, leaving the promise and the timers as they were and logging
    the error, so nothing reaches the caller or the event loop.  A predicate
    that throws on every poll never resolves [true]; the wait ends by the
    timeout, resolving [false], and without a timeout it does not end. *)
Theorem waitUntil_swallows_exceptions (development : bool)
    (condition : Z -> outcome bool) (timeout interval t0 : Z) :
  0 < interval ->
  (forall l e,
     condition (clock l) = Throws e ->
     call development condition timeout OnInterval l
     = Returns (with_console
                  (Logger.error [Lit "Error in waitUntil condition:"; Val e]
                     (console l)) l)) /\
  (forall cb l, exists l', call development condition timeout cb l = Returns l') /\
  (forall fuel,
     uncaught (drain development condition timeout fuel
                 (executor timeout interval t0)) = []) /\
  ((forall t, exists e, condition t = Throws e) ->
   (forall fuel t logged,
      waitUntil development condition (Some timeout) (Some interval) fuel t0
      <> Some (true, t, logged)) /\
   (timeout <> -1 ->
    forall fuel, (polls_before_timeout timeout interval + 2 <= fuel)%nat ->
    exists logged,
      waitUntil development condition (Some timeout) (Some interval) fuel t0
      = Some (false, t0 + Z.max 0 timeout + 20, logged)) /\
   (timeout = -1 ->
    forall fuel,
      waitUntil development condition (Some timeout) (Some interval) fuel t0
      = None)).
Proof.
  intros Hi. split; [|split; [|split]].
  - intros l e E. simpl. rewrite E. reflexivity.
  - intros cb l.
    destruct (call_returns development condition timeout cb l) as (l' & E & _).
    eauto.
  - intros fuel. rewrite drain_uncaught.
    unfold executor. destruct (timeout =? -1); reflexivity.
  - intros Hthrow.
    assert (Hmiss : forall j, ~ fires_at condition interval t0 j).
    { intros j. unfold fires_at. destruct (Hthrow (tick interval t0 j)) as (e & ->).
      discriminate. }
    split; [|split].
    + intros fuel t logged. unfold waitUntil; simpl.
      apply settle_never_true; assumption.
    + intros Hn fuel Hfuel. unfold waitUntil; simpl.
      apply (settle_times_out development condition timeout interval Hi t0 fuel Hn);
        [intros j _ _; apply Hmiss|exact Hfuel].
    + intros Hn fuel. unfold waitUntil; simpl.
      apply (settle_forever development condition timeout interval Hi t0 fuel Hn).
      intros j _. apply Hmiss.
Qed.

Lemma waitUntil_swallows_exceptions_witness :
  (forall fuel t logged,
     waitUntil true (fun _ => Throws "TypeError") (Some 300) (Some 100) fuel 0
     <> Some (true, t, logged)) /\
  (exists logged,
     waitUntil true (fun _ => Throws "TypeError") (Some 300) (Some 100) 4 0
     = Some (false, 320, logged)).
Proof.
  pose proof (waitUntil_swallows_exceptions true (fun _ => Throws "TypeError")
                300 100 0 ltac:(lia)) as (_ & _ & _ & H).
  destruct H as (H1 & H2 & _); [intros t; eexists; reflexivity|].
  split; [exact H1|].
  apply (H2 ltac:(lia) 4%nat). vm_compute. lia.
Defined.

(** C8.  With [timeoutMs = -1] the wait never resolves [false]; it resolves
    [true] when the predicate first returns a truthy value, and only then;
    when the predicate never does, the promise stays pending for ever while
    the interval timer keeps polling.  Which poll that is, and when, is
    said for an interval that a timer reads as given ([int32]). *)
Theorem waitUntil_without_timeout (development : bool)
    (condition : Z -> outcome bool) (interval t0 : Z) :
  0 < interval ->
  (forall fuel t logged,
     waitUntil development condition (Some (-1)) (Some interval) fuel t0
     <> Some (false, t, logged)) /\
  (int32 interval ->
  (forall k, first_fires_at condition interval t0 k ->
   forall fuel, (k + 1 <= fuel)%nat ->
   exists logged,
     waitUntil development condition (Some (-1)) (Some interval) fuel t0
     = Some (true, tick interval t0 k + 20, logged)) /\
  (forall fuel t logged,
     waitUntil development condition (Some (-1)) (Some interval) fuel t0
     = Some (true, t, logged) ->
     exists k, first_fires_at condition interval t0 k /\
               t = tick interval t0 k + 20) /\
  ((forall j, (1 <= j)%nat -> ~ fires_at condition interval t0 j) ->
   forall fuel,
     waitUntil development condition (Some (-1)) (Some interval) fuel t0 = None /\
     exists j, Polling (-1) interval t0 j
                 (drain development condition (-1) fuel
                    (executor (-1) interval t0)))).
Proof.
  intros Hi. split; [|intros _; split; [|split]].
  - intros fuel t logged. unfold waitUntil; simpl.
    apply settle_never_false; [exact Hi|reflexivity].
  - intros k Hf fuel Hfuel. unfold waitUntil; simpl.
    apply (settle_fires development condition (-1) interval Hi t0 k fuel Hf);
      [left; reflexivity|exact Hfuel].
  - intros fuel t logged E. unfold waitUntil in E; simpl in E.
    apply (settle_true_inv development condition (-1) interval Hi t0 fuel t logged);
      [reflexivity|exact E].
  - intros Hmiss fuel. unfold waitUntil; simpl.
    apply (settle_forever development condition (-1) interval Hi t0 fuel);
      [reflexivity|exact Hmiss].
Qed.

Lemma waitUntil_without_timeout_witness :
  (forall fuel t logged,
     waitUntil false (fun t => Returns (130000 <? t)) (Some (-1)) (Some 60000) fuel 0
     <> Some (false, t, logged)) /\
  (exists logged,
     waitUntil false (fun t => Returns (130000 <? t)) (Some (-1)) (Some 60000) 4 0
     = Some (true, 180020, logged)).
Proof.
  pose proof (waitUntil_without_timeout false (fun t => Returns (130000 <? t))
                60000 0 ltac:(lia)) as (H1 & H).
  destruct (H ltac:(unfold int32; lia)) as (H2 & _).
  split; [exact H1|].
  apply (H2 3%nat); [|lia].
  split; [lia|]. split; [reflexivity|].
  intros j Hj. assert (j = 1 \/ j = 2)%nat as [-> | ->] by lia; discriminate.
Defined.

(** ** The mutation helpers *)

(** C9.  Each mutation helper called with a null target returns normally,
    changes nothing of the page and logs one error. *)
Theorem mutation_helpers_null_target (h : host) (property v : string) (w : world) :
  (exists w', setNativeValue h None v w = (Ok tt, w') /\ only_logs_error w w') /\
  (exists w', clickElement h None w = (Ok tt, w') /\ only_logs_error w w') /\
  (exists w', setStyle None property v w = (Ok tt, w') /\ only_logs_error w w').
Proof.
  repeat split; eexists; (split; [reflexivity|]);
    unfold only_logs_error; simpl; repeat split; eexists; reflexivity.
Qed.

(** ** Version detection and dispatch *)

(** The element whose content [getProtectVersion] returns. *)
Lemma getProtectVersion_first_match (h : host) (w : world) :
  let pg := page_at h (now w) in
  getProtectVersion h w =
  (Ok (innerHTML pg <$>
       List.find (fun el => match innerText pg el with
                            | Some text => truthy_string text && includes "Protect" text
                            | None => false
                            end)
         (querySelectorAll pg CONFIG.SELECTORS.VERSION_TEXT)), w).
Proof.
  cbv zeta. unfold getProtectVersion, try_catchM, bind, document, ret.
  destruct (querySelectorAll (page_at h (now w)) CONFIG.SELECTORS.VERSION_TEXT)
    as [|el els] eqn:E; [reflexivity|].
  change (length (el :: els) =? 0)%nat with false. cbv iota.
  destruct (List.find _ (el :: els)); reflexivity.
Qed.

(** The classification on the version strings of the three generations, and
    the default when no version is detected. *)
Lemma classify_examples :
  classify "Protect 3.40.2" = Gen3 /\ classify "Protect 4.1.0" = Gen45 /\
  classify "Protect 5.0.0" = Gen45 /\ classify (version_or_default None) = Gen3.
Proof. repeat split. Qed.

Lemma classify_gen3 (version : string) :
  includes "3." version = true -> classify version = Gen3.
Proof. unfold classify. intros ->. reflexivity. Qed.

Lemma classify_gen45 (version : string) :
  classify version = Gen45 <->
  includes "3." version = false /\
  (includes "4." version = true \/ includes "5." version = true).
Proof.
  unfold classify. destruct (includes "3." version).
  - split; [discriminate|intros [? _]; discriminate].
  - destruct (includes "4." version), (includes "5." version); simpl;
      split; try discriminate; try tauto; intros [_ [?|?]]; discriminate.
Qed.

(** C2, at the version label "Protect 4.3.0".  The detector returns the
    label; it contains "4.", a 4.x release, and the dashboard branch of
    [run] applies the Gen-3 driver to it, because "3." is looked for
    first: a whole [run] on such a dashboard logs the start of the Gen-3
    driver right after the detected version. *)
Theorem version_4_3_0_runs_gen3 :
  fst (getProtectVersion
         (static_host (dashboard_page "Protect 4.3.0") None) (initial_world 0))
  = Ok (Some "Protect 4.3.0") /\
  includes "4." "Protect 4.3.0" = true /\
  classify (version_or_default (Some "Protect 4.3.0")) = Gen3 /\
  (forall h fuel,
     dashboard_dispatch h fuel (version_or_default (Some "Protect 4.3.0"))
     = (handleLiveviewV3 h fuel >> wait CONFIG.TIMEOUTS.UI_ADJUSTMENT >>
        handleLiveviewV3 h fuel >> ret tt)) /\
  firstn 2
    (skipn 2
       (out (snd (run (static_host (dashboard_page "Protect 4.3.0")
                         (Some stored_config)) 700 (initial_world 0)))))
  = [Entry LOG [Lit "Detected UniFi Protect version: "; Val "Protect 4.3.0"];
     Entry LOG [Lit "Handling liveview for Protect 3.x"]].
Proof.
  split; [reflexivity|]. split; [reflexivity|]. split; [reflexivity|].
  split; [intros h fuel; reflexivity|]. vm_compute. reflexivity.
Qed.

(** C10.  The dashboard branch looks for "3." before "4." and "5.": every
    version string containing "3." gets the Gen-3 driver, also one that
    contains "4." or "5." such as "Protect 4.3.0"; the Gen-4/5 driver runs
    exactly for the strings that contain "4." or "5." and no "3."; for any
    other string no driver runs. *)
Theorem dashboard_dispatch_order (h : host) (fuel : nat) (version : string) :
  (includes "3." version = true ->
   classify version = Gen3 /\
   dashboard_dispatch h fuel version
   = (handleLiveviewV3 h fuel >> wait CONFIG.TIMEOUTS.UI_ADJUSTMENT >>
      handleLiveviewV3 h fuel >> ret tt)) /\
  (classify version = Gen45 <->
   includes "3." version = false /\
   (includes "4." version = true \/ includes "5." version = true)) /\
  (classify version = Gen45 ->
   dashboard_dispatch h fuel version
   = (handleLiveviewV4andV5 h fuel >> wait CONFIG.TIMEOUTS.UI_ADJUSTMENT >>
      handleLiveviewV4andV5 h fuel >> ret tt)) /\
  (includes "3." version = false -> includes "4." version = false ->
   includes "5." version = false ->
   dashboard_dispatch h fuel version
   = Logger_error [Lit "Unsupported version: "; Val version]) /\
  (includes "4." "Protect 4.3.0" = true /\ classify "Protect 4.3.0" = Gen3).
Proof.
  split; [|split; [|split; [|split]]].
  - intros H. pose proof (classify_gen3 version H) as E.
    split; [exact E|]. unfold dashboard_dispatch. rewrite E. reflexivity.
  - apply classify_gen45.
  - intros E. unfold dashboard_dispatch. rewrite E. reflexivity.
  - intros H3 H4 H5. unfold dashboard_dispatch, classify.
    rewrite H3, H4, H5. reflexivity.
  - split; reflexivity.
Qed.

Lemma dashboard_dispatch_order_witness :
  classify "Protect 3.40.2" = Gen3 /\
  classify "Protect 5.0.0" = Gen45 /\
  dashboard_dispatch (static_host (blank_page "about:blank") None) 0 "Protect 5.0.0"
  = (handleLiveviewV4andV5 (static_host (blank_page "about:blank") None) 0 >>
     wait CONFIG.TIMEOUTS.UI_ADJUSTMENT >>
     handleLiveviewV4andV5 (static_host (blank_page "about:blank") None) 0 >> ret tt) /\
  dashboard_dispatch (static_host (blank_page "about:blank") None) 0 "Protect 2.9"
  = Logger_error [Lit "Unsupported version: "; Val "Protect 2.9"].
Proof.
  pose proof (dashboard_dispatch_order (static_host (blank_page "about:blank") None) 0
                "Protect 3.40.2") as (H3 & _).
  pose proof (dashboard_dispatch_order (static_host (blank_page "about:blank") None) 0
                "Protect 5.0.0") as (_ & H45 & Hrun & _).
  pose proof (dashboard_dispatch_order (static_host (blank_page "about:blank") None) 0
                "Protect 2.9") as (_ & _ & _ & Hun & _).
  split; [apply H3; reflexivity|].
  assert (E : classify "Protect 5.0.0" = Gen45).
  { apply H45. split; [reflexivity|right; reflexivity]. }
  split; [exact E|]. split; [exact (Hrun E)|].
  apply Hun; reflexivity.
Defined.

(** ** Style assignments *)

Lemma apply_writes_app (ws ws' : writes) m :
  apply_writes (ws ++ ws') m = apply_writes ws' (apply_writes ws m).
Proof. unfold apply_writes. apply foldl_app. Qed.

(** A key reads what was last assigned to it, else what it had before. *)
Lemma apply_writes_lookup (ws : writes) m key :
  apply_writes ws m !! key =
  match last_write ws key with
  | Some v => Some v
  | None => m !! key
  end.
Proof.
  induction ws as [|[[el p] v] ws IH] using rev_ind; [reflexivity|].
  unfold last_write. rewrite apply_writes_app, foldl_app. simpl.
  fold (last_write ws key).
  destruct (decide ((el, p) = key)) as [->|Hne].
  - apply lookup_insert_eq.
  - rewrite lookup_insert_ne by exact Hne. exact IH.
Qed.

(** Assigning the same sequence a second time changes nothing. *)
Lemma apply_writes_idempotent (ws : writes) m :
  apply_writes ws (apply_writes ws m) = apply_writes ws m.
Proof.
  apply map_eq. intros key. rewrite !apply_writes_lookup.
  destruct (last_write ws key); reflexivity.
Qed.

(** ** Scripts on an unchanging page *)

Lemma uniform_ret {A : Type} (a : A) : Uniform (ret a).
Proof.
  exists (Ok a), []. split; [discriminate|]. intros w. exists w. split; reflexivity.
Qed.

Lemma uniform_throw {A : Type} (e : string) : Uniform (@throw A e).
Proof.
  exists (Err e), []. split; [discriminate|]. intros w. exists w. split; reflexivity.
Qed.

Lemma uniform_bind {A B : Type} (m : M A) (k : A -> M B) :
  Uniform m -> (forall a, Uniform (k a)) -> Uniform (bind m k).
Proof.
  intros (r & ws & Hr & Hm) Hk. destruct r as [a|e|]; [| |congruence].
  - destruct (Hk a) as (r' & ws' & Hr' & Hk').
    exists r', (ws ++ ws'). split; [exact Hr'|]. intros w.
    destruct (Hm w) as (w1 & E1 & S1). destruct (Hk' w1) as (w2 & E2 & S2).
    exists w2. unfold bind. rewrite E1. split; [exact E2|].
    rewrite S2, S1, apply_writes_app. reflexivity.
  - exists (Err e), ws. split; [discriminate|]. intros w.
    destruct (Hm w) as (w1 & E1 & S1). exists w1. unfold bind. rewrite E1.
    split; [reflexivity|exact S1].
Qed.

Lemma uniform_try_catch {A : Type} (body : M A) (handler : string -> M A) :
  Uniform body -> (forall e, Uniform (handler e)) ->
  Uniform (try_catchM body handler).
Proof.
  intros (r & ws & Hr & Hm) Hk. destruct r as [a|e|]; [| |congruence].
  - exists (Ok a), ws. split; [discriminate|]. intros w.
    destruct (Hm w) as (w1 & E1 & S1). exists w1. unfold try_catchM. rewrite E1.
    split; [reflexivity|exact S1].
  - destruct (Hk e) as (r' & ws' & Hr' & Hk').
    exists r', (ws ++ ws'). split; [exact Hr'|]. intros w.
    destruct (Hm w) as (w1 & E1 & S1). destruct (Hk' w1) as (w2 & E2 & S2).
    exists w2. unfold try_catchM. rewrite E1. split; [exact E2|].
    rewrite S2, S1, apply_writes_app. reflexivity.
Qed.

Lemma uniform_forEach {A : Type} (l : list A) (f : A -> M unit) :
  (forall a, Uniform (f a)) -> Uniform (forEach l f).
Proof.
  intros Hf. induction l as [|a l IH]; simpl.
  - apply uniform_ret.
  - apply uniform_bind; [apply Hf|intros _; exact IH].
Qed.

Lemma uniform_Logger_log message : Uniform (Logger_log message).
Proof.
  exists (Ok tt), []. split; [discriminate|]. intros w. eexists. split; reflexivity.
Qed.

Lemma uniform_Logger_error message : Uniform (Logger_error message).
Proof.
  exists (Ok tt), []. split; [discriminate|]. intros w. eexists. split; reflexivity.
Qed.

Lemma uniform_wait ms : Uniform (wait ms).
Proof.
  exists (Ok tt), []. split; [discriminate|]. intros w. eexists. split; reflexivity.
Qed.

Lemma uniform_setStyle el property v : Uniform (setStyle el property v).
Proof.
  destruct el as [el|]; simpl; [|apply uniform_Logger_error].
  exists (Ok tt), [(el, property, v)]. split; [discriminate|]. intros w.
  eexists. split; reflexivity.
Qed.

Section StaticPage.
Variable h : host.
Variable pg : page.
Variable fuel : nat.
Hypothesis page_static : static h pg.
Hypothesis fuel_enough : (601 <= fuel)%nat.

Lemma uniform_document : Uniform (document h).
Proof.
  exists (Ok pg), []. split; [discriminate|]. intros w. exists w.
  unfold document. rewrite page_static. split; reflexivity.
Qed.

Lemma uniform_clickElement el : Uniform (clickElement h el).
Proof.
  destruct el as [el|]; simpl; [|apply uniform_Logger_error].
  apply uniform_try_catch; [|intros e; apply uniform_Logger_error].
  apply uniform_bind; [apply uniform_document|]. intros p.
  exists (Ok tt), []. split; [discriminate|]. intros w.
  destruct (click_defined p el); eexists; split; reflexivity.
Qed.

(** A wait on a condition that only reads the page: the page decides the
    result. *)
Lemma uniform_await_waitUntil (condition : Z -> page -> bool)
    (timeout interval : option Z) :
  (forall t t', condition t pg = condition t' pg) ->
  0 < default CONFIG.TIMEOUTS.INTERVAL interval
    < default CONFIG.TIMEOUTS.DEFAULT_WAIT timeout ->
  (polls_before_timeout (default CONFIG.TIMEOUTS.DEFAULT_WAIT timeout)
     (default CONFIG.TIMEOUTS.INTERVAL interval) + 2 <= fuel)%nat ->
  Uniform (await_waitUntil h fuel condition timeout interval).
Proof.
  intros Hc [Hi Ht] Hfuel.
  set (T := default CONFIG.TIMEOUTS.DEFAULT_WAIT timeout) in *.
  set (I := default CONFIG.TIMEOUTS.INTERVAL interval) in *.
  exists (Ok (condition 0 pg)), []. split; [discriminate|]. intros w.
  unfold await_waitUntil, waitUntil. fold T I.
  destruct (condition 0 pg) eqn:Eb.
  - destruct (settle_const_true (NODE_ENV_development h)
                (fun t => Returns (condition t (page_at h t))) T I Hi (now w) fuel)
      as (logged & ->); [|right; unfold tick; lia|lia|].
    + intros t. rewrite page_static, (Hc t 0), Eb. reflexivity.
    + eexists. split; reflexivity.
  - destruct (settle_const_false (NODE_ENV_development h)
                (fun t => Returns (condition t (page_at h t))) T I Hi (now w) fuel)
      as (logged & ->); [|lia|exact Hfuel|].
    + intros t. rewrite page_static, (Hc t 0), Eb. reflexivity.
    + eexists. split; reflexivity.
Qed.

Lemma uniform_await_default (condition : page -> bool) :
  Uniform (await_waitUntil h fuel (fun _ => condition) None None).
Proof.
  apply uniform_await_waitUntil; [reflexivity|split; reflexivity|].
  change (polls_before_timeout _ _) with 599%nat. lia.
Qed.

Lemma uniform_await_500 (condition : page -> bool) :
  Uniform (await_waitUntil h fuel (fun _ => condition)
             (Some CONFIG.TIMEOUTS.DEFAULT_WAIT) (Some 500)).
Proof.
  apply uniform_await_waitUntil; [reflexivity|split; reflexivity|].
  change (polls_before_timeout _ _) with 119%nat. lia.
Qed.

Ltac uniform :=
  repeat first
    [ apply uniform_ret
    | apply uniform_throw
    | apply uniform_Logger_log
    | apply uniform_Logger_error
    | apply uniform_wait
    | apply uniform_setStyle
    | apply uniform_clickElement
    | apply uniform_document
    | apply uniform_await_default
    | apply uniform_await_500
    | apply uniform_bind; [|intros ?]
    | apply uniform_try_catch; [|intros ?]
    | apply uniform_forEach; intros ?
    | progress cbv zeta
    | match goal with
      | |- Uniform (if ?b then _ else _) => destruct b
      | |- Uniform (match ?o with Some _ => _ | None => _ end) => destruct o
      end ].

Lemma uniform_closeAllModals : Uniform (closeAllModals h fuel).
Proof. unfold closeAllModals. uniform. Qed.

Lemma uniform_handleLiveviewV2 : Uniform (handleLiveviewV2 h fuel).
Proof. unfold handleLiveviewV2. uniform; apply uniform_closeAllModals. Qed.

Lemma uniform_handleLiveviewV3 : Uniform (handleLiveviewV3 h fuel).
Proof.
  unfold handleLiveviewV3, querySelector_within.
  uniform; apply uniform_closeAllModals.
Qed.

Lemma uniform_handleLiveviewV4andV5 : Uniform (handleLiveviewV4andV5 h fuel).
Proof. unfold handleLiveviewV4andV5. uniform; apply uniform_closeAllModals. Qed.
End StaticPage.

(** A uniform script run twice in a row: the second run returns what the
    first did and leaves the styles of the first. *)
Lemma uniform_twice {A : Type} (m : M A) :
  Uniform m ->
  forall w, exists r w1 w2,
    m w = (r, w1) /\ m w1 = (r, w2) /\ r <> Hang /\ style w2 = style w1.
Proof.
  intros (r & ws & Hr & Hm) w.
  destruct (Hm w) as (w1 & E1 & S1). destruct (Hm w1) as (w2 & E2 & S2).
  exists r, w1, w2. repeat split; try assumption.
  rewrite S2, S1. apply apply_writes_idempotent.
Qed.

(** A handler that returns normally leaves no error to the caller. *)
Lemma try_catch_returns {A : Type} (body : M A) (handler : string -> M A) w e :
  (forall e w, exists a w', handler e w = (Ok a, w')) ->
  fst (try_catchM body handler w) <> Err e.
Proof.
  intros Hh. unfold try_catchM. destruct (body w) as [[a|e'|] w']; simpl;
    [discriminate| |discriminate].
  destruct (Hh e' w') as (a & w'' & ->). discriminate.
Qed.

Lemma log_and_return_false (message : string -> list part) (e : string) w :
  exists a w', (Logger_error (message e) >> ret false) w = (Ok a, w').
Proof. eexists. eexists. reflexivity. Qed.

Lemma layout_driver_returns (h : host) (fuel : nat) (driver : M bool) w e :
  In driver [handleLiveviewV2 h fuel; handleLiveviewV3 h fuel;
             handleLiveviewV4andV5 h fuel] ->
  fst (driver w) <> Err e.
Proof.
  intros [<-|[<-|[<-|[]]]]; apply try_catch_returns; intros e' w';
    apply (log_and_return_false (fun e => [_; Val e])).
Qed.

(** C3.  On a page that stays the same, each layout driver run twice in
    succession returns the same boolean both times and leaves after the
    second run exactly the inline styles the first run left; so does the
    re-application after [UI_ADJUSTMENT] that [run] performs. *)
Theorem layout_drivers_idempotent (h : host) (pg : page) (fuel : nat)
    (driver : M bool) :
  static h pg -> (601 <= fuel)%nat ->
  In driver [handleLiveviewV2 h fuel; handleLiveviewV3 h fuel;
             handleLiveviewV4andV5 h fuel] ->
  forall w, exists b w1 w2,
    driver w = (Ok b, w1) /\ driver w1 = (Ok b, w2) /\
    style w2 = style w1 /\
    style (snd ((driver >> wait CONFIG.TIMEOUTS.UI_ADJUSTMENT >> driver) w))
    = style w1.
Proof.
  intros Hs Hf Hin w.
  assert (U : Uniform driver).
  { destruct Hin as [<-|[<-|[<-|[]]]];
      eauto using uniform_handleLiveviewV2, uniform_handleLiveviewV3,
                  uniform_handleLiveviewV4andV5. }
  destruct (uniform_twice driver U w) as (r & w1 & w2 & E1 & E2 & Hr & S2).
  assert (Hne : forall e, r <> Err e).
  { intros e. pose proof (layout_driver_returns h fuel driver w e Hin) as H.
    rewrite E1 in H. exact H. }
  destruct r as [b|e|]; [|exfalso; exact (Hne e eq_refl)|congruence].
  exists b, w1, w2. repeat split; try assumption.
  unfold bind, wait. rewrite E1.
  destruct U as (r' & ws & _ & Hm).
  destruct (Hm w1) as (w1' & E1' & S1').
  destruct (Hm (set_now (now w1 + Z.max 0 CONFIG.TIMEOUTS.UI_ADJUSTMENT) w1))
    as (w3 & E3 & S3).
  rewrite E3. rewrite E2 in E1'. injection E1' as <- <-.
  simpl. rewrite S3. simpl. rewrite <- S1'. exact S2.
Qed.

Lemma layout_drivers_idempotent_witness :
  exists b w1 w2,
    handleLiveviewV2 (static_host liveview_page_with_modal None) 700
      (initial_world 0) = (Ok b, w1) /\
    handleLiveviewV2 (static_host liveview_page_with_modal None) 700 w1 = (Ok b, w2) /\
    style w2 = style w1 /\
    style (snd ((handleLiveviewV2 (static_host liveview_page_with_modal None) 700 >>
                 wait CONFIG.TIMEOUTS.UI_ADJUSTMENT >>
                 handleLiveviewV2 (static_host liveview_page_with_modal None) 700)
                  (initial_world 0)))
    = style w1.
Proof.
  apply (layout_drivers_idempotent (static_host liveview_page_with_modal None)
           liveview_page_with_modal 700).
  - intros t. reflexivity.
  - lia.
  - simpl. left. reflexivity.
Defined.

(** ** Scripts that assign no style *)

Lemma style_preserving_ret {A : Type} (a : A) : StylePreserving (ret a).
Proof. intros w. reflexivity. Qed.

Lemma style_preserving_bind {A B : Type} (m : M A) (k : A -> M B) :
  StylePreserving m -> (forall a, StylePreserving (k a)) ->
  StylePreserving (bind m k).
Proof.
  intros Hm Hk w. unfold bind. specialize (Hm w).
  destruct (m w) as [[a|e|] w1]; simpl in *; [|exact Hm|exact Hm].
  rewrite Hk. exact Hm.
Qed.

Lemma style_preserving_try_catch {A : Type} (body : M A) (handler : string -> M A) :
  StylePreserving body -> (forall e, StylePreserving (handler e)) ->
  StylePreserving (try_catchM body handler).
Proof.
  intros Hm Hk w. unfold try_catchM. specialize (Hm w).
  destruct (body w) as [[a|e|] w1]; simpl in *; [exact Hm| |exact Hm].
  rewrite Hk. exact Hm.
Qed.

Lemma style_preserving_forEach {A : Type} (l : list A) (f : A -> M unit) :
  (forall a, StylePreserving (f a)) -> StylePreserving (forEach l f).
Proof.
  intros Hf. induction l as [|a l IH]; simpl.
  - apply style_preserving_ret.
  - apply style_preserving_bind; [apply Hf|intros _; exact IH].
Qed.

Lemma style_preserving_Logger_log message : StylePreserving (Logger_log message).
Proof. intros w. reflexivity. Qed.

Lemma style_preserving_Logger_error message :
  StylePreserving (Logger_error message).
Proof. intros w. reflexivity. Qed.

Lemma style_preserving_document h : StylePreserving (document h).
Proof. intros w. reflexivity. Qed.

Lemma style_preserving_await_waitUntil h fuel condition timeout interval :
  StylePreserving (await_waitUntil h fuel condition timeout interval).
Proof.
  intros w. unfold await_waitUntil.
  destruct (waitUntil _ _ _ _ _ _) as [[[b t] logged]|]; reflexivity.
Qed.

Lemma style_preserving_clickElement h el : StylePreserving (clickElement h el).
Proof.
  destruct el as [el|]; simpl; [|apply style_preserving_Logger_error].
  apply style_preserving_try_catch; [|intros e; apply style_preserving_Logger_error].
  apply style_preserving_bind; [apply style_preserving_document|].
  intros pg w. destruct (click_defined pg el); reflexivity.
Qed.

Lemma style_preserving_closeAllModals h fuel :
  StylePreserving (closeAllModals h fuel).
Proof.
  unfold closeAllModals.
  apply style_preserving_try_catch.
  - apply style_preserving_bind; [apply style_preserving_document|]. intros pg.
    apply style_preserving_bind; [|intros _; apply style_preserving_await_waitUntil].
    destruct (hasElements _); [|apply style_preserving_ret].
    apply style_preserving_forEach. intros modalPortal. cbv zeta.
    destruct (elementExists _ _);
      [apply style_preserving_clickElement|apply style_preserving_ret].
  - intros e. apply style_preserving_bind;
      [apply style_preserving_Logger_error|intros _; apply style_preserving_ret].
Qed.

(** ** Running the script step by step *)

(** A wait with the default timeout and interval always settles. *)
Lemma await_default_settles (h : host) (fuel : nat) (condition : Z -> page -> bool)
    (w : world) :
  (601 <= fuel)%nat ->
  exists b w', await_waitUntil h fuel condition None None w = (Ok b, w').
Proof.
  intros Hf. unfold await_waitUntil, waitUntil.
  destruct (settle_total (NODE_ENV_development h)
              (fun t => Returns (condition t (page_at h t)))
              CONFIG.TIMEOUTS.DEFAULT_WAIT CONFIG.TIMEOUTS.INTERVAL
              ltac:(reflexivity) (now w) fuel)
    as (b & t & logged & E & _).
  - discriminate.
  - change (polls_before_timeout _ _) with 599%nat. lia.
  - simpl. rewrite E. eauto.
Qed.

(** A wait returns a boolean or hangs; it does not throw. *)
Lemma await_waitUntil_no_error h fuel condition timeout interval w e w' :
  await_waitUntil h fuel condition timeout interval w <> (Err e, w').
Proof.
  unfold await_waitUntil.
  destruct (waitUntil _ _ _ _ _ _) as [[[b t] logged]|]; discriminate.
Qed.

Lemma setNativeValue_returns h el v w :
  exists w', setNativeValue h el v w = (Ok tt, w').
Proof.
  destruct el as [el|]; simpl; [|eexists; reflexivity].
  unfold try_catchM, bind, document. eexists. reflexivity.
Qed.

Lemma clickElement_returns h el w :
  exists w', clickElement h el w = (Ok tt, w').
Proof.
  destruct el as [el|]; simpl; [|eexists; reflexivity].
  unfold try_catchM, bind, document.
  destruct (click_defined _ _); eexists; reflexivity.
Qed.


(** Running a sequence step by step. *)
Lemma bind_Ok {A B : Type} (m : M A) (k : A -> M B) w a w' :
  m w = (Ok a, w') -> bind m k w = k a w'.
Proof. intros E. unfold bind. rewrite E. reflexivity. Qed.

Lemma bind_Logger_log {B : Type} message (k : unit -> M B) w :
  bind (Logger_log message) k w = k tt (snd (Logger_log message w)).
Proof. reflexivity. Qed.

Lemma bind_document {B : Type} h (k : page -> M B) w :
  bind (document h) k w = k (page_at h (now w)) w.
Proof. reflexivity. Qed.

Lemma forEach_returns {A : Type} (l : list A) (f : A -> M unit) :
  (forall a w, exists w', f a w = (Ok tt, w')) ->
  forall w, exists w', forEach l f w = (Ok tt, w').
Proof.
  intros Hf. induction l as [|a l IH]; intros w; simpl.
  - eexists. reflexivity.
  - destruct (Hf a w) as (w1 & E1). rewrite (bind_Ok _ _ _ tt w1 E1). apply IH.
Qed.

(** With enough turns for the default timeout, [closeAllModals] returns a
    boolean. *)
Lemma closeAllModals_returns (h : host) (fuel : nat) (w : world) :
  (601 <= fuel)%nat ->
  exists b w', closeAllModals h fuel w = (Ok b, w').
Proof.
  intros Hf. unfold closeAllModals, try_catchM. rewrite bind_document.
  assert (exists w1,
            (if hasElements (querySelectorAll (page_at h (now w))
                               CONFIG.SELECTORS.MODAL_PORTAL)
             then forEach (querySelectorAll (page_at h (now w))
                             CONFIG.SELECTORS.MODAL_PORTAL)
                    (fun modalPortal =>
                       let buttons := querySelectorAll_in (page_at h (now w))
                                        modalPortal
                                        CONFIG.SELECTORS.MODAL_CLOSE_BUTTON in
                       if elementExists buttons 0
                       then clickElement h (nth_error buttons 0)
                       else ret tt)
             else ret tt) w = (Ok tt, w1)) as (w1 & E1).
  { destruct (hasElements _); [|eexists; reflexivity].
    apply forEach_returns. intros modalPortal w'. cbv zeta.
    destruct (elementExists _ _); [apply clickElement_returns|].
    eexists. reflexivity. }
  rewrite (bind_Ok _ _ _ tt w1 E1).
  destruct (await_default_settles h fuel
              (fun _ pg =>
                 forallb (fun e => (children_length pg e =? 0)%nat)
                   (querySelectorAll pg CONFIG.SELECTORS.MODAL_PORTAL))
              w1 Hf) as (b & w2 & ->).
  eauto.
Qed.

(** ** The Gen-2 driver *)

(** C4, as the code has it.  The Gen-2 driver always returns a boolean.
    It waits for the viewport wrapper and gives up, with a logged error and nothing else, when the
    wait resolves [false].  Otherwise it runs the close-modals subroutine,
    whatever that returns, then hides the header and the nav and sets the
    viewport wrapper's maxWidth to 100vw and maxHeight to 100vh, where
    these elements exist.  It assigns no other style: no widget is
    suppressed.  The events sent to the page are those of the close-modals
    subroutine. *)
Theorem handleLiveviewV2_steps (h : host) (fuel : nat) (w : world) :
  let w0 := snd (Logger_log [Lit "Handling liveview for Protect 2.x"] w) in
  let present :=
    await_waitUntil h fuel
      (fun _ pg => hasElements
                     (querySelectorAll pg CONFIG.SELECTORS.V2.VIEWPORT_WRAPPER))
      None None in
  (forall w1, present w0 = (Ok false, w1) ->
   exists w', handleLiveviewV2 h fuel w = (Ok false, w') /\
              only_logs_error w1 w') /\
  (forall w1 b w2,
     present w0 = (Ok true, w1) -> closeAllModals h fuel w1 = (Ok b, w2) ->
     let pg := page_at h (now w2) in
     exists w',
       handleLiveviewV2 h fuel w = (Ok true, w') /\
       style w' =
       style_if (querySelector pg CONFIG.SELECTORS.V2.VIEWPORT_WRAPPER)
         "maxHeight" "100vh"
         (style_if (querySelector pg CONFIG.SELECTORS.V2.VIEWPORT_WRAPPER)
            "maxWidth" "100vw"
            (style_if (querySelector pg CONFIG.SELECTORS.NAV) "display" "none"
               (style_if (querySelector pg CONFIG.SELECTORS.HEADER)
                  "display" "none" (style w)))) /\
       dispatched w' = dispatched w2 /\ value w' = value w2 /\
       navigated w' = navigated w2 /\ now w' = now w2) /\
  ((601 <= fuel)%nat -> exists b w', handleLiveviewV2 h fuel w = (Ok b, w')).
Proof.
  cbv zeta.
  match goal with |- ?A /\ ?B /\ _ => assert (Hab : A /\ B) end; [split|].
  3: { destruct Hab as (Ha & Hb). split; [exact Ha|]. split; [exact Hb|].
       intros Hf.
       destruct (await_default_settles h fuel
                   (fun _ pg => hasElements
                      (querySelectorAll pg CONFIG.SELECTORS.V2.VIEWPORT_WRAPPER))
                   (snd (Logger_log [Lit "Handling liveview for Protect 2.x"] w))
                   Hf) as ([|] & w1 & E1).
       - destruct (closeAllModals_returns h fuel w1 Hf) as (b & w2 & E2).
         destruct (Hb w1 b w2 E1 E2) as (w' & E & _). eauto.
       - destruct (Ha w1 E1) as (w' & E & _). eauto. }
  - intros w1 E1. unfold handleLiveviewV2, try_catchM, bind.
    simpl in E1 |- *. rewrite E1. simpl.
    eexists. split; [reflexivity|].
    unfold only_logs_error. simpl. repeat split. eexists. reflexivity.
  - intros w1 b w2 E1 E2.
    pose proof (style_preserving_await_waitUntil h fuel
                  (fun _ pg => hasElements
                     (querySelectorAll pg CONFIG.SELECTORS.V2.VIEWPORT_WRAPPER))
                  None None
                  (snd (Logger_log [Lit "Handling liveview for Protect 2.x"] w)))
      as S1.
    rewrite E1 in S1. simpl in S1.
    pose proof (style_preserving_closeAllModals h fuel w1) as S2.
    rewrite E2 in S2. simpl in S2.
    unfold handleLiveviewV2, try_catchM, bind.
    simpl in E1 |- *. rewrite E1. simpl. rewrite E2. simpl.
    rewrite <- S1, <- S2.
    destruct (querySelector (page_at h (now w2)) CONFIG.SELECTORS.HEADER),
             (querySelector (page_at h (now w2)) CONFIG.SELECTORS.NAV),
             (querySelector (page_at h (now w2))
                CONFIG.SELECTORS.V2.VIEWPORT_WRAPPER);
      simpl; eexists; repeat split.
Qed.

Lemma handleLiveviewV2_steps_witness :
  exists w',
    handleLiveviewV2 (static_host liveview_page_with_modal None) 700
      (initial_world 0) = (Ok true, w') /\
    style w' = <[(1%nat, "maxHeight") := "100vh"]>
                 (<[(1%nat, "maxWidth") := "100vw"]> ∅) /\
    dispatched w' = [MouseEvent_click 3%nat].
Proof.
  pose (H := static_host liveview_page_with_modal None).
  pose (w0 := snd (Logger_log [Lit "Handling liveview for Protect 2.x"]
                     (initial_world 0))).
  pose (w1 := snd (await_waitUntil H 700
                     (fun _ pg => hasElements
                        (querySelectorAll pg CONFIG.SELECTORS.V2.VIEWPORT_WRAPPER))
                     None None w0)).
  pose (w2 := snd (closeAllModals H 700 w1)).
  destruct (handleLiveviewV2_steps H 700 (initial_world 0)) as (_ & Hb & _).
  destruct (Hb w1 false w2) as (w' & E & S & D & _).
  - vm_compute. reflexivity.
  - vm_compute. reflexivity.
  - exists w'. split; [exact E|]. split; [rewrite S|rewrite D]; reflexivity.
Defined.

(** C4, as the claim has it, fails: on a live view with an open modal the
    Gen-2 driver clicks the modal's close control and then waits a second
    time, for the modal containers to empty. *)
Lemma handleLiveviewV2_closes_modals :
  let w' := snd (handleLiveviewV2 (static_host liveview_page_with_modal None) 700
                   (initial_world 0)) in
  dispatched w' = [MouseEvent_click 3%nat] /\
  dispatched w' <> dispatched (initial_world 0) /\
  now w' = 0 + (100 + 20) + (60000 + 20).
Proof. vm_compute. repeat split. discriminate. Qed.

(** ** The login driver *)

(** The three synchronous steps of the login, on whatever elements the
    selectors gave: what the fields hold and what reached the page. *)
Lemma login_form_filled (h : host) (user pass button : option element)
    (un pw : string) (w2 wa wb wc : world) :
  setNativeValue h user un w2 = (Ok tt, wa) ->
  setNativeValue h pass pw wa = (Ok tt, wb) ->
  clickElement h button wb = (Ok tt, wc) ->
  let pg := page_at h (now w2) in
  value wc = filled pass pw (filled user un (value w2)) /\
  dispatched wc =
    dispatched w2 ++ input_events pg user (value w2)
      ++ input_events pg pass (filled user un (value w2))
      ++ click_events pg button /\
  style wc = style w2 /\ navigated wc = navigated w2 /\ now wc = now w2.
Proof.
  intros Ea Eb Ec. cbv zeta.
  assert (Ha : value wa = filled user un (value w2) /\
               dispatched wa = dispatched w2 ++
                 input_events (page_at h (now w2)) user (value w2) /\
               style wa = style w2 /\ navigated wa = navigated w2 /\
               now wa = now w2).
  { destruct user as [el|]; simpl in Ea |- *.
    - unfold try_catchM, bind, document in Ea. simpl in Ea.
      destruct (valueTracker (page_at h (now w2)) el); simpl in Ea;
        injection Ea as <-; simpl; rewrite <- ?app_assoc; auto.
    - injection Ea as <-. simpl. rewrite app_nil_r. auto. }
  destruct Ha as (Va & Da & Sa & Na & Ta).
  assert (Hb : value wb = filled pass pw (value wa) /\
               dispatched wb = dispatched wa ++
                 input_events (page_at h (now wa)) pass (value wa) /\
               style wb = style wa /\ navigated wb = navigated wa /\
               now wb = now wa).
  { destruct pass as [el|]; simpl in Eb |- *.
    - unfold try_catchM, bind, document in Eb. simpl in Eb.
      destruct (valueTracker (page_at h (now wa)) el); simpl in Eb;
        injection Eb as <-; simpl; rewrite <- ?app_assoc; auto.
    - injection Eb as <-. simpl. rewrite app_nil_r. auto. }
  destruct Hb as (Vb & Db & Sb & Nb & Tb).
  assert (Hc : value wc = value wb /\
               dispatched wc = dispatched wb ++
                 click_events (page_at h (now wb)) button /\
               style wc = style wb /\ navigated wc = navigated wb /\
               now wc = now wb).
  { destruct button as [el|]; simpl in Ec |- *.
    - unfold try_catchM, bind, document, click_of in Ec |- *. simpl in Ec.
      destruct (click_defined (page_at h (now wb)) el); simpl in Ec;
        injection Ec as <-; simpl; auto.
    - injection Ec as <-. simpl. rewrite app_nil_r. auto. }
  destruct Hc as (Vc & Dc & Sc & Nc & Tc).
  rewrite Vc, Vb, Dc, Db, Da, Sc, Sb, Sa, Nc, Nb, Na, Tc, Tb, Ta, !Va.
  rewrite <- !app_assoc. auto.
Qed.

(** C6.  [handleLogin] returns [false] when the loaded configuration is
    null or lacks a username or a password.  When the login button has
    appeared and the credentials are there, it fills the two fields, clicks
    the login control and returns what the wait for a URL without "login"
    resolves to, under the default timeout: [true] exactly when that wait
    resolves [true].  When that wait starts the username field holds the
    username and the password field the password, and what has reached the
    page is, in this order, the input events of the username field, those
    of the password field and the click on the login control; no style and
    no navigation. *)
Theorem handleLogin_outcome (h : host) (fuel : nat) (w : world) :
  let w0 := snd (Logger_log [Lit "Handling login process"] w) in
  let button :=
    await_waitUntil h fuel
      (fun _ pg => hasElements (querySelectorAll pg CONFIG.SELECTORS.LOGIN_BUTTON))
      None None in
  let redirect :=
    await_waitUntil h fuel (fun _ pg => negb (checkUrl pg "login")) None None in
  ((601 <= fuel)%nat ->
   (forall t, exists c, configLoad_reply h t = Returns c /\
                        credentials_present c = false) ->
   exists w', handleLogin h fuel w = (Ok false, w')) /\
  (forall w1 c w2,
     button w0 = (Ok true, w1) -> configLoad h w1 = (Ok c, w2) ->
     credentials_present c = true ->
     let pg := page_at h (now w2) in
     let w3 :=
       snd ((setNativeValue h (querySelector pg CONFIG.SELECTORS.USERNAME_INPUT)
               (js_string (c ≫= username)) >>
             setNativeValue h (querySelector pg CONFIG.SELECTORS.PASSWORD_INPUT)
               (js_string (c ≫= password)) >>
             clickElement h (querySelector pg CONFIG.SELECTORS.LOGIN_BUTTON)) w2) in
     let user := querySelector pg CONFIG.SELECTORS.USERNAME_INPUT in
     let pass := querySelector pg CONFIG.SELECTORS.PASSWORD_INPUT in
     let held := filled user (js_string (c ≫= username)) (value w2) in
     handleLogin h fuel w = redirect w3 /\
     (forall w', handleLogin h fuel w = (Ok true, w') <->
                 redirect w3 = (Ok true, w')) /\
     ((601 <= fuel)%nat -> exists b w', handleLogin h fuel w = (Ok b, w')) /\
     value w3 = filled pass (js_string (c ≫= password)) held /\
     (forall el, pass = Some el ->
                 value w3 !! el = Some (js_string (c ≫= password))) /\
     (forall el, user = Some el -> pass <> Some el ->
                 value w3 !! el = Some (js_string (c ≫= username))) /\
     dispatched w3 =
       dispatched w2 ++ input_events pg user (value w2)
         ++ input_events pg pass held
         ++ click_events pg (querySelector pg CONFIG.SELECTORS.LOGIN_BUTTON) /\
     style w3 = style w2 /\ navigated w3 = navigated w2 /\ now w3 = now w2).
Proof.
  cbv zeta. split.
  - intros Hf Hmissing.
    destruct (await_default_settles h fuel
                (fun _ pg => hasElements
                               (querySelectorAll pg CONFIG.SELECTORS.LOGIN_BUTTON))
                (snd (Logger_log [Lit "Handling login process"] w)) Hf)
      as (b & w1 & E1).
    unfold handleLogin, try_catchM.
    rewrite bind_Logger_log, (bind_Ok _ _ _ b w1 E1).
    destruct b; cbn [negb]; [|eexists; reflexivity].
    destruct (Hmissing (now (snd (Logger_log [Lit "Loading configuration"] w1))))
      as (c & Ec & Hc).
    assert (E2 : configLoad h w1 =
                 (Ok c, set_now (now w1 + Z.max 0 (configLoad_latency h (now w1)))
                          (snd (Logger_log [Lit "Loading configuration"] w1)))).
    { unfold configLoad. rewrite bind_Logger_log. simpl in Ec |- *.
      rewrite Ec. reflexivity. }
    rewrite (bind_Ok _ _ _ c _ E2), Hc. cbn [negb].
    eexists. reflexivity.
  - intros w1 c w2 E1 E2 Hc.
    destruct (setNativeValue_returns h
                (querySelector (page_at h (now w2)) CONFIG.SELECTORS.USERNAME_INPUT)
                (js_string (c ≫= username)) w2) as (wa & Ea).
    destruct (setNativeValue_returns h
                (querySelector (page_at h (now w2)) CONFIG.SELECTORS.PASSWORD_INPUT)
                (js_string (c ≫= password)) wa) as (wb & Eb).
    destruct (clickElement_returns h
                (querySelector (page_at h (now w2)) CONFIG.SELECTORS.LOGIN_BUTTON)
                wb) as (wc & Ec).
    rewrite (bind_Ok _ _ _ tt wa Ea), (bind_Ok _ _ _ tt wb Eb), Ec. cbn [snd].
    assert (E : handleLogin h fuel w =
                await_waitUntil h fuel (fun _ pg => negb (checkUrl pg "login"))
                  None None wc).
    { unfold handleLogin, try_catchM.
      rewrite bind_Logger_log, (bind_Ok _ _ _ true w1 E1). cbn [negb].
      rewrite (bind_Ok _ _ _ c w2 E2), Hc. cbn [negb].
      rewrite bind_document.
      rewrite (bind_Ok _ _ _ tt wa Ea), (bind_Ok _ _ _ tt wb Eb),
        (bind_Ok _ _ _ tt wc Ec).
      pose proof (await_waitUntil_no_error h fuel
                    (fun _ pg => negb (checkUrl pg "login")) None None wc) as Hne.
      unfold bind.
      destruct (await_waitUntil h fuel _ None None wc) as [[b|e|] wd];
        [reflexivity|exfalso; exact (Hne e wd eq_refl)|reflexivity]. }
    split; [exact E|]. split; [intros w'; rewrite E; reflexivity|].
    split; [intros Hf; rewrite E; apply await_default_settles; exact Hf|].
    clear E.
    destruct (login_form_filled h
                (querySelector (page_at h (now w2)) CONFIG.SELECTORS.USERNAME_INPUT)
                (querySelector (page_at h (now w2)) CONFIG.SELECTORS.PASSWORD_INPUT)
                (querySelector (page_at h (now w2)) CONFIG.SELECTORS.LOGIN_BUTTON)
                (js_string (c ≫= username)) (js_string (c ≫= password))
                w2 wa wb wc Ea Eb Ec) as (Hv & Hd & Hs & Hn & Ht).
    split; [exact Hv|].
    split; [intros el Hel; rewrite Hv, Hel; apply lookup_insert_eq|].
    split.
    { intros el Hel Hne. rewrite Hv, Hel.
      destruct (querySelector (page_at h (now w2)) CONFIG.SELECTORS.PASSWORD_INPUT)
        as [p|]; simpl.
      - rewrite lookup_insert_ne by congruence. apply lookup_insert_eq.
      - apply lookup_insert_eq. }
    repeat split; assumption.
Qed.

Lemma handleLogin_outcome_witness :
  (exists w', handleLogin (static_host login_page None) 700 (initial_world 0)
              = (Ok false, w')) /\
  (exists w3 w',
     handleLogin login_host 700 (initial_world 0) = (Ok true, w') /\
     await_waitUntil login_host 700 (fun _ pg => negb (checkUrl pg "login"))
       None None w3 = (Ok true, w') /\
     value w3 !! 1%nat = Some "u" /\ value w3 !! 2%nat = Some "p" /\
     dispatched w3 =
       [Tracker_setValue 1%nat EmptyString; Input_simulated 1%nat;
        Tracker_setValue 2%nat EmptyString; Input_simulated 2%nat;
        Click 3%nat] /\
     value w' = value w3 /\ dispatched w' = dispatched w3).
Proof.
  split.
  - destruct (handleLogin_outcome (static_host login_page None) 700
                (initial_world 0)) as (H1 & _).
    apply H1; [lia|]. intros t. exists None. split; reflexivity.
  - pose (w0 := snd (Logger_log [Lit "Handling login process"] (initial_world 0))).
    pose (w1 := snd (await_waitUntil login_host 700
                       (fun _ pg => hasElements
                          (querySelectorAll pg CONFIG.SELECTORS.LOGIN_BUTTON))
                       None None w0)).
    pose (w2 := snd (configLoad login_host w1)).
    pose (redirect :=
            await_waitUntil login_host 700
              (fun _ pg => negb (checkUrl pg "login")) None None).
    destruct (handleLogin_outcome login_host 700 (initial_world 0)) as (_ & H2).
    destruct (H2 w1 (Some stored_config) w2)
      as (E & _ & _ & _ & Hp & Hu & Hd & _).
    + vm_compute. reflexivity.
    + vm_compute. reflexivity.
    + reflexivity.
    + match type of E with _ = _ ?x => exists x, (snd (redirect x)) end.
      split; [rewrite E; vm_compute; reflexivity|].
      split; [vm_compute; reflexivity|].
      split; [apply (Hu 1%nat); [vm_compute; reflexivity|vm_compute; discriminate]|].
      split; [apply (Hp 2%nat); vm_compute; reflexivity|].
      split; [rewrite Hd; vm_compute; reflexivity|].
      split; vm_compute; reflexivity.
Defined.

(** ** The session watchdog *)

(** C7.  Without the expiry marker in client storage the watchdog does
    nothing: no timer, no reload.  With the marker, the trigger point is the
    expiry minus 10 minutes; the watchdog polls every 60000 ms without a
    timeout and reloads the page on the first poll at which the clock is
    past the trigger point or the URL no longer contains the configured URL
    (the reload call comes [MIN_DELAY] after that poll, when the wait has
    resolved); until such a poll it stays pending.  With the expiry 5
    minutes ahead the trigger point lies 5 minutes back and the first poll
    reloads. *)
Theorem session_watchdog_reloads (h : host) (fuel : nat) (cfg : config)
    (w : world) :
  let item := localStorage_getItem (page_at h (now w))
                "portal:localSessionsExpiresAt" in
  let due (trigger t : Z) : bool :=
    negb (includes (js_string (url cfg)) (URL (page_at h t))) || (t >? trigger) in
  (item = None -> session_watchdog h fuel cfg w = (Ok tt, w)) /\
  (forall marker expires,
     item = Some marker -> truthy_string marker = true ->
     ToNumber h marker = Some expires ->
     let trigger := expires - 10 * 60 * 1000 in
     (forall k,
        (1 <= k)%nat ->
        due trigger (now w + Z.of_nat k * 60000) = true ->
        (forall j, (1 <= j < k)%nat ->
                   due trigger (now w + Z.of_nat j * 60000) = false) ->
        (k + 1 <= fuel)%nat ->
        exists w',
          session_watchdog h fuel cfg w = (Ok tt, w') /\
          navigated w' = navigated w ++ [Reload] /\
          now w' = now w + Z.of_nat k * 60000 + 20) /\
     ((forall j, (1 <= j)%nat ->
                 due trigger (now w + Z.of_nat j * 60000) = false) ->
      exists w',
        session_watchdog h fuel cfg w = (Hang, w') /\
        navigated w' = navigated w) /\
     (expires = now w + 5 * 60 * 1000 -> (2 <= fuel)%nat ->
      trigger = now w - 5 * 60 * 1000 /\
      exists w',
        session_watchdog h fuel cfg w = (Ok tt, w') /\
        navigated w' = navigated w ++ [Reload] /\
        now w' = now w + 60000 + 20)).
Proof.
  cbv zeta.
  assert (Hfire : forall marker expires k,
    localStorage_getItem (page_at h (now w)) "portal:localSessionsExpiresAt"
    = Some marker ->
    truthy_string marker = true -> ToNumber h marker = Some expires ->
    first_fires_at
      (fun t => Returns (session_condition cfg (Some expires) (10 * 60 * 1000)
                           t (page_at h t)))
      60000 (now w) k ->
    (k + 1 <= fuel)%nat ->
    exists w',
      session_watchdog h fuel cfg w = (Ok tt, w') /\
      navigated w' = navigated w ++ [Reload] /\
      now w' = now w + Z.of_nat k * 60000 + 20).
  { intros marker expires k Hitem Htruthy Hnum Hf Hfuel.
    unfold session_watchdog. rewrite bind_document, Hitem, Htruthy, Hnum.
    rewrite bind_Logger_log.
    destruct (settle_fires (NODE_ENV_development h)
                (fun t => Returns (session_condition cfg (Some expires)
                                     (10 * 60 * 1000) t (page_at h t)))
                (-1) 60000 ltac:(reflexivity) (now w) k fuel Hf
                (or_introl eq_refl) Hfuel) as (logged & E).
    erewrite bind_Ok; cycle 1.
    { unfold await_waitUntil, waitUntil. simpl default. simpl now.
      rewrite E. reflexivity. }
    rewrite bind_Logger_log. eexists. split; [reflexivity|].
    split; reflexivity. }
  split; [|intros marker expires Hitem Htruthy Hnum; split; [|split]].
  - intros Hitem. unfold session_watchdog. rewrite bind_document, Hitem.
    reflexivity.
  - intros k Hk Hdue Hnot Hfuel.
    apply (Hfire marker expires k Hitem Htruthy Hnum); [|exact Hfuel].
    split; [exact Hk|]. unfold fires_at, tick, session_condition, checkUrl.
    split; [rewrite Hdue; reflexivity|].
    intros j Hj. rewrite (Hnot j Hj). discriminate.
  - intros Hnot. unfold session_watchdog.
    rewrite bind_document, Hitem, Htruthy, Hnum, bind_Logger_log.
    destruct (settle_forever (NODE_ENV_development h)
                (fun t => Returns (session_condition cfg (Some expires)
                                     (10 * 60 * 1000) t (page_at h t)))
                (-1) 60000 ltac:(reflexivity) (now w) fuel eq_refl) as (E & _).
    { intros j Hj. unfold fires_at, tick, session_condition, checkUrl.
      rewrite (Hnot j Hj). discriminate. }
    unfold bind at 1, await_waitUntil, waitUntil. simpl default. simpl now.
    rewrite E. eexists. split; reflexivity.
  - intros Hexp Hfuel. split; [lia|].
    replace (now w + 60000 + 20) with (now w + Z.of_nat 1 * 60000 + 20) by lia.
    apply (Hfire marker expires 1%nat Hitem Htruthy Hnum); [|lia].
    split; [lia|]. unfold fires_at, tick, session_condition.
    split.
    + replace (now w + Z.of_nat 1 * 60000 >? expires - 10 * 60 * 1000) with true;
        [rewrite orb_true_r; reflexivity|].
      symmetry. apply Z.gtb_lt. lia.
    + intros j Hj. lia.
Qed.

Lemma session_watchdog_reloads_witness :
  (session_watchdog (static_host (blank_page "https://h/protect/dashboard/X") None)
     5 stored_config (initial_world 0) = (Ok tt, initial_world 0)) /\
  (exists w',
     session_watchdog (static_host (session_page "300000") None) 5 stored_config
       (initial_world 0) = (Ok tt, w') /\
     navigated w' = [Reload] /\ now w' = 60020).
Proof.
  split.
  - destruct (session_watchdog_reloads
                (static_host (blank_page "https://h/protect/dashboard/X") None)
                5 stored_config (initial_world 0)) as (H0 & _).
    apply H0. reflexivity.
  - destruct (session_watchdog_reloads (static_host (session_page "300000") None)
                5 stored_config (initial_world 0)) as (_ & H1).
    destruct (H1 "300000" 300000) as (_ & _ & H5); try reflexivity.
    destruct H5 as (_ & w' & E & N & T); [reflexivity|lia|].
    exists w'. split; [exact E|]. split; [exact N|exact T].
Defined.

(* ================================================================== *)
(** * Further properties of the script *)

(** ** The life of one wait *)

Section WaitUntilLife.
Variable development : bool.
Variable condition : Z -> outcome bool.
Variables timeout interval : Z.
Hypothesis interval_pos : 0 < interval.
Variable t0 : Z.

Local Abbreviation run_loop := (drain development condition timeout).
Local Abbreviation start := (executor timeout interval t0).

Lemma drain_add a : forall b l, run_loop (a + b) l = run_loop b (run_loop a l).
Proof.
  induction a as [|a IH]; intros b l; [reflexivity|].
  simpl. destruct (state l) eqn:Es.
  - destruct (step development condition timeout l) as [l'|] eqn:E; [apply IH|].
    destruct b; simpl; [reflexivity|]. rewrite Es, E. reflexivity.
  - symmetry. eapply drain_resolved. exact Es.
Qed.

Lemma settling_step_quiet b t l :
  Settling b t l ->
  exists l', step development condition timeout l = Some l' /\
             state l' = Resolved b /\ queue l' = [] /\
             clock l' = t + CONFIG.TIMEOUTS.MIN_DELAY.
Proof.
  unfold Settling, step, fire.
  destruct l as [c q n ti ii st con unc]; simpl.
  intros (-> & -> & id & ->). simpl. rewrite Nat.eqb_refl. simpl.
  eexists; split; [reflexivity|]. simpl. repeat split.
  unfold CONFIG.TIMEOUTS.MIN_DELAY. lia.
Qed.

Lemma in_time_dec j :
  {in_time timeout interval t0 j} + {~ in_time timeout interval t0 j}.
Proof.
  unfold in_time. destruct (Z.eq_dec timeout (-1)) as [E|N]; [left; left; exact E|].
  destruct (Z_lt_le_dec (tick interval t0 j) (t0 + Z.max 0 timeout)) as [L|G].
  - left; right; exact L.
  - right. intros [E|L]; [congruence|lia].
Qed.

(** One turn keeps the loop in one of its three stages. *)
Lemma loop_shape_step l :
  loop_shape timeout interval t0 l -> state l = Pending ->
  exists l', step development condition timeout l = Some l' /\
             loop_shape timeout interval t0 l'.
Proof.
  intros [(j & P)|[(b & t & S0)|(b & R & _)]] Hs; [| |congruence].
  - destruct (in_time_dec (S j)) as [Hin|Hout].
    + destruct (fires_dec condition interval t0 (S j)) as [Hf|Hf].
      * destruct (polling_hit development condition timeout interval interval_pos
                    t0 j l P Hin Hf) as (l' & E & S1 & _).
        exists l'. split; [exact E|]. right; left. eauto.
      * destruct (polling_miss development condition timeout interval interval_pos
                    t0 j l P Hin Hf) as (l' & E & P1).
        exists l'. split; [exact E|]. left. eauto.
    + assert (Hn : timeout <> -1) by (intros E; apply Hout; left; exact E).
      assert (Hge : t0 + Z.max 0 timeout <= tick interval t0 (S j)).
      { destruct (Z_lt_le_dec (tick interval t0 (S j)) (t0 + Z.max 0 timeout));
          [exfalso; apply Hout; right; assumption|assumption]. }
      destruct (polling_timeout development condition timeout interval
                  t0 j l P Hn Hge) as (l' & E & S1 & _).
      exists l'. split; [exact E|]. right; left. eauto.
  - destruct (settling_step_quiet b t l S0) as (l' & E & R & Q & _).
    exists l'. split; [exact E|]. right; right. eauto.
Qed.

Lemma loop_shape_drain fuel : forall l,
  loop_shape timeout interval t0 l -> loop_shape timeout interval t0 (run_loop fuel l).
Proof.
  induction fuel as [|n IH]; intros l H; [exact H|].
  simpl. destruct (state l) eqn:Es; [|exact H].
  destruct (loop_shape_step l H Es) as (l' & -> & H'). apply IH. exact H'.
Qed.

Lemma loop_shape_start : loop_shape timeout interval t0 start.
Proof.
  left. exists 0%nat. apply executor_polling. exact interval_pos.
Qed.

(** A settled wait stays as it is however long the loop goes on. *)
Lemma settle_stable fuel n r :
  settle development condition timeout interval fuel t0 = Some r ->
  settle development condition timeout interval (fuel + n) t0 = Some r.
Proof.
  unfold settle. rewrite drain_add.
  destruct (state (run_loop fuel start)) eqn:Es; [discriminate|].
  rewrite (drain_resolved development condition timeout n _ _ Es), Es.
  intros H; exact H.
Qed.

(** What a settled wait says about the polls: [true] comes from the first
    truthy poll, which came in time; [false] from the timeout, no poll
    before it having been truthy. *)
Lemma settle_sound fuel b t logged :
  settle development condition timeout interval fuel t0 = Some (b, t, logged) ->
  (b = true /\
   exists k, first_fires_at condition interval t0 k /\
             in_time timeout interval t0 k /\
             t = tick interval t0 k + CONFIG.TIMEOUTS.MIN_DELAY) \/
  (b = false /\ timeout <> -1 /\
   t = t0 + Z.max 0 timeout + CONFIG.TIMEOUTS.MIN_DELAY /\
   forall j, (1 <= j)%nat -> tick interval t0 j < t0 + Z.max 0 timeout ->
             ~ fires_at condition interval t0 j).
Proof.
  intros E. destruct (Z.eq_dec timeout (-1)) as [Hn|Hn].
  - destruct b.
    + left. split; [reflexivity|].
      destruct (settle_true_inv development condition timeout interval interval_pos
                  t0 fuel t logged Hn E) as (k & Hk & Ht).
      exists k. split; [exact Hk|]. split; [left; exact Hn|exact Ht].
    + exfalso. exact (settle_never_false development condition timeout interval
                        interval_pos t0 fuel t logged Hn E).
  - destruct (polls_before_timeout_spec timeout interval interval_pos t0)
      as (Hlt & Hge).
    set (m := polls_before_timeout timeout interval) in *.
    pose proof (settle_stable fuel (m + 2) _ E) as E'.
    destruct (first_fires_bounded condition interval t0 m) as [Hmiss|(k & Hk & Hf)].
    + assert (Hall : forall j, (1 <= j)%nat ->
                tick interval t0 j < t0 + Z.max 0 timeout ->
                ~ fires_at condition interval t0 j).
      { intros j Hj Hlt'. apply Hmiss. split; [exact Hj|].
        destruct (Nat.le_gt_cases j m) as [|Hgt]; [assumption|].
        pose proof (tick_mono interval interval_pos t0 (S m) j Hgt). lia. }
      destruct (settle_times_out development condition timeout interval interval_pos
                  t0 (fuel + (m + 2)) Hn Hall ltac:(lia)) as (logged' & E2).
      rewrite E2 in E'. injection E' as <- <- <-.
      right. repeat split; assumption.
    + pose proof Hf as (Hk1 & _).
      assert (Hin : in_time timeout interval t0 k) by (right; apply Hlt; lia).
      destruct (settle_fires development condition timeout interval interval_pos
                  t0 k (fuel + (m + 2)) Hf Hin ltac:(lia)) as (logged' & E2).
      rewrite E2 in E'. injection E' as <- <- <-.
      left. split; [reflexivity|]. exists k. repeat split; try assumption.
      apply Hf. apply Hf.
Qed.
End WaitUntilLife.

(** X1.  When the promise of [waitUntil] is settled, no timer of the wait is
    left in the queue (the timeout and the interval have been cleared and
    the settle timer has fired), and the settled result stays the same
    however many more turns the event loop takes. *)
Theorem waitUntil_settles_once (development : bool)
    (condition : Z -> outcome bool) (timeout interval t0 : Z) (fuel : nat) :
  0 < interval ->
  (forall b,
     state (drain development condition timeout fuel
              (executor timeout interval t0)) = Resolved b ->
     queue (drain development condition timeout fuel
              (executor timeout interval t0)) = []) /\
  (forall r n,
     waitUntil development condition (Some timeout) (Some interval) fuel t0
     = Some r ->
     waitUntil development condition (Some timeout) (Some interval) (fuel + n) t0
     = Some r).
Proof.
  intros Hi. split.
  - intros b R.
    destruct (loop_shape_drain development condition timeout interval Hi t0 fuel _
                (loop_shape_start timeout interval Hi t0))
      as [(j & P & _)|[(b' & t & P & _)|(b' & _ & Q)]]; [congruence|congruence|exact Q].
  - intros r n. unfold waitUntil; simpl. apply settle_stable.
Qed.

Lemma waitUntil_settles_once_witness :
  queue (drain false (fun t => Returns (250 <=? t)) 1000 4
           (executor 1000 100 0)) = [] /\
  waitUntil false (fun t => Returns (250 <=? t)) (Some 1000) (Some 100) (4 + 50) 0
  = Some (true, 320, []).
Proof.
  destruct (waitUntil_settles_once false (fun t => Returns (250 <=? t))
              1000 100 0 4 ltac:(lia)) as (Hq & Hs).
  split; [apply (Hq true); reflexivity|apply Hs; reflexivity].
Defined.

(** X2.  What a result of [waitUntil] tells the caller.  [true] means that
    the predicate returned a truthy value at a poll that came before the
    timeout, and the promise resolved 20 ms after the first such poll.
    [false] means that there was a timeout, that no poll before it returned
    a truthy value, and that the promise resolved 20 ms after the timeout.
    The timeout and the interval are delays a timer reads as given
    ([int32]). *)
Theorem waitUntil_result_sound (development : bool)
    (condition : Z -> outcome bool) (timeout interval t0 : Z) (fuel : nat)
    (b : bool) (t : Z) (logged : list entry) :
  int32 timeout -> int32 interval ->
  0 < interval ->
  waitUntil development condition (Some timeout) (Some interval) fuel t0
  = Some (b, t, logged) ->
  (b = true /\
   exists k, first_fires_at condition interval t0 k /\
             in_time timeout interval t0 k /\
             t = tick interval t0 k + 20) \/
  (b = false /\ timeout <> -1 /\ t = t0 + Z.max 0 timeout + 20 /\
   forall j, (1 <= j)%nat -> tick interval t0 j < t0 + Z.max 0 timeout ->
             ~ fires_at condition interval t0 j).
Proof.
  intros _ _ Hi E. unfold waitUntil in E; simpl in E.
  exact (settle_sound development condition timeout interval Hi t0 fuel b t logged E).
Qed.

Lemma waitUntil_result_sound_witness :
  (true = true /\
   exists k, first_fires_at (fun t => Returns (250 <=? t)) 100 0 k /\
             in_time 1000 100 0 k /\ 320 = tick 100 0 k + 20) \/
  (true = false /\ 1000 <> -1 /\ 320 = 0 + Z.max 0 1000 + 20 /\
   forall j, (1 <= j)%nat -> tick 100 0 j < 0 + Z.max 0 1000 ->
             ~ fires_at (fun t => Returns (250 <=? t)) 100 0 j).
Proof.
  apply (waitUntil_result_sound false (fun t => Returns (250 <=? t)) 1000 100 0 4
           true 320 []);
    [unfold int32; lia|unfold int32; lia|lia|reflexivity].
Defined.

(** X3.  A timeout that is not longer than the interval (zero and negative
    ones, other than -1, included) leaves no room for a poll: whatever the
    predicate, also one that holds from the start, the wait resolves
    [false], 20 ms after the timeout.  The timeout and the interval are
    delays a timer reads as given ([int32]). *)
Theorem waitUntil_short_timeout (development : bool)
    (condition : Z -> outcome bool) (timeout interval t0 : Z) (fuel : nat) :
  int32 timeout -> int32 interval ->
  0 < interval -> timeout <> -1 -> timeout <= interval -> (2 <= fuel)%nat ->
  exists logged,
    waitUntil development condition (Some timeout) (Some interval) fuel t0
    = Some (false, t0 + Z.max 0 timeout + 20, logged).
Proof.
  intros _ _ Hi Hn Hle Hfuel. unfold waitUntil; simpl.
  apply (settle_times_out development condition timeout interval Hi t0 fuel Hn).
  - intros j Hj Hlt. exfalso. unfold tick in Hlt. nia.
  - assert (polls_before_timeout timeout interval = 0%nat) as ->; [|lia].
    unfold polls_before_timeout.
    destruct (Z.eq_dec (Z.max 0 timeout) 0) as [E|E].
    + rewrite E. replace ((0 - 1) / interval) with (-1); [reflexivity|].
      apply Z.div_unique with (r := interval - 1); lia.
    + rewrite Z.div_small by lia. reflexivity.
Qed.

Lemma waitUntil_short_timeout_witness :
  (exists logged,
     waitUntil false (fun _ => Returns true) (Some 0) (Some 100) 2 0
     = Some (false, 20, logged)) /\
  (exists logged,
     waitUntil false (fun _ => Returns true) (Some 100) (Some 100) 2 0
     = Some (false, 120, logged)).
Proof.
  split.
  - apply (waitUntil_short_timeout false (fun _ => Returns true) 0 100 0 2);
      unfold int32; lia.
  - apply (waitUntil_short_timeout false (fun _ => Returns true) 100 100 0 2);
      unfold int32; lia.
Defined.

Lemma clear_if_set_console id l : console (clear_if_set id l) = console l.
Proof. destruct id as [[|n]|]; reflexivity. Qed.

Lemma complete_console b l : console (complete b l) = console l.
Proof. unfold complete, setTimeout. simpl. now rewrite !clear_if_set_console. Qed.

Lemma call_silent (condition : Z -> outcome bool) (timeout : Z) cb l l' :
  (forall t e, condition t <> Throws e) ->
  call false condition timeout cb l = Returns l' -> console l' = console l.
Proof.
  intros Hc. destruct cb as [| |r]; unfold call, try_catch, Logger.debug.
  - intros [= <-]. now rewrite complete_console.
  - pose proof (Hc (clock l)) as Hx.
    destruct (condition (clock l)) as [[|]|e].
    + intros [= <-]. now rewrite complete_console.
    + intros [= <-]. reflexivity.
    + exfalso. exact (Hx e eq_refl).
  - destruct (state l); intros [= <-]; reflexivity.
Qed.

Lemma step_silent (condition : Z -> outcome bool) (timeout : Z) l l' :
  (forall t e, condition t <> Throws e) ->
  step false condition timeout l = Some l' -> console l' = console l.
Proof.
  intros Hc. unfold step, fire.
  destruct (earliest (queue l)) as [tm|]; [|discriminate]. intros [= <-].
  match goal with |- context [call _ _ _ ?cb ?x] =>
    destruct (call false condition timeout cb x) as [l1|e] eqn:E end;
    [|reflexivity].
  apply (call_silent _ _ _ _ _ Hc) in E. exact E.
Qed.

(** X4.  Outside development mode a wait on a predicate that does not throw
    writes nothing to the console, however it ends. *)
Theorem waitUntil_silent (condition : Z -> outcome bool)
    (timeout interval : option Z) (fuel : nat) (t0 : Z) (b : bool) (t : Z)
    (logged : list entry) :
  (forall t e, condition t <> Throws e) ->
  waitUntil false condition timeout interval fuel t0 = Some (b, t, logged) ->
  logged = [].
Proof.
  intros Hc. unfold waitUntil, settle.
  set (T := default CONFIG.TIMEOUTS.DEFAULT_WAIT timeout).
  set (I := default CONFIG.TIMEOUTS.INTERVAL interval).
  assert (H : forall n l, console (drain false condition T n l) = console l).
  { induction n as [|n IH]; intros l; simpl; [reflexivity|].
    destruct (state l); [|reflexivity].
    destruct (step false condition T l) as [l'|] eqn:E; [|reflexivity].
    rewrite IH. eauto using step_silent. }
  destruct (state _); [discriminate|]. intros [= _ _ <-].
  rewrite H. unfold executor. destruct (T =? -1); reflexivity.
Qed.

Lemma waitUntil_silent_witness :
  match waitUntil false (fun t => Returns (250 <=? t)) (Some 1000) None 4 0 with
  | Some (_, _, logged) => logged = []
  | None => False
  end.
Proof.
  destruct (waitUntil false (fun t => Returns (250 <=? t)) (Some 1000) None 4 0)
    as [[[b t] logged]|] eqn:E; [|discriminate].
  apply (waitUntil_silent (fun t => Returns (250 <=? t)) (Some 1000) None 4 0
           b t logged); [intros t' e; discriminate|exact E].
Defined.

(** ** The helpers *)

(** [elementExists(elements, index)] holds exactly when the index is
    within the collection, so never on an empty one; at index 0 it is
    [hasElements], which holds exactly for a non-empty collection. *)
Theorem elementExists_bounds (elements : list element) (index : nat) :
  (elementExists elements index = true <-> (index < length elements)%nat) /\
  elementExists elements 0 = hasElements elements /\
  (hasElements elements = true <-> elements <> []).
Proof.
  split; [|split].
  - unfold elementExists. destruct elements as [|e l].
    + simpl. split; [discriminate|lia].
    + destruct (nth_error (e :: l) index) eqn:E.
      * split; [intros _|reflexivity]. apply nth_error_Some. congruence.
      * split; [discriminate|]. intros H. apply nth_error_Some in H. congruence.
  - destruct elements; reflexivity.
  - destruct elements; simpl; split; congruence.
Qed.

Lemma append_String (c : ascii) (a b : string) :
  (String c a ++ b)%string = String c (a ++ b)%string.
Proof. reflexivity. Qed.

Lemma prefix_append (a b : string) :
  String.prefix a b = true <-> exists post, b = (a ++ post)%string.
Proof.
  revert b. induction a as [|c a IH]; intros b.
  - split; [intros _; exists b; reflexivity|intros _; destruct b; reflexivity].
  - destruct b as [|d b]; simpl;
      [split; [discriminate|intros (post & E); discriminate]|].
    destruct (Ascii.ascii_dec c d) as [->|Hne].
    + rewrite IH. split; intros (post & E); exists post;
        rewrite append_String in *; congruence.
    + split; [discriminate|]. intros (post & E).
      rewrite append_String in E. congruence.
Qed.

(** [includes] holds exactly for the substrings. *)
Lemma includes_substring (needle hay : string) :
  includes needle hay = true <->
  exists pre post, hay = (pre ++ needle ++ post)%string.
Proof.
  assert (Hun : forall h, includes needle h =
                  if String.prefix needle h then true
                  else match h with
                       | EmptyString => false
                       | String _ rest => includes needle rest
                       end) by (intros [|c h]; reflexivity).
  induction hay as [|c hay IH]; rewrite Hun.
  - destruct (String.prefix needle EmptyString) eqn:E.
    + apply prefix_append in E. destruct E as (post & E).
      split; [intros _; exists EmptyString, post; exact E|reflexivity].
    + split; [discriminate|]. intros ([|d pre] & post & H).
      * assert (String.prefix needle EmptyString = true)
          by (apply prefix_append; exists post; exact H). congruence.
      * discriminate.
  - destruct (String.prefix needle (String c hay)) eqn:E.
    + apply prefix_append in E. destruct E as (post & E).
      split; [intros _; exists EmptyString, post; exact E|reflexivity].
    + rewrite IH. split.
      * intros (pre & post & ->). exists (String c pre), post. reflexivity.
      * intros ([|d pre] & post & H).
        -- assert (String.prefix needle (String c hay) = true)
             by (apply prefix_append; exists post; exact H). congruence.
        -- rewrite append_String in H. injection H as _ ->. eauto.
Qed.

(** X5.  [checkUrl(urlPart)] holds exactly when the page's URL is some
    text, then [urlPart], then some text; in particular for the empty
    [urlPart] it holds on every page. *)
Theorem checkUrl_substring (pg : page) (urlPart : string) :
  (checkUrl pg urlPart = true <->
   exists before after, URL pg = (before ++ urlPart ++ after)%string) /\
  checkUrl pg EmptyString = true.
Proof.
  split; [apply includes_substring|].
  apply includes_substring. exists EmptyString, (URL pg). reflexivity.
Qed.

(** [setStyle] on an element sets the one property it is given: that
    property of that element reads the new value afterwards, every other
    property of every element reads as before, and nothing else happens:
    no log, no event, no value. *)
Theorem setStyle_sets_one_property (el : element) (property v : string)
    (w : world) :
  exists w',
    setStyle (Some el) property v w = (Ok tt, w') /\
    style w' !! (el, property) = Some v /\
    (forall key, key <> (el, property) -> style w' !! key = style w !! key) /\
    out w' = out w /\ dispatched w' = dispatched w /\ value w' = value w /\
    navigated w' = navigated w /\ now w' = now w.
Proof.
  eexists. split; [reflexivity|]. simpl. split; [apply lookup_insert_eq|].
  split; [|repeat split].
  intros key Hne. apply lookup_insert_ne. congruence.
Qed.

(** X6.  [setNativeValue] on an element makes it hold the new value, tells
    the element's value tracker, where there is one, the value held before,
    and then dispatches one simulated input event.  Two calls in a row on
    the same element therefore report the first value to the tracker at the
    second call. *)
Theorem setNativeValue_reports_last_value (h : host) (el : element)
    (v1 v2 : string) (w : world) :
  let pg := page_at h (now w) in
  let before := default (defaultValue pg el) (value w !! el) in
  let told (last : string) :=
    if valueTracker pg el then [Tracker_setValue el last] else [] in
  (exists w1,
     setNativeValue h (Some el) v1 w = (Ok tt, w1) /\
     value w1 !! el = Some v1 /\
     dispatched w1 = dispatched w ++ told before ++ [Input_simulated el] /\
     style w1 = style w /\ out w1 = out w /\ now w1 = now w) /\
  (exists w2,
     (setNativeValue h (Some el) v1 >> setNativeValue h (Some el) v2) w
     = (Ok tt, w2) /\
     value w2 !! el = Some v2 /\
     dispatched w2 = dispatched w ++ told before ++ [Input_simulated el]
                       ++ told v1 ++ [Input_simulated el]).
Proof.
  cbv zeta.
  assert (H1 : forall w, exists w1,
    setNativeValue h (Some el) v1 w = (Ok tt, w1) /\
    value w1 !! el = Some v1 /\
    dispatched w1 =
      dispatched w ++
      (if valueTracker (page_at h (now w)) el
       then [Tracker_setValue el
               (default (defaultValue (page_at h (now w)) el) (value w !! el))]
       else []) ++ [Input_simulated el] /\
    style w1 = style w /\ out w1 = out w /\ now w1 = now w).
  { intros w0. unfold setNativeValue, try_catchM, bind, document.
    destruct (valueTracker (page_at h (now w0)) el); eexists;
      (split; [reflexivity|]); simpl; rewrite lookup_insert_eq;
      repeat split; rewrite <- ?app_assoc; reflexivity. }
  split; [apply H1|].
  destruct (H1 w) as (w1 & E1 & V1 & D1 & _ & _ & N1).
  rewrite (bind_Ok _ _ _ tt w1 E1).
  unfold setNativeValue, try_catchM, bind, document. rewrite N1, V1.
  destruct (valueTracker (page_at h (now w)) el); eexists;
    (split; [reflexivity|]); simpl; rewrite lookup_insert_eq;
    (split; [reflexivity|]); rewrite D1; rewrite <- ?app_assoc; reflexivity.
Qed.

(** ** What a piece of script can and cannot touch *)

Section Effects.
Variable R : world -> world -> Prop.
Hypothesis R_refl : forall w, R w w.
Hypothesis R_trans : forall w1 w2 w3, R w1 w2 -> R w2 w3 -> R w1 w3.
Hypothesis R_now : forall t w, R w (set_now t w).
Hypothesis R_out : forall x w, R w (set_out x w).
Hypothesis R_style : forall m w, R w (set_style m w).
Hypothesis R_value : forall m w, R w (set_value m w).
Hypothesis R_click :
  forall e w, is_click e = true -> R w (set_dispatched (dispatched w ++ [e]) w).
Hypothesis R_event : forall e w, R w (set_dispatched (dispatched w ++ [e]) w).

Lemma respects_ret {A : Type} (a : A) : Respects R (ret a).
Proof. intros w. apply R_refl. Qed.

Lemma respects_throw {A : Type} e : Respects R (@throw A e).
Proof. intros w. apply R_refl. Qed.

Lemma respects_bind {A B : Type} (m : M A) (k : A -> M B) :
  Respects R m -> (forall a, Respects R (k a)) -> Respects R (bind m k).
Proof.
  intros Hm Hk w. unfold bind. specialize (Hm w).
  destruct (m w) as [[a|e|] w1]; simpl in *; [|exact Hm|exact Hm].
  eapply R_trans; [exact Hm|apply Hk].
Qed.

Lemma respects_try_catch {A : Type} (body : M A) (handler : string -> M A) :
  Respects R body -> (forall e, Respects R (handler e)) ->
  Respects R (try_catchM body handler).
Proof.
  intros Hm Hk w. unfold try_catchM. specialize (Hm w).
  destruct (body w) as [[a|e|] w1]; simpl in *; [exact Hm| |exact Hm].
  eapply R_trans; [exact Hm|apply Hk].
Qed.

Lemma respects_forEach {A : Type} (l : list A) (f : A -> M unit) :
  (forall a, Respects R (f a)) -> Respects R (forEach l f).
Proof.
  intros Hf. induction l as [|a l IH]; simpl.
  - apply respects_ret.
  - apply respects_bind; [apply Hf|intros _; exact IH].
Qed.

Lemma respects_Logger_log message : Respects R (Logger_log message).
Proof. intros w. apply R_out. Qed.

Lemma respects_Logger_error message : Respects R (Logger_error message).
Proof. intros w. apply R_out. Qed.

Lemma respects_wait ms : Respects R (wait ms).
Proof. intros w. apply R_now. Qed.

Lemma respects_document h : Respects R (document h).
Proof. intros w. apply R_refl. Qed.

Lemma respects_await_waitUntil h fuel condition timeout interval :
  Respects R (await_waitUntil h fuel condition timeout interval).
Proof.
  intros w. unfold await_waitUntil.
  destruct (waitUntil _ _ _ _ _ _) as [[[b t] logged]|]; simpl; [|apply R_refl].
  eapply R_trans; [apply (R_now t)|apply R_out].
Qed.

Lemma respects_configLoad h : Respects R (configLoad h).
Proof.
  unfold configLoad. apply respects_bind; [apply respects_Logger_log|].
  intros _ w. destruct (configLoad_reply h (now w)); apply R_now.
Qed.

Lemma respects_setStyle el property v : Respects R (setStyle el property v).
Proof.
  destruct el as [el|]; simpl; [|apply respects_Logger_error].
  intros w. apply R_style.
Qed.

Lemma respects_clickElement h el : Respects R (clickElement h el).
Proof.
  destruct el as [el|]; simpl; [|apply respects_Logger_error].
  intros w. unfold try_catchM, bind, document.
  destruct (click_defined _ _); simpl; apply R_click; reflexivity.
Qed.

Lemma respects_setNativeValue h el v : Respects R (setNativeValue h el v).
Proof.
  destruct el as [el|]; simpl; [|apply respects_Logger_error].
  intros w. unfold try_catchM, bind, document. simpl.
  destruct (valueTracker _ _).
  - eapply R_trans; [apply R_value|]. eapply R_trans; apply R_event.
  - eapply R_trans; [apply R_value|apply R_event].
Qed.

Lemma respects_getProtectVersion h : Respects R (getProtectVersion h).
Proof.
  intros w. rewrite getProtectVersion_first_match. apply R_refl.
Qed.

Ltac respects :=
  repeat first
    [ apply respects_ret
    | apply respects_throw
    | apply respects_Logger_log
    | apply respects_Logger_error
    | apply respects_wait
    | apply respects_setStyle
    | apply respects_clickElement
    | apply respects_setNativeValue
    | apply respects_document
    | apply respects_configLoad
    | apply respects_await_waitUntil
    | apply respects_getProtectVersion
    | apply respects_bind; [|intros ?]
    | apply respects_try_catch; [|intros ?]
    | apply respects_forEach; intros ?
    | progress cbv zeta
    | match goal with
      | |- Respects _ (if ?b then _ else _) => destruct b
      | |- Respects _ (match ?o with Some _ => _ | None => _ end) => destruct o
      end ].

Lemma respects_closeAllModals h fuel : Respects R (closeAllModals h fuel).
Proof. unfold closeAllModals. respects. Qed.

Lemma respects_handleLiveviewV2 h fuel : Respects R (handleLiveviewV2 h fuel).
Proof. unfold handleLiveviewV2. respects; apply respects_closeAllModals. Qed.

Lemma respects_handleLiveviewV3 h fuel : Respects R (handleLiveviewV3 h fuel).
Proof.
  unfold handleLiveviewV3, querySelector_within.
  respects; apply respects_closeAllModals.
Qed.

Lemma respects_handleLiveviewV4andV5 h fuel :
  Respects R (handleLiveviewV4andV5 h fuel).
Proof. unfold handleLiveviewV4andV5. respects; apply respects_closeAllModals. Qed.

Lemma respects_handleLogin h fuel : Respects R (handleLogin h fuel).
Proof. unfold handleLogin. respects. Qed.

Lemma respects_dashboard_dispatch h fuel version :
  Respects R (dashboard_dispatch h fuel version).
Proof.
  unfold dashboard_dispatch. destruct (classify version);
    [| |apply respects_Logger_error];
    repeat (apply respects_bind;
            [first [apply respects_handleLiveviewV3
                   |apply respects_handleLiveviewV4andV5
                   |apply respects_wait]|intros _]);
    apply respects_ret.
Qed.
End Effects.

Ltac effects_side :=
  lazymatch goal with
  | |- Respects _ _ => fail
  | |- _ =>
      solve [ unfold stays, login_effects; intros; simpl in *; intuition congruence ]
  end.

Lemma layout_effects_refl w : layout_effects w w.
Proof.
  repeat split. exists []. split; [symmetry; apply app_nil_r|reflexivity].
Qed.

Lemma layout_effects_trans w1 w2 w3 :
  layout_effects w1 w2 -> layout_effects w2 w3 -> layout_effects w1 w3.
Proof.
  intros (V1 & N1 & c1 & D1 & C1) (V2 & N2 & c2 & D2 & C2).
  split; [congruence|]. split; [congruence|].
  exists (c1 ++ c2). split; [rewrite D2, D1, app_assoc; reflexivity|].
  rewrite forallb_app, C1, C2. reflexivity.
Qed.

Lemma layout_effects_click e w :
  is_click e = true ->
  layout_effects w (set_dispatched (dispatched w ++ [e]) w).
Proof.
  intros He. repeat split. exists [e]. split; [reflexivity|].
  simpl. rewrite He. reflexivity.
Qed.

(** X7.  The layout drivers and [closeAllModals] never assign an input
    value and never navigate, and the only events they send to the page are
    clicks. *)
Theorem layout_drivers_effects (h : host) (fuel : nat) :
  Respects layout_effects (closeAllModals h fuel) /\
  Respects layout_effects (handleLiveviewV2 h fuel) /\
  Respects layout_effects (handleLiveviewV3 h fuel) /\
  Respects layout_effects (handleLiveviewV4andV5 h fuel).
Proof.
  split; [|split; [|split]];
    first [apply respects_closeAllModals | apply respects_handleLiveviewV2
          | apply respects_handleLiveviewV3 | apply respects_handleLiveviewV4andV5];
    first [exact layout_effects_refl | exact layout_effects_trans
          | exact layout_effects_click
          | intros; unfold layout_effects; simpl; repeat split; exists [];
            split; [symmetry; apply app_nil_r|reflexivity] ].
Qed.

(** X8.  [handleLogin] never assigns a style and never navigates: what it
    does to the page is to fill input values and send events. *)
Theorem handleLogin_effects (h : host) (fuel : nat) :
  Respects login_effects (handleLogin h fuel).
Proof. apply respects_handleLogin; effects_side. Qed.

(** ** Closing the modals *)

Lemma clickElement_sends h el w :
  clickElement h (Some el) w =
  (Ok tt, set_dispatched (dispatched w ++ [click_of (page_at h (now w)) el]) w).
Proof.
  unfold clickElement, try_catchM, bind, document, click_of.
  destruct (click_defined _ _); reflexivity.
Qed.

Lemma forEach_modal_clicks h pg (portals : list element) : forall w,
  page_at h (now w) = pg ->
  exists w',
    forEach portals
      (fun modalPortal =>
         let buttons := querySelectorAll_in pg modalPortal
                          CONFIG.SELECTORS.MODAL_CLOSE_BUTTON in
         if elementExists buttons 0 then clickElement h (nth_error buttons 0)
         else ret tt) w = (Ok tt, w') /\
    dispatched w' =
      dispatched w ++
      flat_map (fun modalPortal =>
                  match querySelectorAll_in pg modalPortal
                          CONFIG.SELECTORS.MODAL_CLOSE_BUTTON with
                  | button :: _ => [click_of pg button]
                  | [] => []
                  end) portals /\
    now w' = now w.
Proof.
  induction portals as [|p portals IH]; intros w Hpg.
  - exists w. simpl. rewrite app_nil_r. repeat split.
  - simpl. destruct (querySelectorAll_in pg p CONFIG.SELECTORS.MODAL_CLOSE_BUTTON)
      as [|button rest] eqn:Eb; simpl.
    + unfold bind at 1. simpl. apply IH. exact Hpg.
    + rewrite (bind_Ok _ _ _ tt _ (clickElement_sends h button w)).
      destruct (IH (set_dispatched
                      (dispatched w ++ [click_of (page_at h (now w)) button]) w)
                  Hpg) as (w' & E & D & N).
      exists w'. split; [exact E|]. split; [|exact N].
      rewrite D. simpl. rewrite Hpg, <- app_assoc. reflexivity.
Qed.

(** X9.  [closeAllModals] sends exactly one click for each modal container
    that holds a close control, to the first such control and in document
    order: a native click where the control has a [click] method, a
    synthesized one otherwise.  It sends nothing else, whatever its wait
    then gives, and it lets no error out. *)
Theorem closeAllModals_clicks (h : host) (fuel : nat) (w : world) :
  dispatched (snd (closeAllModals h fuel w))
  = dispatched w ++ modal_clicks (page_at h (now w)) /\
  forall e, fst (closeAllModals h fuel w) <> Err e.
Proof.
  split.
  - unfold closeAllModals, try_catchM. rewrite bind_document.
    set (pg := page_at h (now w)).
    assert (exists w1,
      (if hasElements (querySelectorAll pg CONFIG.SELECTORS.MODAL_PORTAL)
       then forEach (querySelectorAll pg CONFIG.SELECTORS.MODAL_PORTAL)
              (fun modalPortal =>
                 let buttons := querySelectorAll_in pg modalPortal
                                  CONFIG.SELECTORS.MODAL_CLOSE_BUTTON in
                 if elementExists buttons 0
                 then clickElement h (nth_error buttons 0)
                 else ret tt)
       else ret tt) w = (Ok tt, w1) /\
      dispatched w1 = dispatched w ++ modal_clicks pg) as (w1 & E1 & D1).
    { unfold modal_clicks.
      destruct (querySelectorAll pg CONFIG.SELECTORS.MODAL_PORTAL) as [|p ps] eqn:Ep.
      - exists w. simpl. rewrite app_nil_r. split; reflexivity.
      - change (hasElements (p :: ps)) with true. cbv iota.
        destruct (forEach_modal_clicks h pg (p :: ps) w eq_refl) as (w1 & E & D & _).
        exists w1. split; [exact E|exact D]. }
    rewrite (bind_Ok _ _ _ tt w1 E1). rewrite <- D1.
    unfold await_waitUntil.
    destruct (waitUntil _ _ _ _ _ _) as [[[b t] logged]|]; reflexivity.
  - intros e. apply try_catch_returns. intros e' w'.
    apply (log_and_return_false (fun e => [_; Val e])).
Qed.

(** X10.  When at the first poll no modal container has a child (also when
    there is no modal container at all), [closeAllModals] returns [true]
    one interval and the settle delay, 120 ms, after it was called. *)
Theorem closeAllModals_nothing_open (h : host) (fuel : nat) (w : world) :
  forallb (fun e => (children_length (page_at h (now w + 100)) e =? 0)%nat)
    (querySelectorAll (page_at h (now w + 100)) CONFIG.SELECTORS.MODAL_PORTAL)
  = true ->
  (2 <= fuel)%nat ->
  exists w', closeAllModals h fuel w = (Ok true, w') /\ now w' = now w + 120.
Proof.
  intros Hc Hf.
  unfold closeAllModals, try_catchM. rewrite bind_document.
  set (pg := page_at h (now w)).
  destruct (hasElements (querySelectorAll pg CONFIG.SELECTORS.MODAL_PORTAL)) eqn:Eh.
  - destruct (forEach_modal_clicks h pg
                (querySelectorAll pg CONFIG.SELECTORS.MODAL_PORTAL) w eq_refl)
      as (w1 & E & _ & N).
    rewrite (bind_Ok _ _ _ tt w1 E).
    destruct (settle_fires (NODE_ENV_development h)
                (fun t => Returns
                   (forallb (fun e => (children_length (page_at h t) e =? 0)%nat)
                      (querySelectorAll (page_at h t) CONFIG.SELECTORS.MODAL_PORTAL)))
                CONFIG.TIMEOUTS.DEFAULT_WAIT CONFIG.TIMEOUTS.INTERVAL
                ltac:(reflexivity) (now w1) 1 fuel) as (logged & Es).
    { split; [lia|]. split; [|intros j Hj; lia].
      unfold fires_at, tick. rewrite N.
      change (Z.of_nat 1 * CONFIG.TIMEOUTS.INTERVAL) with 100. rewrite Hc.
      reflexivity. }
    { right. unfold tick. change (Z.of_nat 1 * CONFIG.TIMEOUTS.INTERVAL) with 100.
      change (Z.max 0 CONFIG.TIMEOUTS.DEFAULT_WAIT) with 60000. lia. }
    { lia. }
    unfold await_waitUntil, waitUntil. simpl default. rewrite Es.
    eexists. split; [reflexivity|]. simpl. unfold tick. rewrite N.
    change (Z.of_nat 1 * CONFIG.TIMEOUTS.INTERVAL) with 100.
    unfold CONFIG.TIMEOUTS.MIN_DELAY. lia.
  - rewrite (bind_Ok _ _ _ tt w eq_refl).
    destruct (settle_fires (NODE_ENV_development h)
                (fun t => Returns
                   (forallb (fun e => (children_length (page_at h t) e =? 0)%nat)
                      (querySelectorAll (page_at h t) CONFIG.SELECTORS.MODAL_PORTAL)))
                CONFIG.TIMEOUTS.DEFAULT_WAIT CONFIG.TIMEOUTS.INTERVAL
                ltac:(reflexivity) (now w) 1 fuel) as (logged & Es).
    { split; [lia|]. split; [|intros j Hj; lia].
      unfold fires_at, tick.
      change (Z.of_nat 1 * CONFIG.TIMEOUTS.INTERVAL) with 100. rewrite Hc.
      reflexivity. }
    { right. unfold tick. change (Z.of_nat 1 * CONFIG.TIMEOUTS.INTERVAL) with 100.
      change (Z.max 0 CONFIG.TIMEOUTS.DEFAULT_WAIT) with 60000. lia. }
    { lia. }
    unfold await_waitUntil, waitUntil. simpl default. rewrite Es.
    eexists. split; [reflexivity|]. simpl. unfold tick.
    change (Z.of_nat 1 * CONFIG.TIMEOUTS.INTERVAL) with 100.
    unfold CONFIG.TIMEOUTS.MIN_DELAY. lia.
Qed.

Lemma closeAllModals_nothing_open_witness :
  exists w',
    closeAllModals (static_host (blank_page "about:blank") None) 2 (initial_world 0)
    = (Ok true, w') /\ now w' = 0 + 120.
Proof.
  apply (closeAllModals_nothing_open (static_host (blank_page "about:blank") None)
           2 (initial_world 0)); [reflexivity|lia].
Defined.

(** ** The orchestrator *)

Ltac stays_tac :=
  repeat (first
    [ apply respects_handleLogin
    | apply respects_handleLiveviewV2
    | apply respects_dashboard_dispatch
    | apply respects_getProtectVersion
    | apply respects_configLoad
    | apply respects_await_waitUntil
    | apply respects_Logger_log
    | apply respects_Logger_error
    | apply respects_document
    | apply respects_ret
    | apply respects_bind
    | apply respects_try_catch
    | match goal with
      | |- Respects _ (if ?b then _ else _) => destruct b
      | |- Respects _ (match ?o with Some _ => _ | None => _ end) => destruct o
      end ]; try effects_side; intros).

Lemma once_stays {A : Type} (m : M A) :
  Respects stays m -> Respects navigates_once m.
Proof. intros H w. left. apply H. Qed.

Lemma once_bind_stays {A B : Type} (m : M A) (k : A -> M B) :
  Respects stays m -> (forall a, Respects navigates_once (k a)) ->
  Respects navigates_once (bind m k).
Proof.
  intros Hm Hk w. unfold bind. specialize (Hm w). unfold stays in Hm.
  destruct (m w) as [[a|e|] w1]; simpl in *; [|left; exact Hm|left; exact Hm].
  specialize (Hk a w1). unfold navigates_once in *. rewrite <- Hm. exact Hk.
Qed.

Lemma once_try_catch {A : Type} (body : M A) (handler : string -> M A) :
  Respects navigates_once body -> (forall e, Respects stays (handler e)) ->
  Respects navigates_once (try_catchM body handler).
Proof.
  intros Hm Hk w. unfold try_catchM. specialize (Hm w).
  destruct (body w) as [[a|e|] w1]; simpl in *; [exact Hm| |exact Hm].
  specialize (Hk e w1). unfold stays in Hk. unfold navigates_once in *.
  rewrite Hk. exact Hm.
Qed.

Lemma once_session_watchdog h fuel config :
  Respects navigates_once (session_watchdog h fuel config).
Proof.
  unfold session_watchdog.
  apply once_bind_stays; [stays_tac|]. intros pg.
  destruct (localStorage_getItem pg _) as [marker|]; [|apply once_stays; stays_tac].
  destruct (truthy_string marker); [|apply once_stays; stays_tac]. cbv zeta.
  apply once_bind_stays; [stays_tac|]. intros _.
  apply once_bind_stays; [stays_tac|]. intros _.
  apply once_bind_stays; [stays_tac|]. intros _.
  intros w. right; right. reflexivity.
Qed.

(** X11.  One [run] navigates at most once: it redirects to the configured
    URL, or it reloads the page from the session watchdog, or it does
    neither; and it lets no error out, whatever happens inside. *)
Theorem run_navigates_once (h : host) (fuel : nat) (w : world) :
  navigates_once w (snd (run h fuel w)) /\
  forall e, fst (run h fuel w) <> Err e.
Proof.
  split.
  - revert w. change (Respects navigates_once (run h fuel)). unfold run.
    apply once_try_catch; [|intros e; stays_tac].
    apply once_bind_stays; [stays_tac|]. intros _.
    apply once_bind_stays; [stays_tac|]. intros [config|];
      [|apply once_stays; stays_tac].
    apply once_bind_stays; [stays_tac|]. intros pg.
    destruct (_ || _); [apply once_stays; stays_tac|].
    destruct (negb _).
    { apply once_bind_stays; [stays_tac|]. intros _ w. right; left.
      eexists. reflexivity. }
    apply once_bind_stays; [stays_tac|]. intros loadingScreenVisible.
    apply once_bind_stays; [stays_tac|]. intros _.
    apply once_bind_stays; [stays_tac|]. intros pg1.
    apply once_bind_stays; [stays_tac|]. intros proceed.
    destruct (negb proceed); [apply once_stays; stays_tac|].
    apply once_bind_stays; [stays_tac|]. intros pg2.
    destruct (checkUrl pg2 "protect/liveview"); [apply once_stays; stays_tac|].
    apply once_bind_stays; [stays_tac|]. intros versionVisible.
    apply once_bind_stays; [stays_tac|]. intros detected. cbv zeta.
    apply once_bind_stays; [stays_tac|]. intros _.
    apply once_bind_stays; [stays_tac|]. intros pg3.
    apply once_bind_stays; [stays_tac|]. intros _.
    apply once_session_watchdog.
  - intros e. apply try_catch_returns. intros e' w'. eexists. eexists. reflexivity.
Qed.

Lemma configLoad_eq h w :
  configLoad h w =
  (match configLoad_reply h (now w) with
   | Returns c => Ok c
   | Throws e => Err e
   end,
   set_now (now w + Z.max 0 (configLoad_latency h (now w)))
     (snd (Logger_log [Lit "Loading configuration"] w))).
Proof.
  unfold configLoad. rewrite bind_Logger_log. simpl.
  destruct (configLoad_reply h (now w)); reflexivity.
Qed.

Lemma now_Logger_log message w : now (snd (Logger_log message w)) = now w.
Proof. reflexivity. Qed.

Lemma now_set_now t w : now (set_now t w) = t.
Proof. reflexivity. Qed.

(** X12.  Without a configuration [run] does nothing to the page.  When the
    stored configuration is null it logs that none was found; when loading
    it fails, the error is caught and logged.  In both cases no style, no
    value, no event and no navigation: only the console grows, and the
    time the loading took has passed. *)
Theorem run_without_configuration (h : host) (fuel : nat) (w : world) :
  let after (last : entry) :=
    World (now w + Z.max 0 (configLoad_latency h (now w)))
          (style w) (value w) (dispatched w)
          (out w ++ [Entry LOG [Lit "Starting UniFi Protect Viewer"];
                     Entry LOG [Lit "Loading configuration"]; last])
          (navigated w) in
  (configLoad_reply h (now w) = Returns None ->
   run h fuel w = (Ok tt, after (Entry ERROR [Lit "No configuration found"]))) /\
  (forall e,
     configLoad_reply h (now w) = Throws e ->
     run h fuel w
     = (Ok tt, after (Entry ERROR [Lit "Error in run function:"; Val e]))).
Proof.
  cbv zeta. split; [intros E|intros e E];
    unfold run, try_catchM; rewrite bind_Logger_log;
    unfold bind at 1; rewrite configLoad_eq; simpl; rewrite E; simpl;
    unfold Logger_error, Logger.log, Logger.error, set_now, set_out; simpl;
    rewrite <- !app_assoc; reflexivity.
Qed.

Lemma run_without_configuration_witness :
  run (static_host (blank_page "about:blank") None) 0 (initial_world 0)
  = (Ok tt,
     World 0 ∅ ∅ []
       [Entry LOG [Lit "Starting UniFi Protect Viewer"];
        Entry LOG [Lit "Loading configuration"];
        Entry ERROR [Lit "No configuration found"]] []).
Proof.
  destruct (run_without_configuration (static_host (blank_page "about:blank") None)
              0 (initial_world 0)) as (H & _).
  apply H. reflexivity.
Defined.

(** X13.  [run] ends before its first wait in two more cases, decided on
    the page as it is when the configuration has been loaded.  On the
    configuration screen (a URL containing index.html or config.html) it
    leaves the page alone.  Otherwise, when the URL does not contain the
    configured URL, it assigns the configured URL to the location, and does
    nothing else; a configuration without a url is looked for, and
    navigated to, as the text undefined. *)
Theorem run_early_exits (h : host) (fuel : nat) (w : world) (cfg : config) :
  let t := now w + Z.max 0 (configLoad_latency h (now w)) in
  let pg := page_at h t in
  let logs (last : entry) :=
    out w ++ [Entry LOG [Lit "Starting UniFi Protect Viewer"];
              Entry LOG [Lit "Loading configuration"]; last] in
  configLoad_reply h (now w) = Returns (Some cfg) ->
  (checkUrl pg "index.html" || checkUrl pg "config.html" = true ->
   run h fuel w
   = (Ok tt,
      World t (style w) (value w) (dispatched w)
        (logs (Entry LOG [Lit "On configuration page, no customization needed"]))
        (navigated w))) /\
  (checkUrl pg "index.html" || checkUrl pg "config.html" = false ->
   checkUrl pg (js_string (url cfg)) = false ->
   run h fuel w
   = (Ok tt,
      World t (style w) (value w) (dispatched w)
        (logs (Entry LOG [Lit "Redirecting to configured URL: ";
                          Val (js_string (url cfg))]))
        (navigated w ++ [Assign_href (js_string (url cfg))]))) /\
  js_string None = "undefined".
Proof.
  cbv zeta. intros E. split; [|split; [|reflexivity]].
  - intros Hc. unfold run, try_catchM. rewrite bind_Logger_log.
    unfold bind at 1. rewrite configLoad_eq, now_Logger_log, E. cbv beta iota.
    rewrite bind_document, now_set_now, Hc. cbv iota.
    unfold Logger_log, Logger.log, set_now, set_out; simpl.
    rewrite <- !app_assoc. reflexivity.
  - intros Hc Hu. unfold run, try_catchM. rewrite bind_Logger_log.
    unfold bind at 1. rewrite configLoad_eq, now_Logger_log, E. cbv beta iota.
    rewrite bind_document, now_set_now, Hc, Hu. cbv iota. simpl negb. cbv iota.
    unfold bind, Logger_log, Logger.log, set_now, set_out, set_navigated; simpl.
    rewrite <- !app_assoc. reflexivity.
Qed.

Lemma run_early_exits_witness :
  run (static_host (blank_page "file:///app/src/html/config.html")
         (Some stored_config)) 0 (initial_world 0)
  = (Ok tt,
     World 0 ∅ ∅ []
       [Entry LOG [Lit "Starting UniFi Protect Viewer"];
        Entry LOG [Lit "Loading configuration"];
        Entry LOG [Lit "On configuration page, no customization needed"]] []) /\
  run (static_host (blank_page "about:blank") (Some (Config None None None)))
    0 (initial_world 0)
  = (Ok tt,
     World 0 ∅ ∅ []
       [Entry LOG [Lit "Starting UniFi Protect Viewer"];
        Entry LOG [Lit "Loading configuration"];
        Entry LOG [Lit "Redirecting to configured URL: "; Val "undefined"]]
       [Assign_href "undefined"]).
Proof.
  split.
  - destruct (run_early_exits
                (static_host (blank_page "file:///app/src/html/config.html")
                   (Some stored_config)) 0 (initial_world 0) stored_config
                eq_refl) as (H & _).
    apply H. reflexivity.
  - destruct (run_early_exits
                (static_host (blank_page "about:blank")
                   (Some (Config None None None))) 0 (initial_world 0)
                (Config None None None) eq_refl) as (_ & H & _).
    apply H; reflexivity.
Defined.

(** ** Runs on a page that stays where it is *)

Section Ending.
Variable R : world -> world -> Prop.
Hypothesis R_refl : forall w, R w w.
Hypothesis R_trans : forall w1 w2 w3, R w1 w2 -> R w2 w3 -> R w1 w3.

Lemma ends_ret {A : Type} (a : A) (P : A -> Prop) : P a -> Ends R (ret a) P.
Proof. intros Ha w. exists a, w. repeat split; [exact Ha|apply R_refl]. Qed.

Lemma ends_bind {A B : Type} (m : M A) (k : A -> M B) (P : A -> Prop)
    (Q : B -> Prop) :
  Ends R m P -> (forall a, P a -> Ends R (k a) Q) -> Ends R (bind m k) Q.
Proof.
  intros Hm Hk w. destruct (Hm w) as (a & w1 & E1 & Pa & R1).
  destruct (Hk a Pa w1) as (b & w2 & E2 & Qb & R2).
  exists b, w2. rewrite (bind_Ok _ _ _ a w1 E1). eauto.
Qed.

Lemma ends_try_catch {A : Type} (body : M A) (handler : string -> M A)
    (P : A -> Prop) :
  Ends R body P -> Ends R (try_catchM body handler) P.
Proof.
  intros Hm w. destruct (Hm w) as (a & w1 & E1 & Pa & R1).
  exists a, w1. unfold try_catchM. rewrite E1. eauto.
Qed.

Lemma ends_respects {A : Type} (m : M A) (P : A -> Prop) :
  (forall w, exists a w', m w = (Ok a, w') /\ P a) -> Respects R m ->
  Ends R m P.
Proof.
  intros Hm Hr w. destruct (Hm w) as (a & w' & E & Pa).
  exists a, w'. repeat split; try assumption.
  specialize (Hr w). rewrite E in Hr. exact Hr.
Qed.

Lemma ends_weaken {A : Type} (m : M A) (P Q : A -> Prop) :
  Ends R m P -> (forall a, P a -> Q a) -> Ends R m Q.
Proof.
  intros Hm HPQ w. destruct (Hm w) as (a & w' & E & Pa & Hr).
  exists a, w'. eauto.
Qed.
End Ending.

Section StaticRun.
Variable h : host.
Variable pg : page.
Variable fuel : nat.
Hypothesis page_static : static h pg.
Hypothesis fuel_enough : (601 <= fuel)%nat.
Variable R : world -> world -> Prop.
Hypothesis R_refl : forall w, R w w.
Hypothesis R_trans : forall w1 w2 w3, R w1 w2 -> R w2 w3 -> R w1 w3.
Hypothesis R_now : forall t w, R w (set_now t w).
Hypothesis R_out : forall x w, R w (set_out x w).

Lemma ends_document : Ends R (document h) (fun a => a = pg).
Proof.
  intros w. exists pg, w. unfold document. rewrite page_static.
  repeat split. apply R_refl.
Qed.

Lemma ends_Logger_log message : Ends R (Logger_log message) (fun _ => True).
Proof. intros w. eexists. eexists. split; [reflexivity|]. split; [exact I|apply R_out]. Qed.

Lemma ends_Logger_error message : Ends R (Logger_error message) (fun _ => True).
Proof. intros w. eexists. eexists. split; [reflexivity|]. split; [exact I|apply R_out]. Qed.

(** On an unchanging page a wait on a condition of the page returns what
    the condition is. *)
Lemma ends_await_waitUntil (condition : page -> bool) (timeout interval : option Z) :
  0 < default CONFIG.TIMEOUTS.INTERVAL interval
    < default CONFIG.TIMEOUTS.DEFAULT_WAIT timeout ->
  (polls_before_timeout (default CONFIG.TIMEOUTS.DEFAULT_WAIT timeout)
     (default CONFIG.TIMEOUTS.INTERVAL interval) + 2 <= fuel)%nat ->
  Ends R (await_waitUntil h fuel (fun _ => condition) timeout interval)
    (fun b => b = condition pg).
Proof.
  intros [Hi Ht] Hfuel.
  apply ends_respects;
    [|apply respects_await_waitUntil; assumption].
  intros w. unfold await_waitUntil, waitUntil.
  set (T := default CONFIG.TIMEOUTS.DEFAULT_WAIT timeout) in *.
  set (I := default CONFIG.TIMEOUTS.INTERVAL interval) in *.
  destruct (condition pg) eqn:Eb.
  - destruct (settle_const_true (NODE_ENV_development h)
                (fun t => Returns (condition (page_at h t))) T I Hi (now w) fuel)
      as (logged & ->); [|right; unfold tick; lia|lia|].
    + intros t. rewrite page_static, Eb. reflexivity.
    + eexists. eexists. split; reflexivity.
  - destruct (settle_const_false (NODE_ENV_development h)
                (fun t => Returns (condition (page_at h t))) T I Hi (now w) fuel)
      as (logged & ->); [|lia|exact Hfuel|].
    + intros t. rewrite page_static, Eb. reflexivity.
    + eexists. eexists. split; reflexivity.
Qed.

Lemma ends_await_default (condition : page -> bool) :
  Ends R (await_waitUntil h fuel (fun _ => condition) None None)
    (fun b => b = condition pg).
Proof.
  apply ends_await_waitUntil; [split; reflexivity|].
  change (polls_before_timeout _ _) with 599%nat. lia.
Qed.

Lemma ends_await_loading (condition : page -> bool) :
  Ends R (await_waitUntil h fuel (fun _ => condition)
            (Some CONFIG.TIMEOUTS.LOADING_TIMEOUT) None)
    (fun b => b = condition pg).
Proof.
  apply ends_await_waitUntil; [split; reflexivity|].
  change (polls_before_timeout _ _) with 99%nat. lia.
Qed.

(** The wait for the loading screen to come and go. *)
Lemma ends_loading_screen (k : M unit) :
  Ends R k (fun _ => True) ->
  Ends R
    (let! loadingScreenVisible :=
       await_waitUntil h fuel
         (fun _ pg => hasElements
                        (querySelectorAll pg CONFIG.SELECTORS.LOADING_SCREEN))
         (Some CONFIG.TIMEOUTS.LOADING_TIMEOUT) None in
     (if loadingScreenVisible
      then
        Logger_log [Lit "Loading screen visible, waiting for it to disappear"] >>
        await_waitUntil h fuel
          (fun _ pg => negb (hasElements
                               (querySelectorAll pg CONFIG.SELECTORS.LOADING_SCREEN)))
          None None >> ret tt
      else ret tt) >> k)
    (fun _ => True).
Proof.
  intros Hk.
  eapply ends_bind; [exact R_trans|apply ends_await_loading|].
  intros b _.
  apply ends_bind with (P := fun _ : unit => True);
    [exact R_trans| |intros _ _; exact Hk].
  destruct b.
  - eapply ends_bind; [exact R_trans|apply ends_Logger_log|]. intros _ _.
    eapply ends_bind; [exact R_trans|apply ends_await_default|]. intros _ _.
    apply ends_ret; [exact R_refl|exact I].
  - apply ends_ret; [exact R_refl|exact I].
Qed.
End StaticRun.

(** On an unchanging page a layout driver returns a boolean. *)
Lemma layout_driver_ends (h : host) (pg : page) (fuel : nat) (driver : M bool) :
  static h pg -> (601 <= fuel)%nat ->
  In driver [handleLiveviewV2 h fuel; handleLiveviewV3 h fuel;
             handleLiveviewV4andV5 h fuel] ->
  forall w, exists b w', driver w = (Ok b, w') /\ True.
Proof.
  intros Hs Hf Hin w.
  assert (U : Uniform driver).
  { destruct Hin as [<-|[<-|[<-|[]]]];
      eauto using uniform_handleLiveviewV2, uniform_handleLiveviewV3,
                  uniform_handleLiveviewV4andV5. }
  destruct U as (r & ws & Hr & Hm). destruct (Hm w) as (w' & E & _).
  pose proof (layout_driver_returns h fuel driver w) as Hne. rewrite E in Hne.
  destruct r as [b|e|]; [eauto|exfalso; exact (Hne e Hin eq_refl)|congruence].
Qed.

Section Gen2Route.
Variable h : host.
Variable pg : page.
Variable fuel : nat.
Variable cfg : config.
Variable w : world.
Hypothesis page_static : static h pg.
Hypothesis fuel_enough : (601 <= fuel)%nat.
Hypothesis config_loaded : configLoad_reply h (now w) = Returns (Some cfg).
Hypothesis not_config_screen :
  checkUrl pg "index.html" || checkUrl pg "config.html" = false.
Hypothesis on_configured_url : checkUrl pg (js_string (url cfg)) = true.
Hypothesis not_login : checkUrl pg "login" = false.
Hypothesis on_liveview : checkUrl pg "protect/liveview" = true.

(** X14.  On the Gen-2 route (a URL containing protect/liveview, on the
    configured site and not the login page) a [run] on a page that stays
    the same applies the Gen-2 driver and returns without navigating: the
    Gen-2 branch returns before the block that watches the session, so the
    page is not reloaded from there, whatever the client storage holds. *)
Theorem run_gen2_route :
  exists w', run h fuel w = (Ok tt, w') /\ navigated w' = navigated w.
Proof.
  unfold run, try_catchM. rewrite bind_Logger_log.
  unfold bind at 1. rewrite configLoad_eq, now_Logger_log, config_loaded.
  cbv beta iota.
  rewrite bind_document, now_set_now, (page_static _), not_config_screen.
  cbv iota. rewrite on_configured_url. change (negb true) with false. cbv iota.
  lazymatch goal with
  | |- context [bind (await_waitUntil _ _ _ _ _)
                  (fun lsv => bind (@?X lsv) (fun _ => ?K)) ?W] =>
      assert (HK : Ends stays K (fun _ => True));
      [|destruct (ends_loading_screen h pg fuel page_static fuel_enough stays
                    ltac:(effects_side) ltac:(effects_side) ltac:(effects_side)
                    ltac:(effects_side) K HK W) as ([] & w' & E & _ & Hst)]
  end.
  - eapply ends_bind; [effects_side|apply (ends_document h pg page_static); effects_side|].
    intros ? ->. rewrite not_login.
    apply ends_bind with (P := fun b : bool => b = true);
      [effects_side|apply ends_ret; [effects_side|reflexivity]|].
    intros ? ->. change (negb true) with false. cbv iota.
    eapply ends_bind; [effects_side|apply (ends_document h pg page_static); effects_side|].
    intros ? ->. rewrite on_liveview.
    eapply ends_bind; [effects_side|apply ends_Logger_log; effects_side|].
    intros _ _.
    apply ends_bind with (P := fun _ : bool => True); [effects_side| |].
    + apply ends_respects.
      * apply (layout_driver_ends h pg fuel); [assumption|assumption|].
        simpl. left. reflexivity.
      * apply respects_handleLiveviewV2; effects_side.
    + intros _ _. apply ends_ret; [effects_side|exact I].
  - rewrite E. exists w'. split; [reflexivity|]. exact Hst.
Qed.
End Gen2Route.

Lemma run_gen2_route_witness :
  exists w',
    run (static_host liveview_page_with_modal (Some site_config)) 700
      (initial_world 0) = (Ok tt, w') /\
    navigated w' = navigated (initial_world 0).
Proof.
  apply (run_gen2_route (static_host liveview_page_with_modal (Some site_config))
           liveview_page_with_modal 700 site_config (initial_world 0));
    first [reflexivity | lia | intros t; reflexivity].
Defined.

Section LoginRoute.
Variable h : host.
Variable pg : page.
Variable fuel : nat.
Hypothesis page_static : static h pg.
Hypothesis fuel_enough : (601 <= fuel)%nat.
Hypothesis on_login : checkUrl pg "login" = true.

Lemma handleLogin_fails_on_login_page w :
  exists a w', handleLogin h fuel w = (Ok a, w') /\ a = false.
Proof.
  unfold handleLogin, try_catchM. rewrite bind_Logger_log.
  destruct (ends_await_default h pg fuel page_static fuel_enough
              (fun _ _ => True) (fun _ => I) (fun _ _ _ _ _ => I)
              (fun _ _ => I) (fun _ _ => I)
              (fun pg => hasElements
                           (querySelectorAll pg CONFIG.SELECTORS.LOGIN_BUTTON))
              (snd (Logger_log [Lit "Handling login process"] w)))
    as (b & w1 & E1 & _ & _).
  rewrite (bind_Ok _ _ _ b w1 E1).
  destruct b; cbn [negb]; [|eexists; eexists; split; reflexivity].
  unfold bind at 1. rewrite configLoad_eq.
  destruct (configLoad_reply h (now w1)) as [c|e];
    [|eexists; eexists; split; reflexivity].
  destruct (credentials_present c); cbn [negb];
    [|eexists; eexists; split; reflexivity].
  rewrite bind_document.
  match goal with |- context [bind (setNativeValue h ?el ?v) ?k ?W] =>
    destruct (setNativeValue_returns h el v W) as (wa & Ea);
    rewrite (bind_Ok _ _ _ tt wa Ea) end.
  match goal with |- context [bind (setNativeValue h ?el ?v) ?k ?W] =>
    destruct (setNativeValue_returns h el v W) as (wb & Eb);
    rewrite (bind_Ok _ _ _ tt wb Eb) end.
  match goal with |- context [bind (clickElement h ?el) ?k ?W] =>
    destruct (clickElement_returns h el W) as (wc & Ec);
    rewrite (bind_Ok _ _ _ tt wc Ec) end.
  destruct (ends_await_default h pg fuel page_static fuel_enough
              (fun _ _ => True) (fun _ => I) (fun _ _ _ _ _ => I)
              (fun _ _ => I) (fun _ _ => I)
              (fun pg => negb (checkUrl pg "login")) wc)
    as (b & wd & Ed & Hb & _).
  rewrite (bind_Ok _ _ _ b wd Ed). rewrite on_login in Hb. subst b.
  eexists. eexists. split; reflexivity.
Qed.

Variable cfg : config.
Variable w : world.
Hypothesis config_loaded : configLoad_reply h (now w) = Returns (Some cfg).
Hypothesis not_config_screen :
  checkUrl pg "index.html" || checkUrl pg "config.html" = false.
Hypothesis on_configured_url : checkUrl pg (js_string (url cfg)) = true.

(** X15.  While the page stays on the login route, whether the login form
    never shows, the credentials are missing or the login is not followed
    by a redirect, [handleLogin] returns [false] and [run] ends there: it
    assigns no style and does not navigate. *)
Theorem run_stops_at_login :
  (forall w0, exists w1, handleLogin h fuel w0 = (Ok false, w1)) /\
  exists w', run h fuel w = (Ok tt, w') /\
             style w' = style w /\ navigated w' = navigated w.
Proof.
  split.
  { intros w0. destruct (handleLogin_fails_on_login_page w0) as (a & w1 & E & ->).
    eauto. }
  unfold run, try_catchM. rewrite bind_Logger_log.
  unfold bind at 1. rewrite configLoad_eq, now_Logger_log, config_loaded.
  cbv beta iota.
  rewrite bind_document, now_set_now, (page_static _), not_config_screen.
  cbv iota. rewrite on_configured_url. change (negb true) with false. cbv iota.
  lazymatch goal with
  | |- context [bind (await_waitUntil _ _ _ _ _)
                  (fun lsv => bind (@?X lsv) (fun _ => ?K)) ?W] =>
      assert (HK : Ends login_effects K (fun _ => True));
      [|destruct (ends_loading_screen h pg fuel page_static fuel_enough
                    login_effects
                    ltac:(effects_side) ltac:(effects_side) ltac:(effects_side)
                    ltac:(effects_side) K HK W) as ([] & w' & E & _ & Hst)]
  end.
  - eapply ends_bind;
      [effects_side|apply (ends_document h pg page_static); effects_side|].
    intros ? ->. rewrite on_login.
    apply ends_bind with (P := fun b : bool => b = false); [effects_side| |].
    + eapply ends_bind; [effects_side|apply ends_Logger_log; effects_side|].
      intros _ _.
      apply ends_bind with (P := fun b : bool => b = false); [effects_side| |].
      * apply ends_respects; [exact handleLogin_fails_on_login_page|].
        apply respects_handleLogin; effects_side.
      * intros ? ->.
        eapply ends_bind; [effects_side|apply ends_Logger_error; effects_side|].
        intros _ _. apply ends_ret; [effects_side|reflexivity].
    + intros ? ->. change (negb false) with true. cbv iota.
      apply ends_ret; [effects_side|exact I].
  - rewrite E. exists w'. split; [reflexivity|]. exact Hst.
Qed.
End LoginRoute.

Lemma run_stops_at_login_witness :
  (forall w0, exists w1,
     handleLogin (static_host login_page (Some site_config)) 700 w0
     = (Ok false, w1)) /\
  exists w',
    run (static_host login_page (Some site_config)) 700 (initial_world 0)
    = (Ok tt, w') /\
    style w' = style (initial_world 0) /\
    navigated w' = navigated (initial_world 0).
Proof.
  apply (run_stops_at_login (static_host login_page (Some site_config))
           login_page 700 ltac:(intros t; reflexivity) ltac:(lia) eq_refl
           site_config (initial_world 0));
    reflexivity.
Defined.

(** * The main process *)

Lemma store_handleConfigSave c st m :
  Main.store st = Some m ->
  Main.store (Main.handleConfigSave c st) = Some (<["config" := Main.VConfig c]> m).
Proof. intros E. unfold Main.handleConfigSave. rewrite E. reflexivity. Qed.

Lemma store_handleReset st m :
  Main.store st = Some m -> Main.store (Main.handleReset st) = Some ∅.
Proof. intros E. unfold Main.handleReset. rewrite E. reflexivity. Qed.

Lemma handleConfigLoad_reply st m :
  Main.store st = Some m -> fst (Main.handleConfigLoad st) = m !! "config".
Proof. intros E. unfold Main.handleConfigLoad. rewrite E. reflexivity. Qed.

(** An event other than a reset or a save leaves the stored configuration. *)
Lemma handle_keeps_config ev st m :
  Main.keeps_config ev = true -> Main.store st = Some m ->
  exists m', Main.store (Main.handle ev st) = Some m' /\
             m' !! "config" = m !! "config".
Proof.
  intros Hk E. destruct ev; try discriminate Hk; simpl.
  - exists m. split; [exact E|reflexivity].
  - exists m. unfold Main.handleConfigLoad. rewrite E. split; [exact E|reflexivity].
  - exists m. split; [exact E|reflexivity].
  - unfold Main.on_close. rewrite E. simpl.
    destruct (bool_decide (is_Some (m !! "init"))); simpl;
      [|exists m; split; [exact E|reflexivity]].
    destruct minimized; simpl; [exists m; split; [exact E|reflexivity]|].
    eexists. split; [reflexivity|]. apply lookup_insert_ne. discriminate.
Qed.

Lemma handle_all_keeps_config evs : forall st m,
  forallb Main.keeps_config evs = true -> Main.store st = Some m ->
  exists m', Main.store (Main.handle_all evs st) = Some m' /\
             m' !! "config" = m !! "config".
Proof.
  induction evs as [|ev evs IH]; intros st m Hk E.
  - exists m. split; [exact E|reflexivity].
  - simpl in Hk. apply andb_true_iff in Hk as [Hev Hevs].
    destruct (handle_keeps_config ev st m Hev E) as (m1 & E1 & L1).
    destruct (IH _ m1 Hevs E1) as (m2 & E2 & L2).
    exists m2. split; [exact E2|]. rewrite L2. exact L1.
Qed.

(** X16.  On an initialised store a saved configuration is what
    [configLoad] answers, whatever restarts, loads, confirmation dialogs
    and window closes come in between, as long as no reset and no other
    save does; after a reset [configLoad] answers nothing. *)
Theorem saved_config_is_loaded st m c evs :
  Main.store st = Some m ->
  forallb Main.keeps_config evs = true ->
  let st' := Main.handle_all evs (Main.handleConfigSave c st) in
  fst (Main.handleConfigLoad st') = Some (Main.VConfig c) /\
  fst (Main.handleConfigLoad (Main.handleReset st')) = None.
Proof.
  intros E Hk st'.
  destruct (handle_all_keeps_config evs _ _ Hk (store_handleConfigSave c st m E))
    as (m' & E' & L).
  fold st' in E'. split.
  - rewrite (handleConfigLoad_reply _ _ E'), L. apply lookup_insert_eq.
  - rewrite (handleConfigLoad_reply _ _ (store_handleReset _ _ E')).
    apply lookup_empty.
Qed.

Lemma saved_config_is_loaded_witness :
  let st' :=
    Main.handle_all
      [Main.Restart; Main.Close (Main.Bounds 10 20 800 600) false;
       Main.ShowResetConfirmation 0; Main.ConfigLoad]
      (Main.handleConfigSave site_config (ready ∅)) in
  fst (Main.handleConfigLoad st') = Some (Main.VConfig site_config) /\
  fst (Main.handleConfigLoad (Main.handleReset st')) = None.
Proof.
  apply (saved_config_is_loaded (ready ∅) ∅ site_config); reflexivity.
Defined.

(** No handler creates the key [init], and only a store holding it gets
    bounds written. *)
Lemma handle_never_saves_bounds ev st m :
  Main.store st = Some m -> m !! "init" = None ->
  exists m', Main.store (Main.handle ev st) = Some m' /\
             m' !! "init" = None /\
             (m' !! "bounds" = m !! "bounds" \/ m' !! "bounds" = None).
Proof.
  intros E Hi. destruct ev; simpl.
  - exists ∅. split; [apply (store_handleReset _ _ E)|].
    split; [apply lookup_empty|right; apply lookup_empty].
  - exists m. auto.
  - eexists. split; [apply (store_handleConfigSave _ _ _ E)|].
    split; [rewrite lookup_insert_ne by discriminate; exact Hi|].
    left. apply lookup_insert_ne. discriminate.
  - exists m. unfold Main.handleConfigLoad. rewrite E. auto.
  - exists m. auto.
  - exists m. unfold Main.on_close. rewrite E. simpl. rewrite Hi.
    rewrite bool_decide_eq_false_2 by (intros [? ?]; discriminate).
    simpl. auto.
Qed.

Lemma handle_all_never_saves_bounds evs : forall st m,
  Main.store st = Some m -> m !! "init" = None ->
  exists m', Main.store (Main.handle_all evs st) = Some m' /\
             m' !! "init" = None /\
             (m' !! "bounds" = m !! "bounds" \/ m' !! "bounds" = None).
Proof.
  induction evs as [|ev evs IH]; intros st m E Hi.
  - exists m. auto.
  - destruct (handle_never_saves_bounds ev st m E Hi) as (m1 & E1 & Hi1 & Hb1).
    destruct (IH _ m1 E1 Hi1) as (m2 & E2 & Hi2 & Hb2).
    exists m2. split; [exact E2|]. split; [exact Hi2|].
    destruct Hb2 as [Hb2|Hb2]; [|right; exact Hb2].
    rewrite Hb2. exact Hb1.
Qed.

(** X17.  The window's bounds are never remembered: on a store without the
    key [init], which no code sets, no sequence of events writes [bounds]
    (a reset can only remove them), so a store that starts without bounds
    always opens the window at the default size and no position. *)
Theorem window_bounds_never_saved e st m evs :
  Main.store st = Some m -> m !! "init" = None ->
  let st' := Main.handle_all evs st in
  (exists m', Main.store st' = Some m' /\
              (m' !! "bounds" = m !! "bounds" \/ m' !! "bounds" = None)) /\
  (m !! "bounds" = None ->
   exists st'', Main.createWindow e st' = Returns st'' /\
     exists rest,
       Main.window st'' =
       Main.window st' ++
       Main.NewBrowserWindow Main.WINDOW_CONFIG.defaultWidth
         Main.WINDOW_CONFIG.defaultHeight None None :: rest).
Proof.
  intros E Hi st'.
  destruct (handle_all_never_saves_bounds evs st m E Hi) as (m' & E' & _ & Hb).
  fold st' in E'. split; [exists m'; auto|].
  intros Hn. assert (Hb' : m' !! "bounds" = None).
  { destruct Hb as [Hb|Hb]; [rewrite Hb; exact Hn|exact Hb]. }
  unfold Main.createWindow. rewrite E'. simpl. rewrite Hb'. simpl.
  eexists. split; [reflexivity|].
  assert (Hw : forall s, exists rest,
             Main.window (Main.handleWindow e s) = Main.window s ++ rest).
  { intros s. unfold Main.handleWindow, Main.handleWindow_catch,
      Main.showConfigScreen, Main.showErrorScreen.
    destruct (Main.development e), (Main.store s) as [ms|]; simpl;
      repeat match goal with
        | |- context [match ?x with _ => _ end] => destruct x; simpl
        end;
      rewrite <- ?app_assoc; eexists; try reflexivity;
      symmetry; apply app_nil_r. }
  match goal with |- context [Main.handleWindow e ?s] =>
    destruct (Hw s) as (rest & ->) end.
  simpl. rewrite <- !app_assoc. simpl. eexists. reflexivity.
Qed.

Lemma window_bounds_never_saved_witness :
  let st' :=
    Main.handle_all
      [Main.Close (Main.Bounds 10 20 800 600) false; Main.Restart]
      (ready configured_store) in
  (exists m', Main.store st' = Some m' /\
              (m' !! "bounds" = configured_store !! "bounds" \/
               m' !! "bounds" = None)) /\
  (configured_store !! "bounds" = None ->
   exists st'', Main.createWindow (plain_env (Returns configured_store)) st'
                = Returns st'' /\
     exists rest,
       Main.window st'' =
       Main.window st' ++
       Main.NewBrowserWindow Main.WINDOW_CONFIG.defaultWidth
         Main.WINDOW_CONFIG.defaultHeight None None :: rest).
Proof.
  apply (window_bounds_never_saved (plain_env (Returns configured_store))
           (ready configured_store) configured_store); reflexivity.
Defined.

Lemma loads_window_do a st :
  Main.loads (Main.window_do a st) =
  Main.loads st ++ (if Main.is_load a then [a] else []).
Proof.
  unfold Main.loads, Main.window_do. simpl. rewrite List.filter_app. simpl.
  destruct (Main.is_load a); reflexivity.
Qed.

Lemma loads_showConfigScreen e st :
  Main.loads (Main.showConfigScreen e st) =
  Main.loads st ++ [Main.LoadFile Main.config_html].
Proof.
  unfold Main.showConfigScreen.
  destruct (Main.loadFile_error e Main.config_html);
    unfold Main.loads; simpl; rewrite ?List.filter_app; simpl;
    rewrite ?app_nil_r; reflexivity.
Qed.

Lemma loads_showErrorScreen e msg st :
  Main.loads (Main.showErrorScreen e msg st) =
  Main.loads st ++ [Main.LoadFile Main.error_html].
Proof.
  unfold Main.showErrorScreen.
  destruct (Main.loadFile_error e Main.error_html); [|destruct (truthy_string msg)];
    unfold Main.loads; simpl; rewrite ?List.filter_app; simpl;
    rewrite ?app_nil_r; reflexivity.
Qed.

(** What [handleWindow] loads, by the stored configuration. *)
Lemma loads_handleWindow e st m :
  Main.store st = Some m ->
  Main.loads (Main.handleWindow e st) =
  Main.loads st ++
  (if Main.config_invalid (m !! "config")
   then [Main.LoadFile Main.config_html]
   else
     let u := js_string (Main.string_property url (m !! "config")) in
     Main.LoadURL u ::
     match Main.loadURL_error e u with
     | None => []
     | Some _ => [Main.LoadFile Main.error_html]
     end).
Proof.
  intros E. unfold Main.handleWindow.
  set (st0 := if Main.development e then Main.window_do Main.OpenDevTools st else st).
  assert (E0 : Main.store st0 = Some m) by (unfold st0; destruct (Main.development e); exact E).
  assert (L0 : Main.loads st0 = Main.loads st).
  { unfold st0. destruct (Main.development e); [|reflexivity].
    rewrite loads_window_do. apply app_nil_r. }
  rewrite E0. simpl. rewrite <- L0.
  destruct (m !! "config") as [v|] eqn:Ev.
  - rewrite bool_decide_eq_true_2 by eauto.
    destruct (Main.config_invalid (Some v)).
    + rewrite loads_showConfigScreen. reflexivity.
    + cbv zeta.
      destruct (Main.loadURL_error e _).
      * rewrite loads_showErrorScreen. unfold Main.loads. simpl.
        rewrite List.filter_app. simpl. rewrite <- app_assoc. reflexivity.
      * unfold Main.loads. simpl. rewrite List.filter_app. reflexivity.
  - rewrite bool_decide_eq_false_2 by (intros [? ?]; discriminate).
    rewrite loads_showConfigScreen. reflexivity.
Qed.

(** X18.  What the window shows follows the store: after a reset it loads
    the configuration screen; after a save it loads the saved URL exactly
    when url, username and password are all non-empty (and then the
    script's own credential check on that configuration passes, and the
    error screen follows if the URL fails to load), and the configuration
    screen otherwise. *)
Theorem window_follows_store e st m c :
  Main.store st = Some m ->
  Main.loads (Main.handleWindow e (Main.handleReset st)) =
    Main.loads st ++ [Main.LoadFile Main.config_html] /\
  (truthy (url c) && truthy (username c) && truthy (password c) = false ->
   Main.loads (Main.handleWindow e (Main.handleConfigSave c st)) =
     Main.loads st ++ [Main.LoadFile Main.config_html]) /\
  (truthy (url c) && truthy (username c) && truthy (password c) = true ->
   Main.loads (Main.handleWindow e (Main.handleConfigSave c st)) =
     Main.loads st ++
     Main.LoadURL (js_string (url c)) ::
     match Main.loadURL_error e (js_string (url c)) with
     | None => []
     | Some _ => [Main.LoadFile Main.error_html]
     end /\
   credentials_present (Some c) = true).
Proof.
  intros E.
  assert (Hr : Main.loads (Main.handleReset st) = Main.loads st).
  { unfold Main.handleReset. rewrite E. reflexivity. }
  assert (Hs : Main.loads (Main.handleConfigSave c st) = Main.loads st).
  { unfold Main.handleConfigSave. rewrite E. reflexivity. }
  assert (Hi : Main.config_invalid (Some (Main.VConfig c)) =
               negb (truthy (url c) && truthy (username c) && truthy (password c))).
  { unfold Main.config_invalid. simpl.
    destruct (truthy (url c)), (truthy (username c)), (truthy (password c));
      reflexivity. }
  split; [|split].
  - rewrite (loads_handleWindow e _ ∅ (store_handleReset _ _ E)), Hr.
    rewrite lookup_empty. reflexivity.
  - intros Hc.
    rewrite (loads_handleWindow e _ _ (store_handleConfigSave c _ _ E)), Hs.
    rewrite lookup_insert_eq, Hi, Hc. reflexivity.
  - intros Hc. split.
    + rewrite (loads_handleWindow e _ _ (store_handleConfigSave c _ _ E)), Hs.
      rewrite lookup_insert_eq, Hi, Hc. reflexivity.
    + simpl. apply andb_true_iff in Hc as [Hc Hp].
      apply andb_true_iff in Hc as [_ Hu]. rewrite Hu, Hp. reflexivity.
Qed.

Lemma window_follows_store_witness :
  Main.loads (Main.handleWindow (plain_env (Returns ∅))
                (Main.handleConfigSave site_config (ready ∅))) =
  [Main.LoadURL "https://h"].
Proof.
  destruct (window_follows_store (plain_env (Returns ∅)) (ready ∅) ∅ site_config
              eq_refl) as (_ & _ & H).
  destruct (H eq_refl) as [H1 _]. exact H1.
Defined.

Lemma handle_null_store ev st :
  Main.store st = None ->
  Main.store (Main.handle ev st) = None /\
  Main.window (Main.handle ev st) = Main.window st.
Proof.
  intros E. destruct ev; simpl;
    unfold Main.handleReset, Main.handleConfigSave, Main.handleConfigLoad,
      Main.on_close; rewrite ?E; simpl; auto.
Qed.

Lemma handle_all_null_store evs : forall st,
  Main.store st = None ->
  Main.store (Main.handle_all evs st) = None /\
  Main.window (Main.handle_all evs st) = Main.window st.
Proof.
  induction evs as [|ev evs IH]; intros st E; [auto|].
  destruct (handle_null_store ev st E) as [E1 W1].
  destruct (IH _ E1) as [E2 W2]. simpl. split; [exact E2|].
  rewrite W2. exact W1.
Qed.

(** X19.  When the store cannot be created the module variable stays
    [null]: start-up shows the two error boxes and creates no window at
    all, and afterwards no handler lets an exception out or stores
    anything: [configLoad] answers [null] and a save is lost. *)
Theorem store_initialisation_failure e err :
  Main.new_Store e = Throws err ->
  let st := Main.whenReady e Main.start in
  Main.store st = None /\
  Main.window st = [] /\
  Main.errorBoxes st = ["Configuration Error"; "Application Error"] /\
  forall evs,
    let st' := Main.handle_all evs st in
    Main.store st' = None /\ Main.window st' = [] /\
    fst (Main.handleConfigLoad st') = None.
Proof.
  intros E st.
  assert (Hst : Main.store st = None /\ Main.window st = [] /\
                Main.errorBoxes st = ["Configuration Error"; "Application Error"]).
  { unfold st, Main.whenReady, Main.initializeStore. rewrite E. simpl. auto. }
  destruct Hst as (Hs & Hw & Hb). repeat split; try assumption.
  - apply (handle_all_null_store evs st Hs).
  - destruct (handle_all_null_store evs st Hs) as [_ W]. rewrite <- Hw. exact W.
  - destruct (handle_all_null_store evs st Hs) as [S' _].
    unfold Main.handleConfigLoad. rewrite S'. reflexivity.
Qed.

Lemma store_initialisation_failure_witness :
  let st := Main.whenReady (plain_env (Throws "EACCES")) Main.start in
  Main.store st = None /\
  Main.window st = [] /\
  Main.errorBoxes st = ["Configuration Error"; "Application Error"] /\
  forall evs,
    let st' := Main.handle_all evs st in
    Main.store st' = None /\ Main.window st' = [] /\
    fst (Main.handleConfigLoad st') = None.
Proof.
  apply (store_initialisation_failure (plain_env (Throws "EACCES")) "EACCES").
  reflexivity.
Defined.

(** X20.  Of all keys only F10, and only when the confirmation box is
    answered with its second button, changes the store: it is then cleared
    and the application restarted.  F9 restarts without touching the
    store; any other key, and F10 when cancelled, does neither. *)
Theorem keydown_effect key response console st :
  let st' := Main.handle_all (snd (keydown key response console)) st in
  (Main.store st' <> Main.store st -> key = "F10" /\ response = 1) /\
  (key = "F10" -> response = 1 ->
   Main.store st' = (match Main.store st with Some _ => Some ∅ | None => None end)
   /\ Main.app st' = Main.app st ++ [Main.Relaunch; Main.Quit]) /\
  (key = "F9" ->
   Main.store st' = Main.store st /\
   Main.app st' = Main.app st ++ [Main.Relaunch; Main.Quit]) /\
  (key <> "F9" -> (key <> "F10" \/ response <> 1) -> Main.app st' = Main.app st).
Proof.
  unfold keydown, Main.showResetConfirmation.
  destruct (String.eqb_spec key "F9") as [->|N9];
    [|destruct (String.eqb_spec key "F10") as [->|N10];
      [destruct (Z.eqb_spec response 1) as [->|N1]|]];
    simpl; unfold Main.handleReset; destruct (Main.store st) eqn:E; simpl;
    intuition (try first [congruence | discriminate]);
    rewrite <- app_assoc; reflexivity.
Qed.

Lemma keydown_effect_witness :
  let st' :=
    Main.handle_all (snd (keydown "F10" 1 [])) (ready configured_store) in
  Main.store st' = Some ∅ /\
  Main.app st' = [Main.Relaunch; Main.Quit].
Proof.
  destruct (keydown_effect "F10" 1 [] (ready configured_store)) as (_ & H & _).
  exact (H eq_refl eq_refl).
Defined.
